(** * Reconciliation engine of the media-catalog importer

    A shallow embedding of the TMDb matching and applying scripts
    ([scripts/tmdb_match_*.py], [scripts/tmdb_apply_*.py]) together with the
    properties their specification states about them.

    Conventions.
    - A Python [str] is a [string]: a sequence of 8-bit characters read as
      the code points U+0000..U+00FF (Latin-1).  Characters outside that
      range (for instance the en dash of [simplify_title]) are outside the
      modelled alphabet.
    - Python [int] is [Z]; a value that may be [None] is an [option].
    - A database table is the list of its rows; a unique constraint is the
      conflict target of the [INSERT ... ON CONFLICT] that relies on it.
    - Effects (HTTP requests, [time.sleep], SQL statements, commit and
      rollback, exceptions) are threaded through the monad [M].
    - The catalog is a function of the request and of the number of
      requests issued before it; the body of an answer is a parsed JSON
      document.  SQL statements succeed; timestamps ([now()]) are not
      modelled; keys that the database draws are the least unused ones. *)

From Stdlib Require Import String Ascii List ZArith NArith Lia QArith Bool.
From Stdlib Require Import DecimalString.
Import ListNotations.

Open Scope string_scope.
Open Scope Z_scope.

(** ** Python string primitives *)

Module Py.

(** Code point of a character. *)
Definition ord (c : ascii) : N := N_of_ascii c.

Definition in_range (lo hi : N) (c : ascii) : bool :=
  ((lo <=? ord c) && (ord c <=? hi))%N.

(** [str.isspace] (and the [\s] class of [re] on [str] patterns) on
    U+0000..U+00FF: TAB..CR, FS..US, space, NEL and NBSP. *)
Definition isspace (c : ascii) : bool :=
  in_range 9 13 c || in_range 28 32 c || (ord c =? 133)%N || (ord c =? 160)%N.

(** [str.lower] on one Latin-1 character: A-Z and the accented capitals
    U+00C0..U+00DE (but not the multiplication sign U+00D7) move up by 32. *)
Definition lower_char (c : ascii) : ascii :=
  if in_range 65 90 c || (in_range 192 222 c && negb (ord c =? 215)%N)
  then ascii_of_N (ord c + 32)
  else c.

Fixpoint lower (s : string) : string :=
  match s with
  | EmptyString => EmptyString
  | String c r => String (lower_char c) (lower r)
  end.

Fixpoint lstrip (s : string) : string :=
  match s with
  | EmptyString => EmptyString
  | String c r => if isspace c then lstrip r else s
  end.

Fixpoint rstrip (s : string) : string :=
  match s with
  | EmptyString => EmptyString
  | String c r =>
      match rstrip r with
      | EmptyString => if isspace c then EmptyString else String c EmptyString
      | r' => String c r'
      end
  end.

(** [s.strip()] *)
Definition strip (s : string) : string := rstrip (lstrip s).

(** [s.startswith(p)] *)
Definition startswith (s p : string) : bool := String.prefix p s.

(** [a in b] on strings: [a] occurs in [b] as a contiguous substring. *)
Fixpoint str_in (a b : string) : bool :=
  String.prefix a b ||
  match b with
  | EmptyString => false
  | String _ r => str_in a r
  end.

(** [s[:n]] *)
Fixpoint slice_to (n : nat) (s : string) : string :=
  match n, s with
  | O, _ => EmptyString
  | _, EmptyString => EmptyString
  | S k, String c r => String c (slice_to k r)
  end.

(** [str(n)] for an [int]. *)
Definition str_of_int (n : Z) : string := NilEmpty.string_of_int (Z.to_int n).

(** A falsy string is the empty one. *)
Definition truthy (s : string) : bool :=
  match s with EmptyString => false | _ => true end.

(** [s or ""] for an optional string. *)
Definition or_empty (s : option string) : string :=
  match s with Some x => x | None => EmptyString end.

(** [sep.join(l)] *)
Fixpoint join (sep : string) (l : list string) : string :=
  match l with
  | [] => EmptyString
  | [x] => x
  | x :: r => x ++ sep ++ join sep r
  end.

(** [all p s]: every character of [s] satisfies [p]. *)
Fixpoint all_chars (p : ascii -> bool) (s : string) : bool :=
  match s with
  | EmptyString => true
  | String c r => p c && all_chars p r
  end.

(** [re.sub(cls+, " ", s)] for a character class [cls]: every maximal run of
    characters of the class becomes one space.  [in_run] tells that the
    previous character belonged to a run already replaced. *)
Fixpoint sub_runs_from (cls : ascii -> bool) (in_run : bool) (s : string) : string :=
  match s with
  | EmptyString => EmptyString
  | String c r =>
      if cls c
      then if in_run then sub_runs_from cls true r
           else String " " (sub_runs_from cls true r)
      else String c (sub_runs_from cls false r)
  end.

Definition sub_runs (cls : ascii -> bool) (s : string) : string :=
  sub_runs_from cls false s.

(** [re.sub(cls, " ", s)] for a character class [cls], without repetition:
    every character of the class becomes a space. *)
Fixpoint sub_each (cls : ascii -> bool) (s : string) : string :=
  match s with
  | EmptyString => EmptyString
  | String c r => String (if cls c then " "%char else c) (sub_each cls r)
  end.

Definition is_close (c : ascii) : bool := (c =? "]")%char.
Definition is_open (c : ascii) : bool := (c =? "[")%char.

Fixpoint has_close (s : string) : bool :=
  match s with
  | EmptyString => false
  | String c r => is_close c || has_close r
  end.

(** [re.sub(r"\[[^\]]*\]", "", s)]: scanning from the left, an opening
    bracket that is followed somewhere by a closing one is deleted together
    with everything up to the first closing bracket.  [inside] tells that
    the scan is between such a pair. *)
Fixpoint sub_brackets_from (inside : bool) (s : string) : string :=
  match s with
  | EmptyString => EmptyString
  | String c r =>
      if inside
      then if is_close c then sub_brackets_from false r
           else sub_brackets_from true r
      else if is_open c && has_close r then sub_brackets_from true r
           else String c (sub_brackets_from false r)
  end.

Definition sub_brackets (s : string) : string := sub_brackets_from false s.

(** A title carries a bracketed annotation when the pattern above matches
    somewhere. *)
Fixpoint has_bracketed (s : string) : bool :=
  match s with
  | EmptyString => false
  | String c r => (is_open c && has_close r) || has_bracketed r
  end.

(** [str.isprintable] on one character of U+0000..U+00FF: all but the
    control characters, NBSP and the soft hyphen. *)
Definition isprintable (c : ascii) : bool :=
  in_range 32 126 c || (in_range 161 255 c && negb (ord c =? 173)%N).

(** A hexadecimal digit, in lower case. *)
Definition hex_digit (n : N) : ascii :=
  if (n <? 10)%N then ascii_of_N (48 + n) else ascii_of_N (87 + n).

Fixpoint has_char (q : ascii) (s : string) : bool :=
  match s with
  | EmptyString => false
  | String c r => (c =? q)%char || has_char q r
  end.

(** The characters of [repr(s)] between the quotes: the quote in use and
    the backslash are escaped, TAB, LF and CR are spelled [\t], [\n] and
    [\r], and any other character that is not printable is spelled [\xhh]. *)
Fixpoint repr_body (quote : ascii) (s : string) : string :=
  match s with
  | EmptyString => EmptyString
  | String c r =>
      (if (c =? quote)%char || (ord c =? 92)%N then String "092" (String c "")
       else if (ord c =? 9)%N then String "092" "t"
       else if (ord c =? 10)%N then String "092" "n"
       else if (ord c =? 13)%N then String "092" "r"
       else if isprintable c then String c ""
       else String "092" (String "x" (String (hex_digit (ord c / 16))
                                        (String (hex_digit (ord c mod 16)) ""))))
      ++ repr_body quote r
  end.

(** [repr(s)]: single quotes, unless [s] holds a single quote and no
    double quote. *)
Definition repr (s : string) : string :=
  let quote : ascii :=
    if has_char "'" s && negb (has_char "034" s) then "034"%char else "'"%char in
  String quote (repr_body quote s ++ String quote "").

End Py.

(** ** Normalizer *)

(** The class [[a-z0-9 ]] of the punctuation pattern. *)
Definition is_alnum_space (c : ascii) : bool :=
  Py.in_range 97 122 c || Py.in_range 48 57 c || (c =? " ")%char.

(** [norm] of [tmdb_match_seen_sc.py] and [tmdb_match_watchlist_sc.py]. *)
Definition norm (s : option string) : string :=
  let s := Py.lower (Py.or_empty s) in
  let s := Py.sub_brackets s in
  let s := Py.sub_runs (fun c => negb (is_alnum_space c)) s in
  Py.strip (Py.sub_runs Py.isspace s).

(** [norm] of [tmdb_match_br.py]. *)
Definition br_norm (s : option string) : string :=
  let s := Py.lower (Py.strip (Py.or_empty s)) in
  Py.sub_runs Py.isspace s.


(** [norm_name] of [tmdb_match_nas.py]: the letters kept besides [a-z0-9]
    are the accented ones of the pattern, whitespace, apostrophe and hyphen. *)
Definition nas_accented : list N :=
  [224; 226; 228; 231; 233; 232; 234; 235; 238; 239; 244; 246; 249; 251; 252; 255; 241]%N.

Definition is_name_char (c : ascii) : bool :=
  Py.in_range 97 122 c || Py.in_range 48 57 c
  || existsb (N.eqb (Py.ord c)) nas_accented
  || Py.isspace c || (c =? "'")%char || (c =? "-")%char.

Definition norm_name (s : option string) : string :=
  match s with
  | None => ""
  | Some s =>
      if Py.truthy s then
        let s := Py.strip (Py.lower s) in
        let s := Py.sub_each (fun c => negb (is_name_char c)) s in
        Py.strip (Py.sub_runs Py.isspace s)
      else ""
  end.

(** The stop words of [simplify_title]. *)
Definition STOP : list string :=
  ["le"; "la"; "les"; "un"; "une"; "the"; "a"; "an"; "of"].

Definition is_alnum (c : ascii) : bool :=
  Py.in_range 97 122 c || Py.in_range 48 57 c.

(** [re.split(r"[:\-]", t)[0]]: the text before the first colon or hyphen. *)
Fixpoint before_separator (t : string) : string :=
  match t with
  | EmptyString => EmptyString
  | String c r =>
      if (c =? ":")%char || (c =? "-")%char then EmptyString
      else String c (before_separator r)
  end.

(** [re.findall(r"[a-z0-9]+", t)]: the maximal runs of [a-z0-9].  [cur] is
    the run being read. *)
Fixpoint findall_words_from (cur : string) (t : string) : list string :=
  match t with
  | EmptyString => if Py.truthy cur then [cur] else []
  | String c r =>
      if is_alnum c then findall_words_from (cur ++ String c EmptyString) r
      else if Py.truthy cur then cur :: findall_words_from EmptyString r
           else findall_words_from EmptyString r
  end.

Definition findall_words (t : string) : list string :=
  findall_words_from EmptyString t.

Definition in_stop (w : string) : bool := existsb (String.eqb w) STOP.

(** [simplify_title] of [tmdb_match_watchlist_sc.py]. *)
Definition simplify_title (title : option string) : string :=
  let t := Py.lower (Py.or_empty title) in
  let t := Py.sub_brackets t in
  let t := before_separator t in
  let words := filter (fun w => negb (in_stop w)) (findall_words t) in
  Py.strip (Py.join " " (firstn 5 words)).

(** ** Exceptions and the effect monad *)

Inductive exn : Type :=
| RuntimeError (msg : string)
| HTTPError (msg : string)
| RequestException (msg : string)
| KeyError (key : string)
| ValueError (msg : string)
| TypeError (msg : string)
| IndexError (msg : string).

(** [str(e)] *)
Definition exn_str (e : exn) : string :=
  match e with
  | RuntimeError m | HTTPError m | RequestException m
  | ValueError m | TypeError m | IndexError m => m
  | KeyError k => "'" ++ k ++ "'"
  end.

Inductive result (A : Type) : Type :=
| Ok (a : A)
| Raise (e : exn).
Arguments Ok {A} a.
Arguments Raise {A} e.

(** *** The catalog's JSON documents

    [None] in a field stands for a key the document does not carry. *)

Record candidate : Type := {
  c_id : Z;
  c_title : option string;
  c_original_title : option string;
  c_release_date : option string
}.

Record crew_member : Type := {
  cm_name : option string;
  cm_job : option string
}.

Record genre_json : Type := {
  g_id : option Z;
  g_name : option string
}.

Record movie : Type := {
  m_id : Z;
  m_imdb_id : option string;
  m_title : option string;
  m_original_title : option string;
  m_release_date : option string;
  m_runtime : option Z;
  m_overview : option string;
  m_original_language : option string;
  m_poster_path : option string;
  m_backdrop_path : option string;
  m_popularity : option Q;
  m_vote_average : option Q;
  m_vote_count : option Z;
  m_genres : option (list genre_json)
}.

Inductive json : Type :=
| JSearch (results : list candidate)
| JCredits (crew : list crew_member)
| JMovie (d : movie)
| JObject.

(** [search.get("results", [])] *)
Definition get_results (j : json) : list candidate :=
  match j with JSearch r => r | _ => [] end.

(** [credits.get("crew", [])] *)
Definition get_crew (j : json) : list crew_member :=
  match j with JCredits c => c | _ => [] end.

(** *** HTTP *)

Inductive request : Type :=
| SearchMovie (query : option string) (year : option Z)
| MovieCredits (id : Z) (language : option string)
| MovieDetails (id : option Z).

(** The [path] argument of [tmdb_get]. *)
Definition path_of (r : request) : string :=
  match r with
  | SearchMovie _ _ => "/search/movie"
  | MovieCredits id _ => "/movie/" ++ Py.str_of_int id ++ "/credits"
  | MovieDetails id =>
      "/movie/" ++ match id with Some n => Py.str_of_int n | None => "None" end
  end.

(** A [requests.Response]. *)
Record response : Type := {
  status_code : Z;
  reason : string;
  url : string;
  body : json
}.

(** What [requests.get] does: it returns a response or raises (timeout,
    connection failure). *)
Inductive reply : Type :=
| Answer (r : response)
| Failure (msg : string).

(** ** The database *)

Inductive status : Type :=
| PENDING | MATCHED | AMBIGUOUS | NOT_FOUND | ERROR | APPLIED.

Definition status_eqb (a b : status) : bool :=
  match a, b with
  | PENDING, PENDING | MATCHED, MATCHED | AMBIGUOUS, AMBIGUOUS
  | NOT_FOUND, NOT_FOUND | ERROR, ERROR | APPLIED, APPLIED => true
  | _, _ => false
  end.

(** A row of a staging table ([import_br], [import_nas], [import_seen_sc],
    [import_watchlist_sc]).  One record type serves the four tables; a
    column that a table lacks is [None] there.  [raw_title] is
    [raw_title_clean] in [import_br]; [raw_directors] is [raw_director] in
    [import_nas] and [raw_creators] in [import_br]. *)
Record import_row : Type := {
  import_id : Z;
  raw_title : option string;
  raw_year : option Z;
  raw_directors : option string;
  raw_first_name : option string;
  raw_last_name : option string;
  tmdb_id : option Z;
  match_status : status;
  match_note : option string;
  formats : option (list string);
  copies : option Z;
  ean_isbn13 : option string;
  number_of_discs : option Z;
  notes : option string;
  raw_file_path : option string;
  watched_date : option string;
  rating_10 : option Z
}.

Definition set_match (st : status) (tid : option Z) (note : option string)
    (r : import_row) : import_row :=
  {| import_id := import_id r; raw_title := raw_title r; raw_year := raw_year r;
     raw_directors := raw_directors r; raw_first_name := raw_first_name r;
     raw_last_name := raw_last_name r;
     tmdb_id := tid; match_status := st; match_note := note;
     formats := formats r; copies := copies r; ean_isbn13 := ean_isbn13 r;
     number_of_discs := number_of_discs r; notes := notes r;
     raw_file_path := raw_file_path r;
     watched_date := watched_date r; rating_10 := rating_10 r |}.

Record source_row : Type := {
  source_id : Z;
  code : string;
  label : string
}.

Record film_row : Type := {
  film_id : Z;
  f_tmdb_id : Z;
  f_imdb_id : option string;
  f_title : option string;
  f_original_title : option string;
  f_release_date : option string;
  f_year : option Z;
  f_runtime_min : option Z;
  f_overview : option string;
  f_original_language : option string;
  f_poster_path : option string;
  f_backdrop_path : option string;
  f_tmdb_popularity : option Q;
  f_tmdb_vote_avg : option Q;
  f_tmdb_vote_count : option Z
}.

Record genre_row : Type := {
  genre_id : Z;
  tmdb_genre_id : Z;
  genre_name : string
}.

Record film_source_row : Type := {
  fs_film_id : Z;
  fs_source_id : Z;
  is_available : bool
}.

Record physical_copy_row : Type := {
  pc_film_id : Z;
  pc_format : option string;
  pc_formats : list string;
  pc_copies : Z;
  pc_ean_isbn13 : option string;
  pc_number_of_discs : option Z;
  pc_notes : option string
}.

Record user_film_row : Type := {
  uf_user_id : Z;
  uf_film_id : Z;
  uf_status : string;
  uf_rating_10 : option Z;
  uf_first_seen_at : option string;
  uf_last_seen_at : option string;
  uf_rewatch_count : Z
}.

Record watch_event_row : Type := {
  we_user_id : Z;
  we_film_id : Z;
  we_watched_at : string;
  we_rating_10 : option Z;
  we_context : string
}.

Record database : Type := {
  imports : list import_row;
  sources : list source_row;
  films : list film_row;
  genres : list genre_row;
  film_genres : list (Z * Z);
  film_sources : list film_source_row;
  physical_copies : list physical_copy_row;
  user_films : list user_film_row;
  watch_events : list watch_event_row
}.

(** ** The world and the monad

    [server n q] is what the catalog answers to request [q] when [n]
    requests were issued before it.  [requested] and [slept] log the HTTP
    requests and the [time.sleep] calls, latest first.  [db] is the state
    the open transaction sees, [committed] the state of the last commit. *)
Record world : Type := {
  server : nat -> request -> reply;
  requested : list request;
  slept : list Q;
  db : database;
  committed : database
}.

Definition M (A : Type) : Type := world -> result A * world.

Definition ret {A} (a : A) : M A := fun w => (Ok a, w).

Definition raise {A} (e : exn) : M A := fun w => (Raise e, w).

Definition bind {A B} (m : M A) (k : A -> M B) : M B :=
  fun w =>
    match m w with
    | (Ok a, w') => k a w'
    | (Raise e, w') => (Raise e, w')
    end.

(** [try: body except Exception as e: handler(e)] *)
Definition try_except {A} (body : M A) (handler : exn -> M A) : M A :=
  fun w =>
    match body w with
    | (Ok a, w') => (Ok a, w')
    | (Raise e, w') => handler e w'
    end.

Declare Scope monad_scope.
Delimit Scope monad_scope with monad.
Notation "x <- c1 ;; c2" := (bind c1 (fun x => c2))
  (at level 61, c1 at next level, right associativity) : monad_scope.
Notation "c1 ;; c2" := (bind c1 (fun _ => c2))
  (at level 61, right associativity) : monad_scope.
Open Scope monad_scope.

(** [for x in l: body(x)] *)
Fixpoint for_each {A} (l : list A) (body : A -> M unit) : M unit :=
  match l with
  | [] => ret tt
  | x :: r => body x ;; for_each r body
  end.

(** [requests.get] *)
Definition http_get (q : request) : M response :=
  fun w =>
    let w' := {| server := server w; requested := q :: requested w;
                 slept := slept w; db := db w; committed := committed w |} in
    match server w (length (requested w)) q with
    | Answer r => (Ok r, w')
    | Failure msg => (Raise (RequestException msg), w')
    end.

(** [time.sleep] *)
Definition sleep (d : Q) : M unit :=
  fun w =>
    (Ok tt, {| server := server w; requested := requested w;
               slept := d :: slept w; db := db w; committed := committed w |}).

(** A [cur.execute] that changes the database. *)
Definition execute (f : database -> database) : M unit :=
  fun w =>
    (Ok tt, {| server := server w; requested := requested w;
               slept := slept w; db := f (db w); committed := committed w |}).

(** A [cur.execute] that only reads. *)
Definition query {A} (f : database -> A) : M A :=
  fun w => (Ok (f (db w)), w).

(** [conn.commit()] *)
Definition commit : M unit :=
  fun w =>
    (Ok tt, {| server := server w; requested := requested w;
               slept := slept w; db := db w; committed := db w |}).

(** [conn.rollback()] *)
Definition rollback : M unit :=
  fun w =>
    (Ok tt, {| server := server w; requested := requested w;
               slept := slept w; db := committed w; committed := committed w |}).

(** [Response.raise_for_status] of the [requests] library. *)
Definition raise_for_status (r : response) : M unit :=
  if (400 <=? status_code r) && (status_code r <? 500) then
    raise (HTTPError (Py.str_of_int (status_code r) ++ " Client Error: "
                      ++ reason r ++ " for url: " ++ url r))
  else if (500 <=? status_code r) && (status_code r <? 600) then
    raise (HTTPError (Py.str_of_int (status_code r) ++ " Server Error: "
                      ++ reason r ++ " for url: " ++ url r))
  else ret tt.

(** ** CatalogClient *)

(** The pause after the [i]-th rate-limited attempt: [1.5 + i]. *)
Definition backoff (i : nat) : Q := (3 # 2) + inject_Z (Z.of_nat i).

(** The loop [for i in range(retry)] of [tmdb_get], at index [i] with
    [left] iterations to go; [too_long] is the message of the final
    [RuntimeError]. *)
Fixpoint tmdb_get_from (too_long : string) (q : request) (i left : nat) : M json :=
  match left with
  | O => raise (RuntimeError too_long)
  | S left' =>
      r <- http_get q ;;
      if status_code r =? 429 then
        sleep (backoff i) ;;
        tmdb_get_from too_long q (S i) left'
      else
        raise_for_status r ;;
        ret (body r)
  end.

(** [tmdb_get(path, params, retry=3)] of the matchers whose message is
    ["TMDb rate limit"] ([tmdb_match_seen_sc.py],
    [tmdb_match_watchlist_sc.py]). *)
Definition tmdb_get (q : request) : M json :=
  tmdb_get_from "TMDb rate limit" q 0 3.

(** [tmdb_get] of [tmdb_apply_seen_sc.py]: one request, no retry. *)
Definition tmdb_get_once (q : request) : M json :=
  r <- http_get q ;;
  raise_for_status r ;;
  ret (body r).

(** [tmdb_get] of [tmdb_match_br.py], [tmdb_match_nas.py] and
    [tmdb_apply_br.py]. *)
Definition tmdb_get_path (q : request) : M json :=
  tmdb_get_from ("TMDb rate-limited too long on " ++ path_of q) q 0 3.

(** ** SQL helpers *)

Definition with_imports (d : database) (l : list import_row) : database :=
  {| imports := l; sources := sources d; films := films d; genres := genres d;
     film_genres := film_genres d; film_sources := film_sources d;
     physical_copies := physical_copies d; user_films := user_films d;
     watch_events := watch_events d |}.

(** [UPDATE <staging table> SET ... WHERE <id> = iid] *)
Definition update_import (iid : Z) (f : import_row -> import_row) (d : database) : database :=
  with_imports d (map (fun r => if import_id r =? iid then f r else r) (imports d)).

(** [SET match_status = st, match_note = note] *)
Definition set_status_note (st : status) (note : string) (r : import_row) : import_row :=
  set_match st (tmdb_id r) (Some note) r.

(** [SET match_status = st, tmdb_id = tid, match_note = note] *)
Definition set_status_id_note (st : status) (tid : Z) (note : string) (r : import_row) : import_row :=
  set_match st (Some tid) (Some note) r.

(** Insertion of [x] in a list sorted by decreasing key: [x] goes before
    the elements whose key is not greater than its own. *)
Fixpoint insert_by {A} (key : A -> Z) (x : A) (l : list A) : list A :=
  match l with
  | [] => [x]
  | y :: r => if key x <? key y then y :: insert_by key x r else x :: y :: r
  end.

(** [l.sort(key=key, reverse=True)]: a stable sort by decreasing key. *)
Definition sort_desc {A} (key : A -> Z) (l : list A) : list A :=
  fold_right (insert_by key) [] l.

(** [ORDER BY <id>] on a staging table. *)
Definition order_by_id (l : list import_row) : list import_row :=
  sort_desc (fun r => - import_id r) l.

(** [SELECT ... WHERE p ORDER BY <id> LIMIT limit] *)
Definition select_imports (p : import_row -> bool) (limit : nat) (d : database) : list import_row :=
  firstn limit (order_by_id (filter p (imports d))).

(** ** Scorer *)

(** Truth value of an optional integer. *)
Definition int_truthy (y : option Z) : bool :=
  match y with Some n => negb (n =? 0) | None => false end.

(** [str(y)] of an optional integer. *)
Definition str_of_opt_int (y : option Z) : string :=
  match y with Some n => Py.str_of_int n | None => "None" end.

(** [str(s)] of an optional string, as an f-string prints it. *)
Definition str_of_opt (s : option string) : string :=
  match s with Some x => x | None => "None" end.

(** [score_candidate] of [tmdb_match_seen_sc.py]. *)
Definition score_candidate (title_q : string) (year_q : option Z) (director_q : string)
    (cand : candidate) : Z :=
  let s := 0 in
  let title := norm (c_title cand) in
  let orig := norm (c_original_title cand) in
  let s :=
    if (title =? title_q)%string || (orig =? title_q)%string then s + 5
    else if Py.str_in title_q title || Py.str_in title_q orig then s + 2
    else s in
  let s :=
    if int_truthy year_q then
      let rd := Py.or_empty (c_release_date cand) in
      if Py.startswith rd (str_of_opt_int year_q) then s + 3 else s
    else s in
  s.

(** [any(director_q in d or d in director_q for d in dirs)] *)
Definition director_overlap (director_q : string) (dirs : list string) : bool :=
  existsb (fun d => Py.str_in director_q d || Py.str_in d director_q) dirs.

(** The loop
    [for cand in cands: dirs = fetch(cand["id"]); if any(...): <pick cand>; break]
    shared by the matchers: the first candidate whose directors overlap the
    hint, fetching directors one candidate at a time. *)
Fixpoint first_director_match (fetch : Z -> M (list string)) (director_q : string)
    (cands : list candidate) : M (option candidate) :=
  match cands with
  | [] => ret None
  | cand :: rest =>
      dirs <- fetch (c_id cand) ;;
      if director_overlap director_q dirs then ret (Some cand)
      else first_director_match fetch director_q rest
  end.

Definition is_director (c : crew_member) : bool :=
  match cm_job c with Some j => (j =? "Director")%string | None => false end.

(** [[f(c) for c in l]] where [f] may raise. *)
Fixpoint map_m {A B} (f : A -> M B) (l : list A) : M (list B) :=
  match l with
  | [] => ret []
  | x :: r => y <- f x ;; ys <- map_m f r ;; ret (y :: ys)
  end.

(** [c["name"]] *)
Definition name_item (c : crew_member) : M string :=
  match cm_name c with
  | Some n => ret n
  | None => raise (KeyError "name")
  end.


(** ** The seen-list matcher ([tmdb_match_seen_sc.py]) *)

Module Seen.

Definition get_directors (tmdb_id : Z) : M (list string) :=
  credits <- tmdb_get (MovieCredits tmdb_id None) ;;
  map_m (fun c => n <- name_item c ;; ret (norm (Some n)))
        (filter is_director (get_crew credits)).

(** The [try] block of the loop of [main] for one row. *)
Definition match_body (pause : Q) (r : import_row) : M unit :=
  let iid := import_id r in
  let title_q := norm (raw_title r) in
  let year_q := raw_year r in
  let director_q := norm (raw_directors r) in
  (search <- tmdb_get (SearchMovie (raw_title r) None) ;;
   let results := get_results search in
   match results with
   | [] =>
       execute (update_import iid
         (set_status_note NOT_FOUND
            ("no result for '" ++ str_of_opt (raw_title r) ++ "'"))) ;;
       commit
   | _ :: _ =>
       let scored :=
         sort_desc fst
           (map (fun c => (score_candidate title_q year_q director_q c, c))
                (firstn 10 results)) in
       match scored with
       | [] => raise (IndexError "list index out of range")
       | (best_score, best) :: others =>
           let ambiguous :=
             match others with
             | (second_score, _) :: _ => second_score =? best_score
             | [] => false
             end in
           let note := "score=" ++ Py.str_of_int best_score in
           st <-
             (if ambiguous then
                picked <- first_director_match get_directors director_q
                            (map snd (firstn 3 scored)) ;;
                match picked with
                | Some cand => ret (cand, false, note ++ " | director_match")
                | None => ret (best, true, note)
                end
              else ret (best, false, note)) ;;
           let '(chosen, ambiguous, note) := st in
           (if ambiguous : bool then
              execute (update_import iid
                (set_status_id_note AMBIGUOUS (c_id chosen) note))
            else
              execute (update_import iid
                (set_status_id_note MATCHED (c_id chosen) note))) ;;
           commit ;;
           sleep pause
       end
   end).

(** The [except Exception as e] block: the transaction is rolled back and
    the row is left in ERROR with the truncated message. *)
Definition on_error (iid : Z) (e : exn) : M unit :=
  rollback ;;
  execute (update_import iid (set_status_note ERROR (Py.slice_to 900 (exn_str e)))) ;;
  commit.

(** The body of the loop of [main] for one row. *)
Definition match_row (pause : Q) (r : import_row) : M unit :=
  try_except (match_body pause r) (on_error (import_id r)).

Definition is_pending (r : import_row) : bool := status_eqb (match_status r) PENDING.

(** [main]: the rows selected, each matched in turn; leaving the [with conn]
    block commits. *)
Definition main (limit : nat) (pause : Q) : M unit :=
  rows <- query (select_imports is_pending limit) ;;
  for_each rows (match_row pause) ;;
  commit.

End Seen.

(** ** The physical-media matcher ([tmdb_match_br.py]) *)

Module Br.

(** [director_hint]: [raw_creators] if any, else first and last name. *)
Definition director_hint (row : import_row) : string :=
  if Py.truthy (Py.or_empty (raw_directors row)) then br_norm (raw_directors row)
  else
    let fn := Py.or_empty (raw_first_name row) in
    let ln := Py.or_empty (raw_last_name row) in
    let full := Py.strip (fn ++ " " ++ ln) in
    if Py.truthy full then br_norm (Some full) else "".

Definition score_candidate (q_title : string) (q_year : option Z) (q_dir : string)
    (cand : candidate) : Z :=
  let s := 0 in
  let title := br_norm (Some (Py.or_empty (c_title cand))) in
  let orig := br_norm (Some (Py.or_empty (c_original_title cand))) in
  let s :=
    if (title =? q_title)%string || (orig =? q_title)%string then s + 5
    else if Py.truthy q_title && (Py.str_in q_title title || Py.str_in q_title orig)
         then s + 2
    else s in
  let s :=
    if int_truthy q_year then
      let rd := Py.or_empty (c_release_date cand) in
      if Py.startswith rd (str_of_opt_int q_year) then s + 3 else s
    else s in
  s.

Definition get_directors_for_tmdb_id (tmdb_id : Z) : M (list string) :=
  credits <- tmdb_get_path (MovieCredits tmdb_id (Some "en-US")) ;;
  ret (map (fun c => br_norm (cm_name c)) (filter is_director (get_crew credits))).

(** The [try] block of the loop of [main] for one row. *)
Definition match_body (pause : Q) (it : import_row) : M unit :=
  let iid := import_id it in
  let title_clean := Py.strip (Py.or_empty (raw_title it)) in
  let year : option Z := None in
  let dir_hint := director_hint it in
  (search <- tmdb_get_path (SearchMovie (Some title_clean) None) ;;
   let results := get_results search in
   match results with
   | [] =>
       execute (update_import iid
         (set_status_note NOT_FOUND ("no result for '" ++ title_clean ++ "'"))) ;;
       commit ;;
       sleep pause
   | _ :: _ =>
       let q_title := br_norm (Some title_clean) in
       let scored :=
         sort_desc fst
           (map (fun r => (score_candidate q_title year dir_hint r, r))
                (firstn 10 results)) in
       match scored with
       | [] => raise (IndexError "list index out of range")
       | (best_score, best) :: _ =>
           let top := firstn 3 scored in
           let ambiguous :=
             match top with
             | (s0, _) :: (s1, _) :: _ => s0 =? s1
             | _ => false
             end in
           let note := "best_score=" ++ Py.str_of_int best_score in
           st <-
             (if ambiguous && Py.truthy dir_hint then
                picked <- first_director_match get_directors_for_tmdb_id dir_hint
                            (map snd top) ;;
                match picked with
                | Some cand => ret (cand, false, note ++ " | dir_match=" ++ dir_hint)
                | None => ret (best, ambiguous, note)
                end
              else ret (best, ambiguous, note)) ;;
           let '(chosen, ambiguous, note) := st in
           (if ambiguous : bool then
              execute (update_import iid
                (set_status_id_note AMBIGUOUS (c_id chosen) ("ambiguous | " ++ note)))
            else
              execute (update_import iid
                (set_status_id_note MATCHED (c_id chosen) ("single result | " ++ note)))) ;;
           commit ;;
           sleep pause
       end
   end).

(** The [except Exception as e] block: the transaction is rolled back and
    the row is left in ERROR with the truncated message. *)
Definition on_error (iid : Z) (e : exn) : M unit :=
  rollback ;;
  execute (update_import iid (set_status_note ERROR ("match: " ++ Py.slice_to 900 (exn_str e)))) ;;
  commit.

(** The body of the loop of [main] for one row. *)
Definition match_row (pause : Q) (it : import_row) : M unit :=
  try_except (match_body pause it) (on_error (import_id it)).

(** The [WHERE] clause of [main]. *)
Definition to_match (r : import_row) : bool :=
  (status_eqb (match_status r) NOT_FOUND || status_eqb (match_status r) ERROR)
  && match tmdb_id r with None => true | Some t => t =? 0 end
  && match raw_title r with None => false | Some t => Py.truthy t end.

Definition main (limit : nat) (pause : Q) : M unit :=
  items <- query (select_imports to_match limit) ;;
  for_each items (match_row pause) ;;
  commit.

End Br.

(** ** The watchlist matcher ([tmdb_match_watchlist_sc.py]) *)

Module Watchlist.

Definition get_directors (tmdb_id : Z) : M (list string) :=
  credits <- tmdb_get (MovieCredits tmdb_id None) ;;
  ret (map (fun c => norm (Some (Py.or_empty (cm_name c))))
           (filter is_director (get_crew credits))).

Definition do_search (q : option string) : M (list candidate) :=
  j <- tmdb_get (SearchMovie q None) ;;
  ret (get_results j).

(** The inline score of a candidate. *)
Definition score (title_q : string) (year_q : option Z) (cand : candidate) : Z :=
  let s := 0 in
  let t := norm (c_title cand) in
  let ot := norm (c_original_title cand) in
  let s :=
    if (t =? title_q)%string || (ot =? title_q)%string then s + 5
    else if Py.str_in title_q t || Py.str_in title_q ot then s + 2
    else s in
  let s :=
    if int_truthy year_q
       && Py.startswith (Py.or_empty (c_release_date cand)) (str_of_opt_int year_q)
    then s + 3 else s in
  s.

(** The loop that keeps the first candidate of strictly greatest score,
    from the state [(best, best_score)]. *)
Definition pick_best (title_q : string) (year_q : option Z) (cands : list candidate)
    : option candidate * Z :=
  fold_left
    (fun acc cand =>
       let s := score title_q year_q cand in
       if snd acc <? s then (Some cand, s) else acc)
    cands (None, -1).

(** A [str] whose truth value is asked: the empty one and [None] are falsy. *)
Definition opt_truthy (s : option string) : bool := Py.truthy (Py.or_empty s).

(** The [try] block of the loop of [main] for one row. *)
Definition match_body (pause : Q) (it : import_row) : M unit :=
  let iid := import_id it in
  let raw_title := raw_title it in
  let year_q := raw_year it in
  let director_q := norm (raw_directors it) in
  (results <- do_search raw_title ;;
   st <-
     (match results with
      | [] =>
          let q2 := simplify_title raw_title in
          if Py.truthy q2 && negb (match raw_title with
                                   | Some t => (q2 =? t)%string
                                   | None => false
                                   end)
          then results2 <- do_search (Some q2) ;; ret (results2, Some q2)
          else ret (results, raw_title)
      | _ :: _ => ret (results, raw_title)
      end) ;;
   let '(results, used_q) := st in
   match results with
   | [] =>
       execute (update_import iid
         (set_status_note NOT_FOUND ("no result | q=" ++ str_of_opt used_q))) ;;
       commit
   | _ :: _ =>
       let title_q := norm raw_title in
       let '(best, best_score) := pick_best title_q year_q (firstn 10 results) in
       match best with
       | None => raise (TypeError "'NoneType' object is not subscriptable")
       | Some best =>
           let chosen_id := c_id best in
           let note := "score=" ++ Py.str_of_int best_score
                       ++ " | q=" ++ str_of_opt used_q in
           let ambiguous := (1 <? Z.of_nat (length results)) in
           st <-
             (if ambiguous && Py.truthy director_q then
                picked <- first_director_match
                            (fun id => try_except (get_directors id) (fun _ => ret []))
                            director_q (firstn 5 results) ;;
                match picked with
                | Some cand =>
                    if negb (c_id cand =? 0)
                    then ret (c_id cand, false, note ++ " | director_match")
                    else ret (chosen_id, true, note ++ " | director_match")
                | None => ret (chosen_id, true, note)
                end
              else ret (chosen_id, ambiguous, note)) ;;
           let '(chosen_id, ambiguous, note) := st in
           execute (update_import iid
             (set_status_id_note (if ambiguous : bool then AMBIGUOUS else MATCHED)
                chosen_id note)) ;;
           commit ;;
           sleep pause
       end
   end).

(** The [except Exception as e] block: the transaction is rolled back and
    the row is left in ERROR with the truncated message. *)
Definition on_error (iid : Z) (e : exn) : M unit :=
  rollback ;;
  execute (update_import iid (set_status_note ERROR (Py.slice_to 900 (exn_str e)))) ;;
  commit.

(** The body of the loop of [main] for one row. *)
Definition match_row (pause : Q) (it : import_row) : M unit :=
  try_except (match_body pause it) (on_error (import_id it)).

Definition main (limit : nat) (pause : Q) : M unit :=
  items <- query (select_imports Seen.is_pending limit) ;;
  for_each items (match_row pause) ;;
  commit.

End Watchlist.

(** ** The NAS matcher ([tmdb_match_nas.py]) *)

Module Nas.

Definition tmdb_search_movie (title : option string) (year : option Z) : M (list candidate) :=
  data <- tmdb_get_path (SearchMovie title (if int_truthy year then year else None)) ;;
  ret (get_results data).

Definition tmdb_directors_for_movie (tmdb_id : Z) : M (list string) :=
  credits <- tmdb_get_path (MovieCredits tmdb_id (Some "fr-FR")) ;;
  let directors :=
    map (fun c => Py.or_empty (cm_name c)) (filter is_director (get_crew credits)) in
  ret (map (fun d => norm_name (Some d)) (filter Py.truthy directors)).

(** [repr] of a normalized name: it holds no double quote, no backslash
    and no control character, so only the choice of the quote is left. *)
Definition repr_name (s : string) : string :=
  let q := if Py.str_in "'" s then String "034" "" else "'" in
  q ++ s ++ q.

(** [str(l)] of a list of normalized names. *)
Definition repr_names (l : list string) : string :=
  "[" ++ Py.join ", " (map repr_name l) ++ "]".

(** The loop that scores every candidate by its directors. *)
Fixpoint score_by_director (pause : Q) (raw_dir : string) (candidates : list candidate)
    : M (list (Z * Z * list string)) :=
  match candidates with
  | [] => ret []
  | c :: rest =>
      let cid := c_id c in
      dirs <- tmdb_directors_for_movie cid ;;
      let score := if existsb (String.eqb raw_dir) dirs then 1 else 0 in
      sleep pause ;;
      others <- score_by_director pause raw_dir rest ;;
      ret ((score, cid, dirs) :: others)
  end.

(** The step [3) Sinon -> AMBIGUOUS]: the candidate ids go to the note and
    [tmdb_id] is left as it is. *)
Definition mark_ambiguous (iid : Z) (candidates : list candidate) : M unit :=
  let cand_ids := map (fun c => Py.str_of_int (c_id c)) candidates in
  execute (update_import iid
    (set_status_note AMBIGUOUS ("candidates=" ++ Py.join "," cand_ids))) ;;
  commit.

(** The [try] block of the loop of [main] for one row. *)
Definition match_body (pause : Q) (it : import_row) : M unit :=
  let iid := import_id it in
  let title := raw_title it in
  let year := raw_year it in
  let raw_dir := norm_name (Some (Py.or_empty (raw_directors it))) in
  (results <- tmdb_search_movie title year ;;
   match results with
   | [] =>
       execute (update_import iid (set_status_note NOT_FOUND "no result")) ;;
       commit
   | _ :: _ =>
       let candidates := firstn 5 results in
       match candidates with
       | [only] =>
           execute (update_import iid
             (set_status_id_note MATCHED (c_id only) "single result")) ;;
           commit ;;
           sleep pause
       | _ =>
           if Py.truthy raw_dir then
             scored <- score_by_director pause raw_dir candidates ;;
             match sort_desc (fun x => fst (fst x)) scored with
             | [] => raise (IndexError "list index out of range")
             | (best_score, best_id, best_dirs) :: _ =>
                 if best_score =? 1 then
                   execute (update_import iid
                     (set_status_id_note MATCHED best_id
                        ("director match: " ++ repr_names best_dirs))) ;;
                   commit
                 else mark_ambiguous iid candidates
             end
           else mark_ambiguous iid candidates
       end
   end).

(** The [except Exception as e] block: the transaction is rolled back and
    the row is left in ERROR with the truncated message. *)
Definition on_error (iid : Z) (e : exn) : M unit :=
  rollback ;;
  execute (update_import iid (set_status_note ERROR (Py.slice_to 1000 (exn_str e)))) ;;
  commit.

(** The body of the loop of [main] for one row. *)
Definition match_row (pause : Q) (it : import_row) : M unit :=
  try_except (match_body pause it) (on_error (import_id it)).

Definition main (limit : nat) (pause : Q) : M unit :=
  items <- query (select_imports Seen.is_pending limit) ;;
  for_each items (match_row pause) ;;
  commit.

End Nas.

(** ** Applier: shared pieces *)

Definition is_digit (c : ascii) : bool := Py.in_range 48 57 c.

Definition digit_value (c : ascii) : Z := Z.of_N (Py.ord c) - 48.

(** The digits of an [int] literal, single underscores allowed between
    digits.  [after_digit] tells that the previous character was a digit. *)
Fixpoint digits_value (acc : Z) (after_digit : bool) (s : string) : option Z :=
  match s with
  | EmptyString => if after_digit then Some acc else None
  | String c r =>
      if is_digit c then digits_value (10 * acc + digit_value c) true r
      else if (c =? "_")%char && after_digit then
        match r with
        | EmptyString => None
        | _ => digits_value acc false r
        end
      else None
  end.

(** The blanks that [int] skips around a literal, on U+0000..U+00FF:
    TAB..CR, space, NEL and NBSP, but not FS..US, which [str.strip]
    removes. *)
Definition int_space (c : ascii) : bool :=
  Py.in_range 9 13 c || (Py.ord c =? 32)%N || (Py.ord c =? 133)%N
  || (Py.ord c =? 160)%N.

Fixpoint int_lstrip (s : string) : string :=
  match s with
  | EmptyString => EmptyString
  | String c r => if int_space c then int_lstrip r else s
  end.

Fixpoint int_rstrip (s : string) : string :=
  match s with
  | EmptyString => EmptyString
  | String c r =>
      match int_rstrip r with
      | EmptyString => if int_space c then EmptyString else String c EmptyString
      | r' => String c r'
      end
  end.

(** [int(s)] for a string: surrounding blanks, an optional sign, then
    digits; the text of the error is the interpreter's. *)
Definition int_of_str (s : string) : M Z :=
  let t := int_rstrip (int_lstrip s) in
  let parsed :=
    match t with
    | String "+" r => digits_value 0 false r
    | String "-" r => option_map Z.opp (digits_value 0 false r)
    | _ => digits_value 0 false t
    end in
  match parsed with
  | Some n => ret n
  | None => raise (ValueError ("invalid literal for int() with base 10: " ++ Py.repr s))
  end.

(** [int(release_date[:4]) if release_date else None] *)
Definition year_of (release_date : option string) : M (option Z) :=
  match release_date with
  | Some rd =>
      if Py.truthy rd then y <- int_of_str (Py.slice_to 4 rd) ;; ret (Some y)
      else ret None
  | None => ret None
  end.

(** A surrogate key ([film_id], [source_id], [genre_id]) is drawn by the
    database on insertion; the model draws the least positive integer above
    the keys in use.  A sequence of the database does not give back a key
    drawn in a transaction that is rolled back, where the model draws it
    again. *)
Definition next_id (used : list Z) : Z := 1 + fold_right Z.max 0 used.

Definition with_sources (d : database) (l : list source_row) : database :=
  {| imports := imports d; sources := l; films := films d; genres := genres d;
     film_genres := film_genres d; film_sources := film_sources d;
     physical_copies := physical_copies d; user_films := user_films d;
     watch_events := watch_events d |}.

Definition with_films (d : database) (l : list film_row) : database :=
  {| imports := imports d; sources := sources d; films := l; genres := genres d;
     film_genres := film_genres d; film_sources := film_sources d;
     physical_copies := physical_copies d; user_films := user_films d;
     watch_events := watch_events d |}.

Definition with_genres (d : database) (l : list genre_row) : database :=
  {| imports := imports d; sources := sources d; films := films d; genres := l;
     film_genres := film_genres d; film_sources := film_sources d;
     physical_copies := physical_copies d; user_films := user_films d;
     watch_events := watch_events d |}.

Definition with_film_genres (d : database) (l : list (Z * Z)) : database :=
  {| imports := imports d; sources := sources d; films := films d; genres := genres d;
     film_genres := l; film_sources := film_sources d;
     physical_copies := physical_copies d; user_films := user_films d;
     watch_events := watch_events d |}.

Definition with_film_sources (d : database) (l : list film_source_row) : database :=
  {| imports := imports d; sources := sources d; films := films d; genres := genres d;
     film_genres := film_genres d; film_sources := l;
     physical_copies := physical_copies d; user_films := user_films d;
     watch_events := watch_events d |}.

Definition with_physical_copies (d : database) (l : list physical_copy_row) : database :=
  {| imports := imports d; sources := sources d; films := films d; genres := genres d;
     film_genres := film_genres d; film_sources := film_sources d;
     physical_copies := l; user_films := user_films d;
     watch_events := watch_events d |}.

Definition with_user_films (d : database) (l : list user_film_row) : database :=
  {| imports := imports d; sources := sources d; films := films d; genres := genres d;
     film_genres := film_genres d; film_sources := film_sources d;
     physical_copies := physical_copies d; user_films := l;
     watch_events := watch_events d |}.

Definition with_watch_events (d : database) (l : list watch_event_row) : database :=
  {| imports := imports d; sources := sources d; films := films d; genres := genres d;
     film_genres := film_genres d; film_sources := film_sources d;
     physical_copies := physical_copies d; user_films := user_films d;
     watch_events := l |}.

(** [INSERT ... ON CONFLICT (key) DO UPDATE SET ... RETURNING id] on a table
    [rows]: when a row conflicts ([same]), every conflicting row is rewritten
    by [merge] and the id of the row found is returned; otherwise [fresh] is
    appended with its new id. *)
Definition upsert {R} (same : R -> bool) (merge : R -> R) (ident : R -> Z)
    (fresh : Z -> R) (rows : list R) : list R * Z :=
  match find same rows with
  | Some old => (map (fun r => if same r then merge r else r) rows, ident old)
  | None =>
      let new_id := next_id (map ident rows) in
      ((rows ++ [fresh new_id])%list, new_id)
  end.

(** [INSERT ... ON CONFLICT DO NOTHING] *)
Definition insert_or_nothing {R} (same : R -> bool) (fresh : R) (rows : list R) : list R :=
  if existsb same rows then rows else (rows ++ [fresh])%list.

(** [ensure_source] *)
Definition ensure_source (code_ label_ : string) : M Z :=
  d <- query (fun d => d) ;;
  let '(rows, sid) :=
    upsert (fun s => (code s =? code_)%string)
           (fun s => {| source_id := source_id s; code := code s; label := label_ |})
           source_id
           (fun i => {| source_id := i; code := code_; label := label_ |})
           (sources d) in
  execute (fun d => with_sources d rows) ;;
  ret sid.

(** [d["id"]] on the details document. *)
Definition details_item (j : json) : M movie :=
  match j with
  | JMovie d => ret d
  | _ => raise (KeyError "id")
  end.

(** [upsert_film] of [tmdb_apply_br.py]: every column is overwritten. *)
Definition upsert_film (j : json) : M Z :=
  d <- details_item j ;;
  let release_date :=
    match m_release_date d with
    | Some rd => if Py.truthy rd then Some rd else None
    | None => None
    end in
  year <- year_of release_date ;;
  let row (i : Z) :=
    {| film_id := i; f_tmdb_id := m_id d; f_imdb_id := m_imdb_id d;
       f_title := m_title d; f_original_title := m_original_title d;
       f_release_date := release_date; f_year := year;
       f_runtime_min := m_runtime d; f_overview := m_overview d;
       f_original_language := m_original_language d;
       f_poster_path := m_poster_path d; f_backdrop_path := m_backdrop_path d;
       f_tmdb_popularity := m_popularity d; f_tmdb_vote_avg := m_vote_average d;
       f_tmdb_vote_count := m_vote_count d |} in
  db0 <- query (fun d => d) ;;
  let '(rows, fid) :=
    upsert (fun f => f_tmdb_id f =? m_id d) (fun f => row (film_id f)) film_id row
           (films db0) in
  execute (fun d => with_films d rows) ;;
  ret fid.

(** [g["id"]], [g["name"]] *)
Definition genre_items (g : genre_json) : M (Z * string) :=
  match g_id g with
  | None => raise (KeyError "id")
  | Some i =>
      match g_name g with
      | None => raise (KeyError "name")
      | Some n => ret (i, n)
      end
  end.

(** [upsert_genres] *)
Fixpoint upsert_genres (film : Z) (gs : list genre_json) : M unit :=
  match gs with
  | [] => ret tt
  | g :: rest =>
      kv <- genre_items g ;;
      let '(gid, gname) := kv in
      db0 <- query (fun d => d) ;;
      let '(rows, genre) :=
        upsert (fun r => tmdb_genre_id r =? gid)
               (fun r => {| genre_id := genre_id r; tmdb_genre_id := tmdb_genre_id r;
                            genre_name := gname |})
               genre_id
               (fun i => {| genre_id := i; tmdb_genre_id := gid; genre_name := gname |})
               (genres db0) in
      execute (fun d => with_genres d rows) ;;
      execute (fun d => with_film_genres d
        (insert_or_nothing (fun p => (fst p =? film) && (snd p =? genre))
                           (film, genre) (film_genres d))) ;;
      upsert_genres film rest
  end.

(** [match_note IS NULL OR match_note NOT LIKE '%applied%'] *)
Definition not_applied (r : import_row) : bool :=
  match match_note r with
  | None => true
  | Some n => negb (Py.str_in "applied" n)
  end.

(** The [WHERE] clause of the appliers. *)
Definition to_apply (r : import_row) : bool :=
  status_eqb (match_status r) MATCHED
  && match tmdb_id r with Some _ => true | None => false end
  && not_applied r.

(** [COALESCE(match_note,'') || ' | applied'] *)
Definition applied_note (r : import_row) : option string :=
  Some (Py.or_empty (match_note r) ++ " | applied").

(** [details.get("genres", [])] *)
Definition get_genres (j : json) : list genre_json :=
  match j with
  | JMovie d => match m_genres d with Some l => l | None => [] end
  | _ => []
  end.

(** [str.upper] on one character.  The three Latin-1 letters whose capital
    lies outside the alphabet (sharp s, micro sign, y with diaeresis) are
    left as they are; none of them occurs in a format code. *)
Definition upper_char (c : ascii) : ascii :=
  if Py.in_range 97 122 c || (Py.in_range 224 254 c && negb (Py.ord c =? 247)%N)
  then ascii_of_N (Py.ord c - 32)
  else c.

Fixpoint upper (s : string) : string :=
  match s with
  | EmptyString => EmptyString
  | String c r => String (upper_char c) (upper r)
  end.

(** ** The physical-media applier ([tmdb_apply_br.py]) *)

Module BrApply.

(** [choose_primary_format]: 4K before BR before DVD, mapped to the enum. *)
Definition choose_primary_format (formats : list string) : option string :=
  match formats with
  | [] => None
  | _ :: _ =>
      let s := map upper formats in
      if existsb (String.eqb "4K") s then Some "UHD"
      else if existsb (String.eqb "BR") s then Some "BLURAY"
      else if existsb (String.eqb "DVD") s then Some "DVD"
      else None
  end.

(** The statement that links the film to the source:
    [INSERT INTO film_source ... ON CONFLICT (film_id, source_id) DO NOTHING]. *)
Definition link_source (film source : Z) (d : database) : database :=
  with_film_sources d
    (insert_or_nothing
       (fun r => (fs_film_id r =? film) && (fs_source_id r =? source))
       {| fs_film_id := film; fs_source_id := source; is_available := true |}
       (film_sources d)).

(** The upsert of [physical_copy], one row per film. *)
Definition upsert_physical_copy (film : Z) (primary : option string)
    (formats : list string) (it : import_row) (d : database) : database :=
  let row :=
    {| pc_film_id := film; pc_format := primary; pc_formats := formats;
       pc_copies := match copies it with Some n => n | None => 1 end;
       pc_ean_isbn13 := ean_isbn13 it;
       pc_number_of_discs := number_of_discs it;
       pc_notes := notes it |} in
  with_physical_copies d
    (fst (upsert (fun r => pc_film_id r =? film) (fun _ => row) pc_film_id
                 (fun _ => row) (physical_copies d))).

(** [SET match_status='APPLIED', match_note = COALESCE(match_note,'') || ' | applied'] *)
Definition mark_applied (r : import_row) : import_row :=
  set_match APPLIED (tmdb_id r) (applied_note r) r.

(** The [try] block of the loop of [main] for one row. *)
Definition apply_body (pause : Q) (br_source_id : Z) (it : import_row) : M unit :=
  let iid := import_id it in
  let tmdb_id := tmdb_id it in
  (details <- tmdb_get_path (MovieDetails tmdb_id) ;;
   film_id <- upsert_film details ;;
   upsert_genres film_id (get_genres details) ;;
   execute (link_source film_id br_source_id) ;;
   let formats := match formats it with Some l => l | None => [] end in
   let primary := choose_primary_format formats in
   execute (upsert_physical_copy film_id primary formats it) ;;
   execute (update_import iid mark_applied) ;;
   commit ;;
   sleep pause).

(** The [except Exception as e] block: the transaction is rolled back and
    the row is left in ERROR with the truncated message. *)
Definition on_error (iid : Z) (e : exn) : M unit :=
  rollback ;;
  execute (update_import iid (set_status_note ERROR ("apply: " ++ Py.slice_to 900 (exn_str e)))) ;;
  commit.

(** The body of the loop of [main] for one row. *)
Definition apply_row (pause : Q) (br_source_id : Z) (it : import_row) : M unit :=
  try_except (apply_body pause br_source_id it) (on_error (import_id it)).

Definition main (limit : nat) (pause : Q) : M unit :=
  br_source_id <- ensure_source "BR" "Blu-ray / Physique" ;;
  items <- query (select_imports to_apply limit) ;;
  for_each items (apply_row pause br_source_id) ;;
  commit.

End BrApply.

(** ** The seen-list applier ([tmdb_apply_seen_sc.py]) *)

Module SeenApply.

Definition USER_ID : Z := 1.

(** [normalize_date]: no date, or the epoch placeholder, is [None]. *)
Definition normalize_date (d : option string) : option string :=
  match d with
  | Some s => if negb (Py.truthy s) || (s =? "1970-01-01")%string then None else Some s
  | None => None
  end.

(** The film upsert of this script: seven columns are written, the others
    are left null on insertion and untouched on conflict.  The release
    date is passed as the document has it, the empty string included, where
    [upsert_film] of the physical-media applier passes NULL for it; the
    statement is taken to store what it is passed, which a column of type
    [date] does for a date only. *)
Definition upsert_film (j : json) : M Z :=
  d <- details_item j ;;
  year <- year_of (m_release_date d) ;;
  let fresh (i : Z) :=
    {| film_id := i; f_tmdb_id := m_id d; f_imdb_id := None;
       f_title := m_title d; f_original_title := m_original_title d;
       f_release_date := m_release_date d; f_year := year;
       f_runtime_min := m_runtime d; f_overview := m_overview d;
       f_original_language := None; f_poster_path := None; f_backdrop_path := None;
       f_tmdb_popularity := None; f_tmdb_vote_avg := None;
       f_tmdb_vote_count := None |} in
  let merge (f : film_row) :=
    {| film_id := film_id f; f_tmdb_id := f_tmdb_id f; f_imdb_id := f_imdb_id f;
       f_title := m_title d; f_original_title := m_original_title d;
       f_release_date := m_release_date d; f_year := year;
       f_runtime_min := m_runtime d; f_overview := m_overview d;
       f_original_language := f_original_language f;
       f_poster_path := f_poster_path f; f_backdrop_path := f_backdrop_path f;
       f_tmdb_popularity := f_tmdb_popularity f;
       f_tmdb_vote_avg := f_tmdb_vote_avg f;
       f_tmdb_vote_count := f_tmdb_vote_count f |} in
  db0 <- query (fun d => d) ;;
  let '(rows, fid) :=
    upsert (fun f => f_tmdb_id f =? m_id d) merge film_id fresh (films db0) in
  execute (fun d => with_films d rows) ;;
  ret fid.

(** The upsert of [user_film] keyed by [(user_id, film_id)]. *)
Definition upsert_user_film (film : Z) (rating : option Z) (watched : option string)
    (d : database) : database :=
  with_user_films d
    (fst (upsert
       (fun r => (uf_user_id r =? USER_ID) && (uf_film_id r =? film))
       (fun r => {| uf_user_id := uf_user_id r; uf_film_id := uf_film_id r;
                    uf_status := "SEEN"; uf_rating_10 := rating;
                    uf_first_seen_at := uf_first_seen_at r;
                    uf_last_seen_at := watched;
                    uf_rewatch_count := uf_rewatch_count r |})
       uf_film_id
       (fun _ => {| uf_user_id := USER_ID; uf_film_id := film;
                    uf_status := "SEEN"; uf_rating_10 := rating;
                    uf_first_seen_at := watched; uf_last_seen_at := watched;
                    uf_rewatch_count := 0 |})
       (user_films d))).

(** The plain [INSERT INTO watch_event]. *)
Definition insert_watch_event (film : Z) (watched : string) (rating : option Z)
    (d : database) : database :=
  with_watch_events d
    (watch_events d ++
     [{| we_user_id := USER_ID; we_film_id := film;
         we_watched_at := watched ++ " 00:00:00"; we_rating_10 := rating;
         we_context := "senscritique_import" |}])%list.

(** [SET match_note = COALESCE(match_note,'') || ' | applied']: the status
    is not written. *)
Definition mark_applied (r : import_row) : import_row :=
  set_match (match_status r) (tmdb_id r) (applied_note r) r.

(** The [try] block of the loop of [main] for one row. *)
Definition apply_body (pause : Q) (r : import_row) : M unit :=
  (details <- tmdb_get_once (MovieDetails (tmdb_id r)) ;;
   film_id <- upsert_film details ;;
   let watched := normalize_date (watched_date r) in
   execute (upsert_user_film film_id (rating_10 r) watched) ;;
   match watched with
   | Some w => execute (insert_watch_event film_id w (rating_10 r))
   | None => ret tt
   end ;;
   execute (update_import (import_id r) mark_applied) ;;
   commit ;;
   sleep pause).

(** The [except Exception as e] block: the transaction is rolled back and
    the row is left in ERROR with the truncated message. *)
Definition on_error (iid : Z) (e : exn) : M unit :=
  rollback ;;
  execute (update_import iid (set_status_note ERROR (Py.slice_to 900 (exn_str e)))) ;;
  commit.

(** The body of the loop of [main] for one row. *)
Definition apply_row (pause : Q) (r : import_row) : M unit :=
  try_except (apply_body pause r) (on_error (import_id r)).

Definition main (limit : nat) (pause : Q) : M unit :=
  rows <- query (select_imports to_apply limit) ;;
  for_each rows (apply_row pause) ;;
  commit.

End SeenApply.

(** ** Auxiliary predicates *)

(** A string is [spaced] when its only white characters are single spaces,
    never two in a row; [prev] tells that a space precedes. *)
Fixpoint spaced (prev : bool) (s : string) : bool :=
  match s with
  | EmptyString => true
  | String c r =>
      if Py.isspace c then (c =? " ")%char && negb prev && spaced true r
      else spaced false r
  end.

(** [starts_clean s]: [s] does not begin with a white character. *)
Definition starts_clean (s : string) : bool :=
  match s with
  | EmptyString => true
  | String c _ => negb (Py.isspace c)
  end.

(** ** The scoring rule as the specification words it

    Exact normalized match with the localized or the original title: 5;
    else substring containment: 2; release date whose first four characters
    are the query year: 3; the points add up.  With [both_ways] the
    containment is looked for in either direction (query in title, title in
    query); without it, only the query is looked for in the titles. *)
Definition spec_score (both_ways : bool) (title_q : string) (year_q : Z)
    (cand : candidate) : Z :=
  let title := norm (c_title cand) in
  let orig := norm (c_original_title cand) in
  let exact := (title =? title_q)%string || (orig =? title_q)%string in
  let contained :=
    Py.str_in title_q title || Py.str_in title_q orig
    || (both_ways && (Py.str_in title title_q || Py.str_in orig title_q)) in
  (if exact then 5 else if contained then 2 else 0)
  + (if (Py.slice_to 4 (Py.or_empty (c_release_date cand))
         =? Py.str_of_int year_q)%string
     then 3 else 0).

(** The same rule on the titles as the physical-media matcher normalizes
    them. *)
Definition br_spec_score (both_ways : bool) (q_title : string) (q_year : Z)
    (cand : candidate) : Z :=
  let title := br_norm (Some (Py.or_empty (c_title cand))) in
  let orig := br_norm (Some (Py.or_empty (c_original_title cand))) in
  let exact := (title =? q_title)%string || (orig =? q_title)%string in
  let contained :=
    Py.str_in q_title title || Py.str_in q_title orig
    || (both_ways && (Py.str_in title q_title || Py.str_in orig q_title)) in
  (if exact then 5 else if contained then 2 else 0)
  + (if (Py.slice_to 4 (Py.or_empty (c_release_date cand))
         =? Py.str_of_int q_year)%string
     then 3 else 0).

(** ** Sample data *)

Module Sample.

Definition cand (i : Z) (title : string) (date : string) : candidate :=
  {| c_id := i; c_title := Some title; c_original_title := Some title;
     c_release_date := Some date |}.

Definition heat : candidate := cand 949 "Heat" "1995-12-15".

Definition answer (code : Z) (why : string) (j : json) : reply :=
  Answer {| status_code := code; reason := why;
            url := "https://api.themoviedb.org/3"; body := j |}.

Definition ok (j : json) : reply := answer 200 "OK" j.

Definition too_many : reply := answer 429 "Too Many Requests" JObject.

Definition director (name : string) : crew_member :=
  {| cm_name := Some name; cm_job := Some "Director" |}.

Definition empty_db : database :=
  {| imports := []; sources := []; films := []; genres := [];
     film_genres := []; film_sources := []; physical_copies := [];
     user_films := []; watch_events := [] |}.

(** A staging row as the importers create it. *)
Definition row (i : Z) (title : string) (year : option Z) (dir : option string)
    : import_row :=
  {| import_id := i; raw_title := Some title; raw_year := year;
     raw_directors := dir; raw_first_name := None; raw_last_name := None;
     tmdb_id := None; match_status := PENDING; match_note := None;
     formats := None; copies := None; ean_isbn13 := None;
     number_of_discs := None; notes := None; raw_file_path := None;
     watched_date := None; rating_10 := None |}.

(** The same row in another state. *)
Definition row_in (st : status) (tid : option Z) (note : option string)
    (r : import_row) : import_row := set_match st tid note r.

(** A world whose staging table holds [rows], nothing pending. *)
Definition world_of (srv : nat -> request -> reply) (rows : list import_row) : world :=
  {| server := srv; requested := []; slept := [];
     db := with_imports empty_db rows; committed := with_imports empty_db rows |}.

(** A catalog that answers every search with [results] and every credits
    request with the crew [crew_of id]. *)
Definition catalog (results : list candidate) (crew_of : Z -> list crew_member)
    (n : nat) (q : request) : reply :=
  match q with
  | SearchMovie _ _ => ok (JSearch results)
  | MovieCredits id _ => ok (JCredits (crew_of id))
  | MovieDetails _ => ok JObject
  end.

(** A catalog that is rate-limited for its first [k] requests. *)
Definition limited (k : nat) (then_ : nat -> request -> reply) (n : nat) (q : request)
    : reply :=
  if (n <? k)%nat then too_many else then_ n q.

Definition no_crew (id : Z) : list crew_member := [].

End Sample.

(** The state of the staging row [iid] in a database. *)
Definition row_state (iid : Z) (d : database) : option (status * option Z * option string) :=
  option_map (fun r => (match_status r, tmdb_id r, match_note r))
    (find (fun r => import_id r =? iid) (imports d)).

(** A reply that carries status 429. *)
Definition rate_limited (r : reply) : bool :=
  match r with
  | Answer resp => status_code resp =? 429
  | Failure _ => false
  end.

(** The world [w] after the requests [reqs] and the pauses [pauses] (both
    latest first) and nothing else. *)
Definition after (reqs : list request) (pauses : list Q) (w : world) : world :=
  {| server := server w; requested := (reqs ++ requested w)%list;
     slept := (pauses ++ slept w)%list; db := db w; committed := committed w |}.

(** The world [w] once the transaction in progress is abandoned and [f] is
    written and committed instead. *)
Definition settled (f : database -> database) (w : world) : world :=
  {| server := server w; requested := requested w; slept := slept w;
     db := f (committed w); committed := f (committed w) |}.

Module SampleRetry.

(** The search for Heat, and a world whose catalog is rate-limited for its
    first [k] requests and then answers it. *)
Definition search_heat : request := SearchMovie (Some "Heat") None.

(** A row of [import_br] left in ERROR by an earlier run. *)
Definition heat_row : import_row :=
  Sample.row_in ERROR None (Some "match: timeout") (Sample.row 1 "Heat" None None).

Definition limited_world (k : nat) : world :=
  Sample.world_of
    (Sample.limited k (Sample.catalog [Sample.heat] Sample.no_crew))
    [heat_row].

End SampleRetry.

(** The catalog of [w] answers the request [q], issued as the [m]-th one,
    with status 200 and the document [j]. *)
Definition answers_200 (w : world) (m : nat) (q : request) (j : json) : Prop :=
  exists r, server w m q = Answer r /\ status_code r = 200 /\ body r = j.

(** The elements of [l] up to the first that satisfies [p], included. *)
Fixpoint upto_first {A} (p : A -> bool) (l : list A) : list A :=
  match l with
  | [] => []
  | x :: r => if p x then [x] else x :: upto_first p r
  end.


(** The director names of a crew, as the seen-list and watchlist matchers
    normalize them. *)
Definition directors_of (crew : list crew_member) : list string :=
  map (fun c => norm (Some (Py.or_empty (cm_name c)))) (filter is_director crew).


Module SampleEmptyHint.

(** Two films called Heat released in 1995; only the second has a credited
    director. *)
Definition results : list candidate :=
  [Sample.cand 1 "Heat" "1995-12-15"; Sample.cand 2 "Heat" "1995-01-01"].

Definition crew_of (id : Z) : list crew_member :=
  if id =? 2 then [Sample.director "Michael Mann"] else [].

(** A pending row without director hint. *)
Definition heat_row : import_row := Sample.row 7 "Heat" (Some 1995) None.

Definition heat_world : world :=
  Sample.world_of (Sample.catalog results crew_of) [heat_row].



End SampleEmptyHint.





Module SampleTie.

(** Five films called Heat, all directed by Michael Mann, and a watchlist
    row whose director hint names somebody else. *)
Definition results : list candidate :=
  [Sample.cand 1 "Heat" "1995-12-15"; Sample.cand 2 "Heat" "1995-12-15";
   Sample.cand 3 "Heat" "1995-12-15"; Sample.cand 4 "Heat" "1995-12-15";
   Sample.cand 5 "Heat" "1995-12-15"].

Definition crew_of (id : Z) : list crew_member := [Sample.director "Michael Mann"].

Definition heat_row : import_row :=
  Sample.row 3 "Heat" (Some 1995) (Some "Ridley Scott").

Definition heat_world : world :=
  Sample.world_of (Sample.catalog results crew_of) [heat_row].




End SampleTie.

Module SampleAmbiguous.

(** Two films with the same title and date, and a row of [import_br]
    without creator, first name or last name. *)
Definition results : list candidate :=
  [Sample.cand 101 "Heat" "1995-12-15"; Sample.cand 202 "Heat" "1995-12-15"].

Definition heat_row : import_row :=
  Sample.row_in NOT_FOUND None (Some "no result for 'Heat (1995)'")
    (Sample.row 5 "Heat" None None).

Definition heat_world : world :=
  Sample.world_of (Sample.catalog results Sample.no_crew) [heat_row].

(** Two results of different scores for a watchlist row without hint. *)
Definition mixed : list candidate :=
  [Sample.cand 101 "Heat" "1995-12-15"; Sample.cand 303 "Heat 2" "2030-01-01"].

Definition pending_row : import_row := Sample.row 5 "Heat" (Some 1995) None.

Definition mixed_world : world :=
  Sample.world_of (Sample.catalog mixed Sample.no_crew) [pending_row].

End SampleAmbiguous.


Module SampleFallback.

(** A catalog that knows Heat under the query [heat] only. *)
Definition catalog (n : nat) (q : request) : reply :=
  match q with
  | SearchMovie (Some "heat") _ => Sample.ok (JSearch [Sample.heat])
  | SearchMovie _ _ => Sample.ok (JSearch [])
  | MovieCredits _ _ => Sample.ok (JCredits [])
  | MovieDetails _ => Sample.ok JObject
  end.






End SampleFallback.

(** ** Transactions, record by record *)

(** [m] neither commits nor writes to the staging table. *)
Definition keeps {A} (m : M A) : Prop :=
  forall w, imports (db (snd (m w))) = imports (db w)
            /\ committed (snd (m w)) = committed w.

(** The writes the scripts make to a staging row: status and note (the
    external id kept), status, external id and note, or, for an applier
    ([applying]), the marking of the physical-media applier or that of the
    seen-list applier. *)
Inductive row_update (applying : bool) : (import_row -> import_row) -> Prop :=
| update_note (st : status) (note : string) :
    st <> MATCHED -> st <> APPLIED -> row_update applying (set_status_note st note)
| update_id (st : status) (tid : Z) (note : string) :
    st <> APPLIED -> row_update applying (set_status_id_note st tid note)
| update_applied :
    applying = true -> row_update applying BrApply.mark_applied
| update_marker :
    applying = true -> row_update applying SeenApply.mark_applied.

(** [m] is the treatment of the record [iid] in one transaction: when it
    returns, its writes are committed and the staging table differs from
    the one it started with by one [row_update] of the rows [iid]; when it
    raises, nothing has been committed. *)
Definition atomic (applying : bool) (iid : Z) (m : M unit) : Prop :=
  forall w,
    match m w with
    | (Ok _, w') =>
        committed w' = db w'
        /\ exists f, row_update applying f
                     /\ imports (db w') = imports (update_import iid f (db w))
    | (Raise _, w') => committed w' = committed w
    end.

(** The rows of the staging table that belong to other records than [iid]. *)
Definition other_rows (iid : Z) (d : database) : list import_row :=
  filter (fun r => negb (import_id r =? iid)) (imports d).

(** The invariant on the external id that the operations keep: a MATCHED or
    APPLIED row carries an external id. *)
Definition id_when_matched (r : import_row) : Prop :=
  (match_status r = MATCHED \/ match_status r = APPLIED) -> tmdb_id r <> None.

(** The invariant as the specification states it: the external id is set
    if and only if the status is MATCHED, AMBIGUOUS or APPLIED. *)
Definition id_iff_resolved (r : import_row) : Prop :=
  tmdb_id r <> None
  <-> (match_status r = MATCHED \/ match_status r = AMBIGUOUS
       \/ match_status r = APPLIED).


Module SampleApply.

(** The details of Heat, with a genre entry that lacks its id. *)
Definition heat_details (gs : list genre_json) : movie :=
  {| m_id := 949; m_imdb_id := Some "tt0113277"; m_title := Some "Heat";
     m_original_title := Some "Heat"; m_release_date := Some "1995-12-15";
     m_runtime := Some 170; m_overview := Some "Obsessive master thief";
     m_original_language := Some "en"; m_poster_path := None;
     m_backdrop_path := None; m_popularity := Some (7 # 2);
     m_vote_average := Some (79 # 10); m_vote_count := Some 7000;
     m_genres := Some gs |}.

Definition crime : genre_json := {| g_id := Some 80; g_name := Some "Crime" |}.


Definition catalog (gs : list genre_json) (n : nat) (q : request) : reply :=
  match q with
  | MovieDetails _ => Sample.ok (JMovie (heat_details gs))
  | SearchMovie _ _ => Sample.ok (JSearch [Sample.heat])
  | MovieCredits _ _ => Sample.ok (JCredits [])
  end.

(** A matched row of [import_br], and a second record next to it. *)
Definition matched_row : import_row :=
  Sample.row_in MATCHED (Some 949) (Some "single result | best_score=5")
    (Sample.row 1 "Heat" None None).

Definition other_row : import_row :=
  Sample.row_in MATCHED (Some 11) (Some "single result | best_score=5")
    (Sample.row 2 "Star Wars" None None).

Definition world_with (gs : list genre_json) : world :=
  Sample.world_of (catalog gs) [matched_row; other_row].

End SampleApply.

(** The world [w] on another run, facing the catalog [srv]: the session
    starts from the committed state. *)
Definition next_run (srv : nat -> request -> reply) (w : world) : world :=
  {| server := srv; requested := []; slept := [];
     db := committed w; committed := committed w |}.

(** The number of rows of a table that satisfy [p]. *)
Definition count {R} (p : R -> bool) (rows : list R) : nat := length (filter p rows).





(** The release date of a details document is absent, empty, or starts
    with a year that [int] reads. *)
Definition release_ok (d : movie) : Prop :=
  match m_release_date d with
  | Some rd =>
      Py.truthy rd = true ->
      exists y, forall w, int_of_str (Py.slice_to 4 rd) w = (Ok y, w)
  | None => True
  end.

(** A leap year of the Gregorian calendar. *)
Definition is_leap (y : Z) : bool :=
  ((y mod 4 =? 0) && negb (y mod 100 =? 0)) || (y mod 400 =? 0).

Definition days_in_month (y m : Z) : Z :=
  if m =? 2 then (if is_leap y then 29 else 28)
  else if (m =? 4) || (m =? 6) || (m =? 9) || (m =? 11) then 30
  else 31.

(** [s] reads [YYYY-MM-DD] and names a day of the calendar, from year 1
    on: the text of a date as the catalog writes it. *)
Definition is_date (s : string) : bool :=
  match s with
  | String y1 (String y2 (String y3 (String y4 (String s1 (String m1 (String m2
      (String s2 (String d1 (String d2 EmptyString))))))))) =>
      forallb is_digit [y1; y2; y3; y4; m1; m2; d1; d2]
      && (s1 =? "-")%char && (s2 =? "-")%char
      && (let y := 1000 * digit_value y1 + 100 * digit_value y2
                   + 10 * digit_value y3 + digit_value y4 in
          let m := 10 * digit_value m1 + digit_value m2 in
          let d := 10 * digit_value d1 + digit_value d2 in
          (1 <=? y) && (1 <=? m) && (m <=? 12) && (1 <=? d)
          && (d <=? days_in_month y m))
  | _ => false
  end.

(** The release date of a details document is absent or is such a date. *)
Definition release_dated (d : movie) : Prop :=
  match m_release_date d with
  | Some rd => is_date rd = true
  | None => True
  end.

Module SampleRuns.

(** A catalog whose details endpoint is down. *)
Definition down (n : nat) (q : request) : reply :=
  match q with
  | MovieDetails _ => Sample.answer 404 "Not Found" JObject
  | SearchMovie _ _ => Sample.ok (JSearch [Sample.heat])
  | MovieCredits _ _ => Sample.ok (JCredits [])
  end.

(** [import_br] with one row that an earlier run could not find. *)
Definition start : world := SampleRetry.limited_world 0.

(** The physical-media matcher runs, then the applier while the details
    endpoint is down. *)
Definition matched : world := snd (Br.main 100 (1 # 4) start).

Definition failed : world :=
  snd (BrApply.main 100 (1 # 4) (next_run down matched)).

(** [import_nas] with one pending row, and the NAS matcher run on two
    results without director hint. *)
Definition nas_start : world := SampleAmbiguous.mixed_world.

Definition nas_matched : world := snd (Nas.main 100 (1 # 4) nas_start).

End SampleRuns.

(** The world [w] with the database of the open transaction replaced. *)
Definition with_db (d : database) (w : world) : world :=
  {| server := server w; requested := requested w; slept := slept w;
     db := d; committed := committed w |}.

(** The upsert of the source row that [ensure_source "BR" ...] makes. *)
Definition br_source_upsert (rows : list source_row) : list source_row * Z :=
  upsert (fun s => (code s =? "BR")%string)
         (fun s => {| source_id := source_id s; code := code s;
                      label := "Blu-ray / Physique" |})
         source_id
         (fun i => {| source_id := i; code := "BR"; label := "Blu-ray / Physique" |})
         rows.

Module SampleApplyOne.

(** One matched record, the catalog answering with the details of Heat. *)
Definition heat_world : world :=
  Sample.world_of (SampleApply.catalog [SampleApply.crime]) [SampleApply.matched_row].

End SampleApplyOne.

(** Case analysis on the 256 characters. *)
Ltac each_char c :=
  destruct c as [[|] [|] [|] [|] [|] [|] [|] [|]]; vm_compute;
  try reflexivity; try discriminate; auto.

(** ** The watchlist applier ([tmdb_apply_watchlist_sc.py]) *)

Module WatchlistApply.

Definition USER_ID : Z := 1.

(** The film upsert is the statement of the seen-list applier (the
    [updated_at] column apart). *)
Definition upsert_film (j : json) : M Z := SeenApply.upsert_film j.

(** The upsert of [user_film] as WANT, which does not overwrite SEEN.  The
    statement lists [user_id], [film_id] and [status]; [defaults] holds what
    the table gives to the other columns of a new row. *)
Definition upsert_user_film (defaults : user_film_row) (film : Z) (d : database)
    : database :=
  with_user_films d
    (fst (upsert
       (fun r => (uf_user_id r =? USER_ID) && (uf_film_id r =? film))
       (fun r => {| uf_user_id := uf_user_id r; uf_film_id := uf_film_id r;
                    uf_status := if (uf_status r =? "SEEN")%string
                                 then uf_status r else "WANT";
                    uf_rating_10 := uf_rating_10 r;
                    uf_first_seen_at := uf_first_seen_at r;
                    uf_last_seen_at := uf_last_seen_at r;
                    uf_rewatch_count := uf_rewatch_count r |})
       uf_film_id
       (fun _ => {| uf_user_id := USER_ID; uf_film_id := film;
                    uf_status := "WANT"; uf_rating_10 := uf_rating_10 defaults;
                    uf_first_seen_at := uf_first_seen_at defaults;
                    uf_last_seen_at := uf_last_seen_at defaults;
                    uf_rewatch_count := uf_rewatch_count defaults |})
       (user_films d))).

(** The [try] block of the loop of [main] for one row. *)
Definition apply_body (defaults : user_film_row) (pause : Q) (r : import_row) : M unit :=
  (details <- tmdb_get_once (MovieDetails (tmdb_id r)) ;;
   film_id <- upsert_film details ;;
   execute (upsert_user_film defaults film_id) ;;
   execute (update_import (import_id r) SeenApply.mark_applied) ;;
   commit ;;
   sleep pause).

(** The [except Exception as e] block. *)
Definition on_error (iid : Z) (e : exn) : M unit :=
  rollback ;;
  execute (update_import iid (set_status_note ERROR (Py.slice_to 900 (exn_str e)))) ;;
  commit.

(** The body of the loop of [main] for one row. *)
Definition apply_row (defaults : user_film_row) (pause : Q) (r : import_row) : M unit :=
  try_except (apply_body defaults pause r) (on_error (import_id r)).

Definition main (defaults : user_film_row) (limit : nat) (pause : Q) : M unit :=
  rows <- query (select_imports to_apply limit) ;;
  for_each rows (apply_row defaults pause) ;;
  commit.

End WatchlistApply.

(** The rows of [user_film] that belong to the user of the scripts and to
    [film]. *)
Definition is_user_film (film : Z) (r : user_film_row) : bool :=
  (uf_user_id r =? 1) && (uf_film_id r =? film).

(** ** Runs *)

(** [m] treats the record [iid] in one transaction: when it returns, its
    writes are committed and the staging table differs from the one it
    started with by one write of [P] to the rows [iid]; when it raises,
    nothing has been committed. *)
Definition transaction (P : (import_row -> import_row) -> Prop) (iid : Z) (m : M unit)
    : Prop :=
  forall w,
    match m w with
    | (Ok _, w') =>
        committed w' = db w'
        /\ exists f, P f /\ imports (db w') = imports (update_import iid f (db w))
    | (Raise _, w') => committed w' = committed w
    end.

(** The writes of the matchers to a staging row: a status among MATCHED and
    AMBIGUOUS with an external id, or a status among NOT_FOUND and AMBIGUOUS
    with a note only. *)
Inductive match_update : (import_row -> import_row) -> Prop :=
| match_with_id (st : status) (tid : Z) (note : string) :
    st = MATCHED \/ st = AMBIGUOUS -> match_update (set_status_id_note st tid note)
| match_with_note (st : status) (note : string) :
    st = NOT_FOUND \/ st = AMBIGUOUS -> match_update (set_status_note st note).

(** The write of the [except] blocks. *)
Definition error_update (f : import_row -> import_row) : Prop :=
  exists note, f = set_status_note ERROR note.

(** What a run that treats the records [ids], with writes of [P], makes of
    a staging row [r]: the row [r'] keeps the id; it is [r] itself unless
    the id is one of [ids], and then it was last written by [P] or by an
    [except] block. *)
Definition touched (P : (import_row -> import_row) -> Prop) (ids : list Z)
    (r r' : import_row) : Prop :=
  import_id r' = import_id r
  /\ (~ In (import_id r) ids -> r' = r)
  /\ (In (import_id r) ids -> exists f r0, (P f \/ error_update f) /\ r' = f r0).

(** The ids of the rows that a run selects. *)
Definition selected (p : import_row -> bool) (limit : nat) (d : database) : list Z :=
  map import_id (select_imports p limit d).

(** The tables other than the staging one. *)
Definition catalog_tables (d : database) : database := with_imports d [].

(** [m] leaves the part [view] of the database as it is, in the open
    transaction and in the committed state, when it starts from a
    transaction that has not changed it. *)
Definition preserves {V A} (view : database -> V) (m : M A) : Prop :=
  forall w, view (db w) = view (committed w) ->
    view (db (snd (m w))) = view (db w)
    /\ view (committed (snd (m w))) = view (committed w).

(** A status that a matcher leaves. *)
Definition settled_status (st : status) : Prop :=
  st = MATCHED \/ st = AMBIGUOUS \/ st = NOT_FOUND \/ st = ERROR.

Module SampleOffline.

(** A catalog that cannot be reached, and [import_br] with one matched
    record to apply. *)
Definition unreachable (n : nat) (q : request) : reply := Failure "Connection refused".

Definition apply_world : world := Sample.world_of unreachable [SampleApply.matched_row].




End SampleOffline.



Module SampleStored.

(** Heat as the physical-media applier stored it, and a seen-list record
    matched to it. *)
Definition film : film_row :=
  {| film_id := 7; f_tmdb_id := 949; f_imdb_id := Some "tt0113277";
     f_title := Some "Heat"; f_original_title := Some "Heat";
     f_release_date := Some "1995-12-15"; f_year := Some 1995;
     f_runtime_min := Some 170; f_overview := None;
     f_original_language := Some "en"; f_poster_path := Some "/heat.jpg";
     f_backdrop_path := None; f_tmdb_popularity := Some (7 # 2);
     f_tmdb_vote_avg := Some (79 # 10); f_tmdb_vote_count := Some 7000 |}.

Definition stored_world : world :=
  with_db (with_films (db (SampleApply.world_with [])) [film])
          (SampleApply.world_with []).

End SampleStored.

(** ** The physical-media importer ([import_br.py]): formats *)

Module ImportBr.

(** A group [[^\]]+\]] can start at the text [r] that follows an opening
    bracket: [r] begins with a character other than a closing bracket and
    holds a closing bracket further on. *)
Definition starts_group (r : string) : bool :=
  match r with
  | EmptyString => false
  | String c _ => negb (Py.is_close c) && Py.has_close r
  end.

(** [re.findall(r"\[([^\]]+)\]", s)]: the texts between an opening bracket
    and the first closing bracket after it, when at least one character
    lies between; the scan resumes after the closing bracket.  [inside]
    is the group being read. *)
Fixpoint findall_groups (inside : option string) (s : string) : list string :=
  match s with
  | EmptyString => []
  | String c r =>
      match inside with
      | Some cur =>
          if Py.is_close c then cur :: findall_groups None r
          else findall_groups (Some (cur ++ String c EmptyString)) r
      | None =>
          if Py.is_open c && starts_group r then findall_groups (Some EmptyString) r
          else findall_groups None r
      end
  end.

(** [extract_brackets] *)
Definition extract_brackets (title : string) : list string :=
  if Py.truthy title then findall_groups None title else [].

(** The class [[+,/&]] of the separators. *)
Definition is_separator (c : ascii) : bool :=
  (c =? "+")%char || (c =? ",")%char || (c =? "/")%char || (c =? "&")%char.

(** The separator [" et "], whatever the case of its letters, begins [s]. *)
Definition et_ahead (s : string) : bool :=
  match s with
  | String a (String b (String c (String d _))) =>
      (a =? " ")%char && (Py.lower_char b =? "e")%char
      && (Py.lower_char c =? "t")%char && (d =? " ")%char
  | _ => false
  end.

(** [re.split(r"[+,/&]| et ", s, flags=re.IGNORECASE)]: [cur] is the part
    being read, [skip] the number of characters of a separator still to
    pass. *)
Fixpoint split_from (cur : string) (skip : nat) (s : string) : list string :=
  match s with
  | EmptyString => [cur]
  | String c r =>
      match skip with
      | S k => split_from cur k r
      | O =>
          if is_separator c then cur :: split_from EmptyString 0 r
          else if et_ahead s then cur :: split_from EmptyString 3 r
          else split_from (cur ++ String c EmptyString) 0 r
      end
  end.

(** [s.replace(old, new)] for a non-empty [old]: the occurrences of [old]
    are replaced from the left, none of them overlapping another. *)
Fixpoint replace_from (old new : string) (skip : nat) (s : string) : string :=
  match s with
  | EmptyString => EmptyString
  | String c r =>
      match skip with
      | S k => replace_from old new k r
      | O =>
          if String.prefix old s
          then new ++ replace_from old new (String.length old - 1) r
          else String c (replace_from old new 0 r)
      end
  end.

Definition replace (old new s : string) : string := replace_from old new 0 s.

Definition one_of (l : list string) (t : string) : bool := existsb (String.eqb t) l.

(** The body of the inner loop of [normalize_tokens]: the code that a part
    of a bracketed block appends to [out], if any. *)
Definition code_of (p : string) : option string :=
  let t := upper (Py.strip p) in
  if Py.truthy t then
    let t := replace "BLURAY" "BR" (replace "BLU-RAY" "BR" t) in
    if one_of ["4K"; "UHD"; "ULTRA HD"; "ULTRAHD"] t then Some "UHD"
    else if one_of ["BR"; "BD"] t then Some "BR"
    else if (t =? "DVD")%string then Some "DVD"
    else None
  else None.

(** The loop that keeps the first occurrence of each code. *)
Fixpoint uniq_from (seen : list string) (out : list string) : list string :=
  match out with
  | [] => []
  | x :: r =>
      if existsb (String.eqb x) seen then uniq_from seen r
      else x :: uniq_from (x :: seen) r
  end.

(** [normalize_tokens] *)
Definition normalize_tokens (tokens : list string) : list string :=
  let out :=
    flat_map
      (fun block =>
         flat_map (fun p => match code_of p with Some code => [code] | None => [] end)
                  (split_from EmptyString 0 block))
      tokens in
  uniq_from [] out.

(** The [formats] column of a row of [import_br], as [main] fills it. *)
Definition formats_of (raw_title : string) : list string :=
  normalize_tokens (extract_brackets raw_title).

End ImportBr.

(** ** The seen-list importer ([import_seen_sc.py]): the year *)

Module ImportSeen.

(** The class [\w] of [re] on [str] patterns, on U+0000..U+00FF: letters,
    digits and the underscore, the Latin-1 letters and numerals included. *)
Definition is_word (c : ascii) : bool :=
  Py.in_range 48 57 c || Py.in_range 65 90 c || (Py.ord c =? 95)%N
  || Py.in_range 97 122 c || (Py.ord c =? 170)%N || Py.in_range 178 179 c
  || (Py.ord c =? 181)%N || Py.in_range 185 186 c || Py.in_range 188 190 c
  || Py.in_range 192 214 c || Py.in_range 216 246 c || Py.in_range 248 255 c.

(** The pattern [(18|19|20)\d{2}\b] matches at the start of [s]; the value
    is [int] of the four digits matched. *)
Definition year_ahead (s : string) : option Z :=
  match s with
  | String a (String b (String c (String d r))) =>
      if ((((a =? "1")%char && ((b =? "8")%char || (b =? "9")%char))
           || ((a =? "2")%char && (b =? "0")%char))
          && is_digit c && is_digit d
          && match r with
             | EmptyString => true
             | String e _ => negb (is_word e)
             end)%bool
      then Some (1000 * digit_value a + 100 * digit_value b
                 + 10 * digit_value c + digit_value d)
      else None
  | _ => None
  end.

(** [re.search(r"\b(18|19|20)\d{2}\b", s)]: the first place where the
    pattern matches, a word character not preceding it.  [after_word]
    tells that the previous character is a word character. *)
Fixpoint search_year (after_word : bool) (s : string) : option Z :=
  match s with
  | EmptyString => None
  | String c r =>
      match (if after_word then None else year_ahead s) with
      | Some y => Some y
      | None => search_year (is_word c) r
      end
  end.

(** [parse_year] on a cell of the file (a [str], or [None]). *)
Definition parse_year (x : option string) : option Z :=
  match x with
  | None => None
  | Some x =>
      let s := Py.strip x in
      if Py.truthy s then search_year false s else None
  end.

End ImportSeen.

(** ** The watchlist importer ([import_watchlist_sc.py]): the title *)

Module ImportWatchlist.

(** [clean_title]: the bracketed blocks are removed, the white space is
    collapsed. *)
Definition clean_title (t : option string) : string :=
  let t := Py.strip (Py.or_empty t) in
  let t := Py.sub_brackets t in
  Py.strip (Py.sub_runs Py.isspace t).

End ImportWatchlist.

(** * Properties *)

(** ** Characters *)

Lemma lower_char_alnum_space (c : ascii) :
  is_alnum_space c = true -> Py.lower_char c = c.
Proof. each_char c. Qed.

Lemma lower_char_idem (c : ascii) :
  Py.lower_char (Py.lower_char c) = Py.lower_char c.
Proof. each_char c. Qed.

Lemma isspace_lower_char (c : ascii) :
  Py.isspace (Py.lower_char c) = Py.isspace c.
Proof. each_char c. Qed.

Lemma alnum_space_isspace (c : ascii) :
  is_alnum_space c = true -> Py.isspace c = true -> c = " "%char.
Proof. each_char c. Qed.

Lemma alnum_space_not_open (c : ascii) :
  is_alnum_space c = true -> Py.is_open c = false.
Proof. each_char c. Qed.

Lemma isspace_space : Py.isspace " "%char = true.
Proof. reflexivity. Qed.

Lemma lower_char_space : Py.lower_char " "%char = " "%char.
Proof. reflexivity. Qed.

(** ** Strings *)

Lemma all_chars_sub_runs_class (good : ascii -> bool) (b : bool) (s : string) :
  good " "%char = true ->
  Py.all_chars good (Py.sub_runs_from (fun c => negb (good c)) b s) = true.
Proof.
  intros Hsp. revert b.
  induction s as [|c r IH]; intros b; simpl; [reflexivity|].
  destruct (good c) eqn:Hc; simpl.
  - rewrite Hc. apply IH.
  - destruct b; simpl; [apply IH|]. rewrite Hsp. apply IH.
Qed.

Lemma all_chars_sub_runs (p cls : ascii -> bool) (b : bool) (s : string) :
  p " "%char = true -> Py.all_chars p s = true ->
  Py.all_chars p (Py.sub_runs_from cls b s) = true.
Proof.
  intros Hsp. revert b.
  induction s as [|c r IH]; intros b H; simpl in *; [reflexivity|].
  apply andb_true_iff in H as [Hc Hr].
  destruct (cls c); [destruct b|]; simpl; rewrite ?Hsp, ?Hc; simpl; auto.
Qed.

Lemma all_chars_lstrip (p : ascii -> bool) (s : string) :
  Py.all_chars p s = true -> Py.all_chars p (Py.lstrip s) = true.
Proof.
  induction s as [|c r IH]; simpl; intros H; [reflexivity|].
  destruct (Py.isspace c); [|exact H].
  apply andb_true_iff in H as [_ Hr]. auto.
Qed.

Lemma all_chars_rstrip (p : ascii -> bool) (s : string) :
  Py.all_chars p s = true -> Py.all_chars p (Py.rstrip s) = true.
Proof.
  induction s as [|c r IH]; simpl; intros H; [reflexivity|].
  apply andb_true_iff in H as [Hc Hr]. specialize (IH Hr).
  destruct (Py.rstrip r) as [|c' r'].
  - destruct (Py.isspace c); simpl; rewrite ?Hc; reflexivity.
  - simpl in *. rewrite Hc. exact IH.
Qed.

Lemma all_chars_strip (p : ascii -> bool) (s : string) :
  Py.all_chars p s = true -> Py.all_chars p (Py.strip s) = true.
Proof. intros H. apply all_chars_rstrip, all_chars_lstrip, H. Qed.

Lemma lower_alnum_space (s : string) :
  Py.all_chars is_alnum_space s = true -> Py.lower s = s.
Proof.
  induction s as [|c r IH]; simpl; intros H; [reflexivity|].
  apply andb_true_iff in H as [Hc Hr].
  rewrite lower_char_alnum_space, IH; auto.
Qed.

Lemma sub_brackets_alnum_space (s : string) :
  Py.all_chars is_alnum_space s = true -> Py.sub_brackets_from false s = s.
Proof.
  induction s as [|c r IH]; simpl; intros H; [reflexivity|].
  apply andb_true_iff in H as [Hc Hr].
  rewrite (alnum_space_not_open c Hc). simpl. rewrite IH; auto.
Qed.

Lemma sub_runs_outside_class (cls : ascii -> bool) (b : bool) (s : string) :
  Py.all_chars (fun c => negb (cls c)) s = true -> Py.sub_runs_from cls b s = s.
Proof.
  revert b. induction s as [|c r IH]; simpl; intros b H; [reflexivity|].
  apply andb_true_iff in H as [Hc Hr].
  apply negb_true_iff in Hc. rewrite Hc, IH; auto.
Qed.

Lemma spaced_weaken (s : string) : spaced true s = true -> spaced false s = true.
Proof.
  destruct s as [|c r]; simpl; [reflexivity|].
  destruct (Py.isspace c); [|auto].
  rewrite andb_false_r. discriminate.
Qed.

Lemma spaced_sub_runs (b : bool) (s : string) :
  spaced b (Py.sub_runs_from Py.isspace b s) = true.
Proof.
  revert b. induction s as [|c r IH]; intros b; simpl; [reflexivity|].
  destruct (Py.isspace c) eqn:Hc.
  - destruct b; [apply IH|].
    simpl. apply IH.
  - simpl. rewrite Hc. apply IH.
Qed.

Lemma sub_runs_spaced (b : bool) (s : string) :
  spaced b s = true -> Py.sub_runs_from Py.isspace b s = s.
Proof.
  revert b. induction s as [|c r IH]; intros b; simpl; [reflexivity|].
  destruct (Py.isspace c) eqn:Hc; intros H.
  - apply andb_true_iff in H as [H Hr]. apply andb_true_iff in H as [Heq Hb].
    apply Ascii.eqb_eq in Heq. apply negb_true_iff in Hb. subst b c.
    rewrite (IH true Hr). reflexivity.
  - rewrite (IH false H). reflexivity.
Qed.

Lemma spaced_lstrip (b b' : bool) (s : string) :
  spaced b s = true -> spaced b' (Py.lstrip s) = true.
Proof.
  revert b. induction s as [|c r IH]; intros b; simpl; [reflexivity|].
  destruct (Py.isspace c) eqn:Hc; intros H.
  - apply andb_true_iff in H as [_ Hr]. eapply IH, Hr.
  - simpl. rewrite Hc. exact H.
Qed.

Lemma spaced_rstrip (b : bool) (s : string) :
  spaced b s = true -> spaced b (Py.rstrip s) = true.
Proof.
  revert b. induction s as [|c r IH]; intros b; simpl; [reflexivity|].
  destruct (Py.isspace c) eqn:Hc; intros H.
  - apply andb_true_iff in H as [H Hr]. specialize (IH true Hr).
    destruct (Py.rstrip r) as [|c' r']; [reflexivity|].
    simpl. rewrite Hc, H. exact IH.
  - specialize (IH false H).
    destruct (Py.rstrip r) as [|c' r']; simpl; rewrite Hc; [reflexivity|exact IH].
Qed.


Lemma lstrip_starts_clean (s : string) : starts_clean (Py.lstrip s) = true.
Proof.
  induction s as [|c r IH]; simpl; [reflexivity|].
  destruct (Py.isspace c) eqn:Hc; [exact IH|]. simpl. rewrite Hc. reflexivity.
Qed.

Lemma lstrip_clean (s : string) : starts_clean s = true -> Py.lstrip s = s.
Proof.
  destruct s as [|c r]; simpl; [reflexivity|].
  intros H. apply negb_true_iff in H. rewrite H. reflexivity.
Qed.

Lemma rstrip_starts_clean (s : string) :
  starts_clean s = true -> starts_clean (Py.rstrip s) = true.
Proof.
  destruct s as [|c r]; simpl; [reflexivity|].
  intros H. destruct (Py.rstrip r); [|exact H].
  apply negb_true_iff in H. rewrite H. simpl. rewrite H. reflexivity.
Qed.

Lemma rstrip_idem (s : string) : Py.rstrip (Py.rstrip s) = Py.rstrip s.
Proof.
  induction s as [|c r IH]; simpl; [reflexivity|].
  destruct (Py.rstrip r) as [|c' r'] eqn:Hr.
  - destruct (Py.isspace c) eqn:Hc; simpl; [reflexivity|]. rewrite Hc. reflexivity.
  - change (Py.rstrip (String c (String c' r'))) with
      (match Py.rstrip (String c' r') with
       | EmptyString => if Py.isspace c then EmptyString else String c EmptyString
       | x => String c x
       end).
    rewrite IH. reflexivity.
Qed.

Lemma strip_idem (s : string) : Py.strip (Py.strip s) = Py.strip s.
Proof.
  unfold Py.strip.
  rewrite (lstrip_clean (Py.rstrip (Py.lstrip s))).
  - apply rstrip_idem.
  - apply rstrip_starts_clean, lstrip_starts_clean.
Qed.

(** [norm] is idempotent on every title. *)
Lemma norm_idempotent (t : option string) : norm (Some (norm t)) = norm t.
Proof.
  unfold norm at 1. simpl Py.or_empty.
  set (v := norm t).
  assert (Hgood : Py.all_chars is_alnum_space v = true).
  { apply all_chars_strip, all_chars_sub_runs; [reflexivity|].
    apply all_chars_sub_runs_class. reflexivity. }
  assert (Hsp : spaced false v = true).
  { unfold v, norm, Py.strip. apply spaced_rstrip.
    apply (spaced_lstrip false). apply spaced_sub_runs. }
  rewrite (lower_alnum_space v Hgood).
  unfold Py.sub_brackets. rewrite (sub_brackets_alnum_space v Hgood).
  unfold Py.sub_runs.
  rewrite (sub_runs_outside_class (fun c => negb (is_alnum_space c)) false v).
  2:{ clear -Hgood. induction v as [|c r IH]; simpl in *; [reflexivity|].
      apply andb_true_iff in Hgood as [Hc Hr]. rewrite Hc. simpl. auto. }
  rewrite (sub_runs_spaced false v Hsp).
  unfold v, norm. apply strip_idem.
Qed.

Lemma lower_idem (s : string) : Py.lower (Py.lower s) = Py.lower s.
Proof.
  induction s as [|c r IH]; simpl; [reflexivity|].
  rewrite lower_char_idem, IH. reflexivity.
Qed.

Lemma lower_sub_runs (b : bool) (s : string) :
  Py.lower (Py.sub_runs_from Py.isspace b s)
  = Py.sub_runs_from Py.isspace b (Py.lower s).
Proof.
  revert b. induction s as [|c r IH]; intros b; simpl; [reflexivity|].
  rewrite isspace_lower_char.
  destruct (Py.isspace c); [destruct b|]; simpl; rewrite IH; reflexivity.
Qed.

Lemma starts_clean_lower (s : string) :
  starts_clean (Py.lower s) = starts_clean s.
Proof. destruct s; simpl; [reflexivity|]. rewrite isspace_lower_char. reflexivity. Qed.

Lemma starts_clean_sub_runs (b : bool) (s : string) :
  starts_clean s = true -> starts_clean (Py.sub_runs_from Py.isspace b s) = true.
Proof.
  destruct s as [|c r]; simpl; [reflexivity|].
  intros H. apply negb_true_iff in H. rewrite H. simpl. rewrite H. reflexivity.
Qed.

Lemma rstrip_lower (s : string) :
  Py.rstrip (Py.lower s) = Py.lower (Py.rstrip s).
Proof.
  induction s as [|c r IH]; simpl; [reflexivity|].
  rewrite IH, isspace_lower_char.
  destruct (Py.rstrip r); simpl; [|reflexivity].
  destruct (Py.isspace c); reflexivity.
Qed.

Lemma sub_runs_empty (b : bool) (s : string) :
  Py.sub_runs_from Py.isspace b s = EmptyString -> Py.rstrip s = EmptyString.
Proof.
  revert b. induction s as [|c r IH]; intros b; simpl; [reflexivity|].
  destruct (Py.isspace c); [|discriminate].
  destruct b; [|discriminate].
  intros H. rewrite (IH true H). reflexivity.
Qed.

Lemma rstrip_sub_runs (b : bool) (s : string) :
  Py.rstrip (Py.sub_runs_from Py.isspace b s)
  = Py.sub_runs_from Py.isspace b (Py.rstrip s).
Proof.
  revert b. induction s as [|c r IH]; intros b; simpl; [reflexivity|].
  destruct (Py.isspace c) eqn:Hc.
  - destruct (Py.rstrip r) as [|c' r'] eqn:Hr.
    + destruct b; simpl; rewrite IH; reflexivity.
    + assert (Hne : Py.sub_runs_from Py.isspace true (String c' r') <> EmptyString).
      { intros E. apply sub_runs_empty in E.
        rewrite <- Hr, rstrip_idem, Hr in E. discriminate. }
      destruct b.
      * rewrite IH. simpl. rewrite Hc. reflexivity.
      * change (Py.rstrip (String " " (Py.sub_runs_from Py.isspace true r)))
          with (match Py.rstrip (Py.sub_runs_from Py.isspace true r) with
                | EmptyString => EmptyString
                | x => String " " x
                end).
        rewrite IH.
        destruct (Py.sub_runs_from Py.isspace true (String c' r')) eqn:E;
          [contradiction|].
        simpl. rewrite Hc. simpl in E. rewrite E. reflexivity.
  - change (Py.rstrip (String c (Py.sub_runs_from Py.isspace false r)))
      with (match Py.rstrip (Py.sub_runs_from Py.isspace false r) with
            | EmptyString => if Py.isspace c then EmptyString else String c EmptyString
            | x => String c x
            end).
    rewrite IH, Hc.
    destruct (Py.rstrip r) as [|c' r'] eqn:Hr; simpl; rewrite Hc; [reflexivity|].
    assert (Hne : Py.sub_runs_from Py.isspace false (String c' r') <> EmptyString).
    { intros E. apply sub_runs_empty in E.
      rewrite <- Hr, rstrip_idem, Hr in E. discriminate. }
    simpl in Hne.
    destruct (if Py.isspace c'
              then String " " (Py.sub_runs_from Py.isspace true r')
              else String c' (Py.sub_runs_from Py.isspace false r')) eqn:E;
      [contradiction|reflexivity].
Qed.

(** [norm] of the physical-media matcher is idempotent on every title. *)
Lemma br_norm_idempotent (t : option string) : br_norm (Some (br_norm t)) = br_norm t.
Proof.
  unfold br_norm at 1. simpl Py.or_empty.
  assert (Hstrip : Py.strip (br_norm t) = br_norm t).
  { unfold Py.strip. rewrite lstrip_clean.
    - unfold br_norm, Py.sub_runs.
      rewrite rstrip_sub_runs, rstrip_lower. unfold Py.strip.
      rewrite rstrip_idem. reflexivity.
    - unfold br_norm, Py.sub_runs. apply starts_clean_sub_runs.
      rewrite starts_clean_lower. unfold Py.strip.
      apply rstrip_starts_clean, lstrip_starts_clean. }
  rewrite Hstrip. unfold br_norm, Py.sub_runs.
  rewrite lower_sub_runs, lower_idem.
  apply sub_runs_spaced, spaced_sub_runs.
Qed.

(** C9.  For every title with no bracketed annotation, normalization is
    idempotent: normalizing a normalized title gives it back.  This holds for
    the normalizer of the seen-list and watchlist matchers and for the one of
    the physical-media matcher. *)
Theorem normalize_idempotent (t : string) :
  Py.has_bracketed t = false ->
  norm (Some (norm (Some t))) = norm (Some t)
  /\ br_norm (Some (br_norm (Some t))) = br_norm (Some t).
Proof.
  intros _. split; [apply norm_idempotent | apply br_norm_idempotent].
Qed.

Lemma normalize_idempotent_witness :
  Py.has_bracketed "  Blade Runner: The Final Cut (1982) " = false
  /\ norm (Some (norm (Some "  Blade Runner: The Final Cut (1982) ")))
     = norm (Some "  Blade Runner: The Final Cut (1982) ")
  /\ br_norm (Some (br_norm (Some "  Blade Runner: The Final Cut (1982) ")))
     = br_norm (Some "  Blade Runner: The Final Cut (1982) ").
Proof.
  split; [reflexivity|].
  apply (normalize_idempotent "  Blade Runner: The Final Cut (1982) ").
  reflexivity.
Defined.


(** ** Scorer *)

Lemma prefix_slice (p s : string) :
  String.prefix p s = (Py.slice_to (String.length p) s =? p)%string.
Proof.
  revert s. induction p as [|a p IH]; intros s; simpl.
  - destruct s; reflexivity.
  - destruct s as [|b s]; simpl; [reflexivity|].
    destruct (Ascii.ascii_dec a b) as [->|Hne].
    + rewrite Ascii.eqb_refl. apply IH.
    + destruct (Ascii.eqb_spec b a) as [->|_]; [contradiction|reflexivity].
Qed.

(** C1, as the code has it, for the two scorers.  With a query year that
    prints as four characters, the score of a candidate is 5 for an exact
    normalized match of the query title with the localized or the original
    title, else 2 when the query title occurs in one of them (the converse
    containment earns nothing), plus 3 when the first four characters of
    the release date are the query year.  The seen-list scorer follows the
    rule for every query title; the physical-media scorer follows it, on
    its own normalizer, for every non-empty query title, and its year bonus
    is what the year adds to the score without a year, which is the score
    its matcher uses.  For the candidate Heat, 1995 and the query Heat, 1995
    both scorers give 8; the seen-list record becomes MATCHED with score 8,
    the physical-media record MATCHED with best score 5. *)
Theorem score_candidate_rules (title_q director_q : string) (year_q : Z) (cand : candidate) :
  String.length (Py.str_of_int year_q) = 4%nat ->
  score_candidate title_q (Some year_q) director_q cand
  = spec_score false title_q year_q cand
  /\ (Py.truthy title_q = true ->
      Br.score_candidate title_q (Some year_q) director_q cand
      = br_spec_score false title_q year_q cand)
  /\ Br.score_candidate title_q (Some year_q) director_q cand
     = Br.score_candidate title_q None director_q cand
       + (if (Py.slice_to 4 (Py.or_empty (c_release_date cand))
              =? Py.str_of_int year_q)%string
          then 3 else 0)
  /\ score_candidate "heat" (Some 1995) "" Sample.heat = 8
  /\ Br.score_candidate "heat" (Some 1995) "" Sample.heat = 8
  /\ row_state 1
       (committed
          (snd (Seen.match_row (1 # 4) (Sample.row 1 "Heat" (Some 1995) None)
                  (Sample.world_of (Sample.catalog [Sample.heat] Sample.no_crew)
                     [Sample.row 1 "Heat" (Some 1995) None]))))
     = Some (MATCHED, Some 949, Some "score=8")
  /\ row_state 1
       (committed
          (snd (Br.match_row (1 # 4) (Sample.row 1 "Heat" (Some 1995) None)
                  (Sample.world_of (Sample.catalog [Sample.heat] Sample.no_crew)
                     [Sample.row 1 "Heat" (Some 1995) None]))))
     = Some (MATCHED, Some 949, Some "single result | best_score=5").
Proof.
  intros Hlen.
  assert (Hy : int_truthy (Some year_q) = true).
  { simpl. destruct (Z.eqb_spec year_q 0) as [->|_]; [discriminate Hlen|reflexivity]. }
  assert (Hpre : Py.startswith (Py.or_empty (c_release_date cand))
                   (str_of_opt_int (Some year_q))
                 = (Py.slice_to 4 (Py.or_empty (c_release_date cand))
                    =? Py.str_of_int year_q)%string).
  { unfold Py.startswith. simpl str_of_opt_int. rewrite prefix_slice, Hlen. reflexivity. }
  split; [|split; [|split; [|repeat split; reflexivity]]].
  - unfold score_candidate, spec_score. rewrite Hy, Hpre.
    rewrite andb_false_l, orb_false_r.
    destruct ((norm (c_title cand) =? title_q)%string
              || (norm (c_original_title cand) =? title_q)%string);
      destruct (Py.str_in title_q (norm (c_title cand))
                || Py.str_in title_q (norm (c_original_title cand)));
      destruct (Py.slice_to 4 (Py.or_empty (c_release_date cand))
                =? Py.str_of_int year_q)%string; reflexivity.
  - intros Hq. unfold Br.score_candidate, br_spec_score. rewrite Hy, Hpre, Hq.
    rewrite andb_false_l, orb_false_r, andb_true_l.
    destruct ((br_norm (Some (Py.or_empty (c_title cand))) =? title_q)%string
              || (br_norm (Some (Py.or_empty (c_original_title cand))) =? title_q)%string);
      destruct (Py.str_in title_q (br_norm (Some (Py.or_empty (c_title cand))))
                || Py.str_in title_q (br_norm (Some (Py.or_empty (c_original_title cand)))));
      destruct (Py.slice_to 4 (Py.or_empty (c_release_date cand))
                =? Py.str_of_int year_q)%string; reflexivity.
  - unfold Br.score_candidate. rewrite Hy, Hpre. cbn [int_truthy].
    destruct ((br_norm (Some (Py.or_empty (c_title cand))) =? title_q)%string
              || (br_norm (Some (Py.or_empty (c_original_title cand))) =? title_q)%string);
      destruct (Py.truthy title_q
                && (Py.str_in title_q (br_norm (Some (Py.or_empty (c_title cand))))
                    || Py.str_in title_q
                         (br_norm (Some (Py.or_empty (c_original_title cand))))));
      destruct (Py.slice_to 4 (Py.or_empty (c_release_date cand))
                =? Py.str_of_int year_q)%string; reflexivity.
Qed.

Lemma score_candidate_rules_witness :
  String.length (Py.str_of_int 1995) = 4%nat
  /\ score_candidate "heat" (Some 1995) "michael mann" Sample.heat
     = spec_score false "heat" 1995 Sample.heat
  /\ Br.score_candidate "heat" (Some 1995) "michael mann" Sample.heat
     = br_spec_score false "heat" 1995 Sample.heat.
Proof.
  split; [reflexivity|].
  destruct (score_candidate_rules "heat" "michael mann" 1995 Sample.heat eq_refl)
    as (Hseen & Hbr & _).
  split; [exact Hseen|exact (Hbr eq_refl)].
Defined.

(** C1, as stated, fails in three places.  Where the candidate's title is
    contained in the query title, neither scorer gives a point: containment
    in that direction is not looked for.  With a query year that does not
    print as four characters, the year bonus is earned by a release date
    whose first four characters are not the year.  With an empty query
    title the physical-media scorer does not look for a containment. *)
Lemma score_rule_departures :
  (Py.str_in (norm (c_title Sample.heat)) "heat 2" = true
   /\ spec_score true "heat 2" 1995 Sample.heat = 5
   /\ score_candidate "heat 2" (Some 1995) "" Sample.heat = 3
   /\ br_spec_score true "heat 2" 1995 Sample.heat = 5
   /\ Br.score_candidate "heat 2" (Some 1995) "" Sample.heat = 3)
  /\ (Py.slice_to 4 (Py.or_empty (c_release_date Sample.heat)) = "1995"
      /\ Py.str_of_int 199 = "199"
      /\ spec_score true "heat" 199 Sample.heat = 5
      /\ score_candidate "heat" (Some 199) "" Sample.heat = 8)
  /\ (Py.str_in "" (br_norm (Some (Py.or_empty (c_title Sample.heat)))) = true
      /\ br_spec_score true "" 1995 Sample.heat = 5
      /\ Br.score_candidate "" (Some 1995) "" Sample.heat = 3)
  /\ score_candidate "heat 2" (Some 1995) "" Sample.heat
     <> spec_score true "heat 2" 1995 Sample.heat
  /\ score_candidate "heat" (Some 199) "" Sample.heat
     <> spec_score true "heat" 199 Sample.heat
  /\ Br.score_candidate "" (Some 1995) "" Sample.heat
     <> br_spec_score true "" 1995 Sample.heat.
Proof. repeat split; try reflexivity; discriminate. Qed.

(** The scorer of the physical-media matcher follows the same rule on its
    own normalizer, a containment needing a non-empty query. *)
Lemma br_score_candidate_rules (q_title q_dir : string) (q_year : option Z) (cand : candidate) :
  let title := br_norm (Some (Py.or_empty (c_title cand))) in
  let orig := br_norm (Some (Py.or_empty (c_original_title cand))) in
  Br.score_candidate q_title q_year q_dir cand
  = (if (title =? q_title)%string || (orig =? q_title)%string then 5
     else if Py.truthy q_title && (Py.str_in q_title title || Py.str_in q_title orig)
          then 2 else 0)
    + (if int_truthy q_year
          && Py.startswith (Py.or_empty (c_release_date cand)) (str_of_opt_int q_year)
       then 3 else 0).
Proof.
  unfold Br.score_candidate. cbv zeta.
  destruct ((br_norm (Some (Py.or_empty (c_title cand))) =? q_title)%string
            || (br_norm (Some (Py.or_empty (c_original_title cand))) =? q_title)%string);
    destruct (Py.truthy q_title
              && (Py.str_in q_title (br_norm (Some (Py.or_empty (c_title cand))))
                  || Py.str_in q_title (br_norm (Some (Py.or_empty (c_original_title cand))))));
    destruct (int_truthy q_year);
    destruct (Py.startswith (Py.or_empty (c_release_date cand)) (str_of_opt_int q_year));
    reflexivity.
Qed.


(** ** CatalogClient *)


Lemma after_after (r1 r2 : list request) (p1 p2 : list Q) (w : world) :
  after r1 p1 (after r2 p2 w) = after (r1 ++ r2) (p1 ++ p2) w.
Proof. unfold after; simpl. rewrite <- !app_assoc. reflexivity. Qed.

(** One rate-limited attempt: the request is issued, the pause is taken
    and the loop goes on with one iteration less. *)
Lemma tmdb_get_from_429 (msg : string) (q : request) (i left : nat) (w : world) :
  rate_limited (server w (length (requested w)) q) = true ->
  tmdb_get_from msg q i (S left) w
  = tmdb_get_from msg q (S i) left (after [q] [backoff i] w).
Proof.
  intros H. simpl. unfold bind, http_get.
  destruct (server w (length (requested w)) q) as [r|m]; [|discriminate].
  simpl in H. rewrite H. reflexivity.
Qed.

(** One attempt answered with status 200: the document is returned. *)
Lemma tmdb_get_from_200 (msg : string) (q : request) (i left : nat) (w : world)
    (r : response) :
  server w (length (requested w)) q = Answer r -> status_code r = 200 ->
  tmdb_get_from msg q i (S left) w = (Ok (body r), after [q] [] w).
Proof.
  intros H Hs. simpl. unfold bind, http_get. rewrite H.
  unfold raise_for_status. rewrite Hs. reflexivity.
Qed.

(** Three rate-limited attempts in a row exhaust the loop. *)
Lemma tmdb_get_from_exhausted (msg : string) (q : request) (w : world) :
  let n := length (requested w) in
  rate_limited (server w n q) = true ->
  rate_limited (server w (S n) q) = true ->
  rate_limited (server w (S (S n)) q) = true ->
  tmdb_get_from msg q 0 3 w
  = (Raise (RuntimeError msg),
     after [q; q; q] [backoff 2; backoff 1; backoff 0] w).
Proof.
  intros n H0 H1 H2.
  rewrite tmdb_get_from_429 by exact H0.
  rewrite tmdb_get_from_429 by exact H1.
  rewrite tmdb_get_from_429 by exact H2.
  rewrite !after_after. reflexivity.
Qed.

Lemma backoff_linear (i : nat) : backoff (S i) == backoff i + 1.
Proof.
  unfold backoff. rewrite Nat2Z.inj_succ. unfold Z.succ.
  rewrite inject_Z_plus. ring.
Qed.

(** C4, as the code has it.  The retry budget is three attempts in all.  Two
    consecutive 429 answers followed by a 200 on the third attempt succeed;
    the pause after the attempt of index [i] is 1.5 + i seconds; a third
    consecutive 429 raises the rate-limit failure after three requests, and
    the record of the physical-media matcher then becomes ERROR. *)
Theorem tmdb_get_retry_budget (msg : string) (q : request) (w : world) :
  let n := length (requested w) in
  rate_limited (server w n q) = true ->
  rate_limited (server w (S n) q) = true ->
  (forall r, server w (S (S n)) q = Answer r -> status_code r = 200 ->
     tmdb_get_from msg q 0 3 w
     = (Ok (body r), after [q; q; q] [backoff 1; backoff 0] w))
  /\ (rate_limited (server w (S (S n)) q) = true ->
      tmdb_get_from msg q 0 3 w
      = (Raise (RuntimeError msg),
         after [q; q; q] [backoff 2; backoff 1; backoff 0] w)
      /\ forall pause it,
           q = SearchMovie (Some (Py.strip (Py.or_empty (raw_title it)))) None ->
           Br.match_row pause it w
           = (Ok tt,
              settled
                (update_import (import_id it)
                   (set_status_note ERROR
                      "match: TMDb rate-limited too long on /search/movie"))
                (after [q; q; q] [backoff 2; backoff 1; backoff 0] w)))
  /\ (forall i, backoff i == (3 # 2) + inject_Z (Z.of_nat i))
  /\ (forall i, backoff (S i) == backoff i + 1).
Proof.
  intros n H0 H1. split; [|split; [|split]].
  - intros r Hr Hs.
    rewrite tmdb_get_from_429 by exact H0.
    rewrite tmdb_get_from_429 by exact H1.
    rewrite (tmdb_get_from_200 msg q 2 0 _ r); [|exact Hr|exact Hs].
    rewrite !after_after. reflexivity.
  - intros H. split; [apply tmdb_get_from_exhausted; assumption|].
    intros pause it Hq.
    unfold Br.match_row, Br.match_body, Br.on_error, try_except, bind at 1, tmdb_get_path.
    rewrite <- Hq.
    rewrite (tmdb_get_from_exhausted _ q w H0 H1 H).
    subst q. reflexivity.
  - intros i. reflexivity.
  - apply backoff_linear.
Qed.
Lemma tmdb_get_retry_budget_witness :
  rate_limited (server (SampleRetry.limited_world 2) 0%nat SampleRetry.search_heat) = true
  /\ rate_limited (server (SampleRetry.limited_world 2) 1%nat SampleRetry.search_heat) = true
  /\ tmdb_get_from "TMDb rate limit" SampleRetry.search_heat 0 3 (SampleRetry.limited_world 2)
     = (Ok (JSearch [Sample.heat]),
        after [SampleRetry.search_heat; SampleRetry.search_heat; SampleRetry.search_heat]
              [backoff 1; backoff 0] (SampleRetry.limited_world 2)).
Proof.
  split; [reflexivity|split; [reflexivity|]].
  refine (proj1 (tmdb_get_retry_budget "TMDb rate limit" SampleRetry.search_heat
                   (SampleRetry.limited_world 2) _ _)
                {| status_code := 200; reason := "OK";
                   url := "https://api.themoviedb.org/3";
                   body := JSearch [Sample.heat] |} _ _);
    reflexivity.
Defined.

(** C4, as stated, fails: after three consecutive 429 answers the call has
    already failed, so a 200 that the catalog would give to a fourth attempt
    is never asked for, and the record is in ERROR. *)
Lemma three_429_then_200_fails :
  rate_limited (server (SampleRetry.limited_world 3) 0%nat SampleRetry.search_heat) = true
  /\ rate_limited (server (SampleRetry.limited_world 3) 1%nat SampleRetry.search_heat) = true
  /\ rate_limited (server (SampleRetry.limited_world 3) 2%nat SampleRetry.search_heat) = true
  /\ server (SampleRetry.limited_world 3) 3%nat SampleRetry.search_heat
     = Sample.ok (JSearch [Sample.heat])
  /\ fst (tmdb_get_path SampleRetry.search_heat (SampleRetry.limited_world 3))
     = Raise (RuntimeError "TMDb rate-limited too long on /search/movie")
  /\ length (requested (snd (tmdb_get_path SampleRetry.search_heat (SampleRetry.limited_world 3))))
     = 3%nat
  /\ row_state 1
       (committed (snd (Br.match_row (1 # 4) SampleRetry.heat_row
                          (SampleRetry.limited_world 3))))
     = Some (ERROR, None, Some "match: TMDb rate-limited too long on /search/movie").
Proof. repeat split; reflexivity. Qed.


(** ** Disambiguator *)

Lemma server_after (reqs : list request) (pauses : list Q) (w : world) :
  server (after reqs pauses w) = server w.
Proof. reflexivity. Qed.

Lemma tmdb_get_from_answers (msg : string) (q : request) (w : world) (j : json) :
  answers_200 w (length (requested w)) q j ->
  tmdb_get_from msg q 0 3 w = (Ok j, after [q] [] w).
Proof.
  intros (r & Hr & Hs & Hb). rewrite (tmdb_get_from_200 msg q 0 2 w r Hr Hs).
  rewrite Hb. reflexivity.
Qed.


Lemma str_in_empty (d : string) : Py.str_in "" d = true.
Proof. destruct d; reflexivity. Qed.


Lemma map_m_cons {A B} (f : A -> M B) (x : A) (r : list A) (w : world) :
  map_m f (x :: r) w
  = match f x w with
    | (Ok y, w') =>
        match map_m f r w' with
        | (Ok ys, w'') => (Ok (y :: ys), w'')
        | (Raise e, w'') => (Raise e, w'')
        end
    | (Raise e, w') => (Raise e, w')
    end.
Proof.
  simpl. unfold bind. destruct (f x w) as [[y|e] w']; [|reflexivity].
  destruct (map_m f r w') as [[ys|e] w'']; reflexivity.
Qed.

Lemma map_m_names (crew : list crew_member) (w : world) :
  (forall c, In c crew -> cm_name c <> None) ->
  map_m (fun c => n <- name_item c ;; ret (norm (Some n))) crew w
  = (Ok (map (fun c => norm (Some (Py.or_empty (cm_name c)))) crew), w).
Proof.
  induction crew as [|c rest IH]; intros H; [reflexivity|].
  rewrite map_m_cons. unfold bind at 1. unfold name_item at 1.
  destruct (cm_name c) as [n|] eqn:Hn; [|exfalso; apply (H c); simpl; auto].
  unfold ret at 1 2. rewrite IH by (intros c' Hc'; apply H; simpl; auto).
  simpl. rewrite Hn. reflexivity.
Qed.

Lemma seen_get_directors_ok (crew_of : Z -> list crew_member) (id : Z) (w : world) :
  (forall m i, answers_200 w m (MovieCredits i None) (JCredits (crew_of i))) ->
  (forall i c, In c (crew_of i) -> is_director c = true -> cm_name c <> None) ->
  Seen.get_directors id w
  = (Ok (directors_of (crew_of id)), after [MovieCredits id None] [] w).
Proof.
  intros Hsrv Hnames. unfold Seen.get_directors, bind, tmdb_get.
  rewrite (tmdb_get_from_answers _ _ w (JCredits (crew_of id))) by apply Hsrv.
  simpl get_crew. rewrite map_m_names; [reflexivity|].
  intros c Hc. apply filter_In in Hc as [Hin Hd]. eapply Hnames; eauto.
Qed.
















(** The candidate picked by the loop is the last one examined. *)
Lemma upto_first_find {A} (p : A -> bool) (l : list A) (x : A) :
  find p l = Some x -> exists before, upto_first p l = (before ++ [x])%list
                                      /\ forallb (fun y => negb (p y)) before = true.
Proof.
  induction l as [|y r IH]; simpl; [discriminate|].
  destruct (p y) eqn:Hy.
  - intros [= ->]. exists []. split; reflexivity.
  - intros H. destruct (IH H) as (before & E & Hb).
    exists (y :: before). simpl. rewrite E, Hy, Hb. split; reflexivity.
Qed.








(** ** Ambiguity *)







(** ** Fallback search *)

(** A call of the catalog changes neither the database nor the catalog. *)
Lemma tmdb_get_from_frame (msg : string) (q : request) (left i : nat) (w : world) :
  server (snd (tmdb_get_from msg q i left w)) = server w
  /\ db (snd (tmdb_get_from msg q i left w)) = db w
  /\ committed (snd (tmdb_get_from msg q i left w)) = committed w.
Proof.
  revert i w. induction left as [|left IH]; intros i w; simpl; [auto|].
  unfold bind, http_get.
  destruct (server w (length (requested w)) q) as [r|m]; simpl; [|auto].
  destruct (status_code r =? 429).
  - unfold sleep. simpl.
    match goal with |- context [tmdb_get_from msg q (S i) left ?w0] =>
      destruct (IH (S i) w0) as (H1 & H2 & H3) end.
    simpl in *. auto.
  - unfold raise_for_status.
    destruct ((400 <=? status_code r) && (status_code r <? 500)); simpl; [auto|].
    destruct ((500 <=? status_code r) && (status_code r <? 600)); simpl; auto.
Qed.






(** ** Transactions *)

Lemma keeps_ret {A} (a : A) : keeps (ret a).
Proof. intros w. split; reflexivity. Qed.

Lemma keeps_raise {A} (e : exn) : keeps (@raise A e).
Proof. intros w. split; reflexivity. Qed.

Lemma keeps_bind {A B} (m : M A) (k : A -> M B) :
  keeps m -> (forall a, keeps (k a)) -> keeps (bind m k).
Proof.
  intros Hm Hk w. unfold bind.
  destruct (Hm w) as [H1 H2].
  destruct (m w) as [[a|e] w1]; simpl in *; [|auto].
  destruct (Hk a w1) as [H3 H4]. split; congruence.
Qed.

Lemma keeps_try_except {A} (m : M A) (h : exn -> M A) :
  keeps m -> (forall e, keeps (h e)) -> keeps (try_except m h).
Proof.
  intros Hm Hh w. unfold try_except.
  destruct (Hm w) as [H1 H2].
  destruct (m w) as [[a|e] w1]; simpl in *; [auto|].
  destruct (Hh e w1) as [H3 H4]. split; congruence.
Qed.

Lemma keeps_http_get (q : request) : keeps (http_get q).
Proof.
  intros w. unfold http_get.
  destruct (server w (length (requested w)) q); split; reflexivity.
Qed.

Lemma keeps_sleep (d : Q) : keeps (sleep d).
Proof. intros w. split; reflexivity. Qed.

Lemma keeps_query {A} (f : database -> A) : keeps (query f).
Proof. intros w. split; reflexivity. Qed.

Lemma keeps_execute (f : database -> database) :
  (forall d, imports (f d) = imports d) -> keeps (execute f).
Proof. intros H w. split; [apply H|reflexivity]. Qed.

Lemma keeps_raise_for_status (r : response) : keeps (raise_for_status r).
Proof.
  unfold raise_for_status.
  destruct ((400 <=? status_code r) && (status_code r <? 500)); [apply keeps_raise|].
  destruct ((500 <=? status_code r) && (status_code r <? 600));
    [apply keeps_raise|apply keeps_ret].
Qed.

Lemma keeps_tmdb_get_from (msg : string) (q : request) (left i : nat) :
  keeps (tmdb_get_from msg q i left).
Proof.
  revert i. induction left as [|left IH]; intros i; simpl.
  - apply keeps_raise.
  - apply keeps_bind; [apply keeps_http_get|]. intros r.
    destruct (status_code r =? 429).
    + apply keeps_bind; [apply keeps_sleep|]. intros _. apply IH.
    + apply keeps_bind; [apply keeps_raise_for_status|]. intros _. apply keeps_ret.
Qed.

Lemma keeps_map_m {A B} (f : A -> M B) (l : list A) :
  (forall x, keeps (f x)) -> keeps (map_m f l).
Proof.
  intros Hf. induction l as [|x r IH]; simpl; [apply keeps_ret|].
  apply keeps_bind; [apply Hf|]. intros y.
  apply keeps_bind; [apply IH|]. intros ys. apply keeps_ret.
Qed.

Lemma keeps_first_director_match (fetch : Z -> M (list string)) (director_q : string)
    (cands : list candidate) :
  (forall id, keeps (fetch id)) -> keeps (first_director_match fetch director_q cands).
Proof.
  intros Hf. induction cands as [|c rest IH]; simpl; [apply keeps_ret|].
  apply keeps_bind; [apply Hf|]. intros dirs.
  destruct (director_overlap director_q dirs); [apply keeps_ret|apply IH].
Qed.

Lemma keeps_br_get_directors (id : Z) : keeps (Br.get_directors_for_tmdb_id id).
Proof.
  unfold Br.get_directors_for_tmdb_id.
  apply keeps_bind; [apply keeps_tmdb_get_from|]. intros j. apply keeps_ret.
Qed.

Lemma atomic_raise (b : bool) (iid : Z) (e : exn) : atomic b iid (raise e).
Proof. intros w. reflexivity. Qed.

(** The end of a transaction: one write to the row, then the commit. *)
Lemma atomic_commit (b : bool) (iid : Z) (f : import_row -> import_row) :
  row_update b f -> atomic b iid (execute (update_import iid f) ;; commit).
Proof. intros Hf w. simpl. split; [reflexivity|]. exists f. auto. Qed.

Lemma atomic_commit_sleep (b : bool) (iid : Z) (f : import_row -> import_row) (pause : Q) :
  row_update b f ->
  atomic b iid (execute (update_import iid f) ;; commit ;; sleep pause).
Proof. intros Hf w. simpl. split; [reflexivity|]. exists f. auto. Qed.

Lemma atomic_bind {A} (b : bool) (iid : Z) (m : M A) (k : A -> M unit) :
  keeps m -> (forall a, atomic b iid (k a)) -> atomic b iid (bind m k).
Proof.
  intros Hm Hk w. unfold bind.
  destruct (Hm w) as [H1 H2].
  destruct (m w) as [[a|e] w1]; simpl in *; [|exact H2].
  specialize (Hk a w1).
  destruct (k a w1) as [[u|e] w2].
  - destruct Hk as [Hc (f & Hf & Hi)]. split; [exact Hc|].
    exists f. split; [exact Hf|]. rewrite Hi. unfold update_import. simpl.
    rewrite H1. reflexivity.
  - congruence.
Qed.

Lemma br_match_body_atomic (pause : Q) (it : import_row) :
  atomic false (import_id it) (Br.match_body pause it).
Proof.
  unfold Br.match_body. cbv zeta.
  apply atomic_bind; [apply keeps_tmdb_get_from|]. intros search.
  destruct (get_results search) as [|c0 results'].
  { apply atomic_commit_sleep. constructor; discriminate. }
  destruct (sort_desc fst _) as [|[best_score best] others];
    [apply atomic_raise|].
  apply atomic_bind.
  - destruct (_ && _); [|apply keeps_ret].
    apply keeps_bind.
    + apply keeps_first_director_match. apply keeps_br_get_directors.
    + intros [c|]; apply keeps_ret.
  - intros [[chosen ambiguous] note].
    destruct ambiguous; apply atomic_commit_sleep; constructor; discriminate.
Qed.
Lemma keeps_upsert_film (j : json) : keeps (upsert_film j).
Proof.
  unfold upsert_film.
  apply keeps_bind.
  { unfold details_item. destruct j; try apply keeps_raise. apply keeps_ret. }
  intros d. apply keeps_bind.
  { unfold year_of. destruct (match m_release_date d with
                              | Some rd => if Py.truthy rd then Some rd else None
                              | None => None
                              end) as [rd|]; [|apply keeps_ret].
    destruct (Py.truthy rd); [|apply keeps_ret].
    apply keeps_bind; [|intros y; apply keeps_ret].
    unfold int_of_str.
    destruct (match int_rstrip (int_lstrip (Py.slice_to 4 rd)) with
              | String "+" r => digits_value 0 false r
              | String "-" r => option_map Z.opp (digits_value 0 false r)
              | _ => digits_value 0 false (int_rstrip (int_lstrip (Py.slice_to 4 rd)))
              end); [apply keeps_ret|apply keeps_raise]. }
  intros year. apply keeps_bind; [apply keeps_query|]. intros db0.
  destruct (upsert _ _ _ _ _) as [rows fid].
  apply keeps_bind; [apply keeps_execute; reflexivity|]. intros _. apply keeps_ret.
Qed.

Lemma keeps_upsert_genres (film : Z) (gs : list genre_json) : keeps (upsert_genres film gs).
Proof.
  induction gs as [|g rest IH]; simpl; [apply keeps_ret|].
  apply keeps_bind.
  { unfold genre_items. destruct (g_id g); [|apply keeps_raise].
    destruct (g_name g); [apply keeps_ret|apply keeps_raise]. }
  intros [gid gname]. apply keeps_bind; [apply keeps_query|]. intros db0.
  destruct (upsert _ _ _ _ _) as [rows genre].
  apply keeps_bind; [apply keeps_execute; reflexivity|]. intros _.
  apply keeps_bind; [apply keeps_execute; reflexivity|]. intros _.
  apply IH.
Qed.

Lemma br_apply_body_atomic (pause : Q) (source : Z) (it : import_row) :
  atomic true (import_id it) (BrApply.apply_body pause source it).
Proof.
  unfold BrApply.apply_body. cbv zeta.
  apply atomic_bind; [apply keeps_tmdb_get_from|]. intros details.
  apply atomic_bind; [apply keeps_upsert_film|]. intros film.
  apply atomic_bind; [apply keeps_upsert_genres|]. intros _.
  apply atomic_bind; [apply keeps_execute; reflexivity|]. intros _.
  apply atomic_bind; [apply keeps_execute; reflexivity|]. intros _.
  apply atomic_commit_sleep. constructor. reflexivity.
Qed.

Lemma keeps_nas_directors (id : Z) : keeps (Nas.tmdb_directors_for_movie id).
Proof.
  unfold Nas.tmdb_directors_for_movie.
  apply keeps_bind; [apply keeps_tmdb_get_from|]. intros j. apply keeps_ret.
Qed.

Lemma keeps_score_by_director (pause : Q) (raw_dir : string) (cands : list candidate) :
  keeps (Nas.score_by_director pause raw_dir cands).
Proof.
  induction cands as [|c rest IH]; simpl; [apply keeps_ret|].
  apply keeps_bind; [apply keeps_nas_directors|]. intros dirs.
  apply keeps_bind; [apply keeps_sleep|]. intros _.
  apply keeps_bind; [apply IH|]. intros others. apply keeps_ret.
Qed.

Lemma nas_match_body_atomic (pause : Q) (it : import_row) :
  atomic false (import_id it) (Nas.match_body pause it).
Proof.
  unfold Nas.match_body. cbv zeta.
  apply atomic_bind.
  { unfold Nas.tmdb_search_movie.
    apply keeps_bind; [apply keeps_tmdb_get_from|]. intros j. apply keeps_ret. }
  intros results.
  assert (Hamb : forall cands,
            atomic false (import_id it) (Nas.mark_ambiguous (import_id it) cands)).
  { intros cands. apply atomic_commit. constructor; discriminate. }
  destruct results as [|c0 results'].
  { apply atomic_commit. constructor; discriminate. }
  destruct (firstn 5 (c0 :: results')) as [|only [|second rest]] eqn:Hc.
  - destruct (Py.truthy _); [|apply Hamb].
    apply atomic_bind; [apply keeps_score_by_director|]. intros scored.
    destruct (sort_desc _ scored) as [|[[best_score best_id] best_dirs] others];
      [apply atomic_raise|].
    destruct (best_score =? 1); [|apply Hamb].
    apply atomic_commit. constructor; discriminate.
  - apply atomic_commit_sleep. constructor; discriminate.
  - destruct (Py.truthy _); [|apply Hamb].
    apply atomic_bind; [apply keeps_score_by_director|]. intros scored.
    destruct (sort_desc _ scored) as [|[[best_score best_id] best_dirs] others];
      [apply atomic_raise|].
    destruct (best_score =? 1); [|apply Hamb].
    apply atomic_commit. constructor; discriminate.
Qed.

Lemma keeps_seen_get_directors (id : Z) : keeps (Seen.get_directors id).
Proof.
  unfold Seen.get_directors.
  apply keeps_bind; [apply keeps_tmdb_get_from|]. intros j.
  apply keeps_map_m. intros c.
  apply keeps_bind; [|intros n; apply keeps_ret].
  unfold name_item. destruct (cm_name c); [apply keeps_ret|apply keeps_raise].
Qed.

Lemma seen_match_body_atomic (pause : Q) (r : import_row) :
  atomic false (import_id r) (Seen.match_body pause r).
Proof.
  unfold Seen.match_body. cbv zeta.
  apply atomic_bind; [apply keeps_tmdb_get_from|]. intros search.
  destruct (get_results search) as [|c0 results'].
  { apply atomic_commit. constructor; discriminate. }
  destruct (sort_desc fst _) as [|[best_score best] others];
    [apply atomic_raise|].
  apply atomic_bind.
  - destruct (match others with [] => false | _ => _ end); [|apply keeps_ret].
    apply keeps_bind.
    + apply keeps_first_director_match. apply keeps_seen_get_directors.
    + intros [c|]; apply keeps_ret.
  - intros [[chosen ambiguous] note].
    destruct ambiguous; apply atomic_commit_sleep; constructor; discriminate.
Qed.

Lemma keeps_watchlist_do_search (q : option string) : keeps (Watchlist.do_search q).
Proof.
  unfold Watchlist.do_search.
  apply keeps_bind; [apply keeps_tmdb_get_from|]. intros j. apply keeps_ret.
Qed.

Lemma keeps_watchlist_fetch (id : Z) :
  keeps (try_except (Watchlist.get_directors id) (fun _ => ret [])).
Proof.
  apply keeps_try_except; [|intros e; apply keeps_ret].
  unfold Watchlist.get_directors.
  apply keeps_bind; [apply keeps_tmdb_get_from|]. intros j. apply keeps_ret.
Qed.

Lemma watchlist_match_body_atomic (pause : Q) (it : import_row) :
  atomic false (import_id it) (Watchlist.match_body pause it).
Proof.
  unfold Watchlist.match_body. cbv zeta.
  apply atomic_bind; [apply keeps_watchlist_do_search|]. intros results.
  apply atomic_bind.
  { destruct results; [|apply keeps_ret].
    destruct (_ && _); [|apply keeps_ret].
    apply keeps_bind; [apply keeps_watchlist_do_search|]. intros r2. apply keeps_ret. }
  intros [results2 used_q].
  destruct results2 as [|c0 rest].
  { apply atomic_commit. constructor; discriminate. }
  destruct (Watchlist.pick_best _ _ _) as [[best|] best_score]; [|apply atomic_raise].
  apply atomic_bind.
  - destruct (_ && _); [|apply keeps_ret].
    apply keeps_bind.
    + apply keeps_first_director_match. apply keeps_watchlist_fetch.
    + intros [c|]; [destruct (negb _)|]; apply keeps_ret.
  - intros [[chosen_id ambiguous] note].
    apply atomic_commit_sleep. constructor. destruct ambiguous; discriminate.
Qed.

Lemma keeps_seen_upsert_film (j : json) : keeps (SeenApply.upsert_film j).
Proof.
  unfold SeenApply.upsert_film.
  apply keeps_bind.
  { unfold details_item. destruct j; try apply keeps_raise. apply keeps_ret. }
  intros d. apply keeps_bind.
  { unfold year_of. destruct (m_release_date d) as [rd|]; [|apply keeps_ret].
    destruct (Py.truthy rd); [|apply keeps_ret].
    apply keeps_bind; [|intros y; apply keeps_ret].
    unfold int_of_str.
    destruct (match int_rstrip (int_lstrip (Py.slice_to 4 rd)) with
              | String "+" r => digits_value 0 false r
              | String "-" r => option_map Z.opp (digits_value 0 false r)
              | _ => digits_value 0 false (int_rstrip (int_lstrip (Py.slice_to 4 rd)))
              end); [apply keeps_ret|apply keeps_raise]. }
  intros year. apply keeps_bind; [apply keeps_query|]. intros db0.
  destruct (upsert _ _ _ _ _) as [rows fid].
  apply keeps_bind; [apply keeps_execute; reflexivity|]. intros _. apply keeps_ret.
Qed.

Lemma seen_apply_body_atomic (pause : Q) (r : import_row) :
  atomic true (import_id r) (SeenApply.apply_body pause r).
Proof.
  unfold SeenApply.apply_body. cbv zeta.
  apply atomic_bind.
  { unfold tmdb_get_once.
    apply keeps_bind; [apply keeps_http_get|]. intros resp.
    apply keeps_bind; [apply keeps_raise_for_status|]. intros _. apply keeps_ret. }
  intros details.
  apply atomic_bind; [apply keeps_seen_upsert_film|]. intros film.
  apply atomic_bind; [apply keeps_execute; reflexivity|]. intros _.
  apply atomic_bind.
  { destruct (SeenApply.normalize_date _);
      [apply keeps_execute; reflexivity|apply keeps_ret]. }
  intros _.
  apply atomic_commit_sleep. apply update_marker. reflexivity.
Qed.



(** The rows of the other records survive any [row_update] of the rows
    [iid]. *)
Lemma row_update_id (b : bool) (f : import_row -> import_row) (r : import_row) :
  row_update b f -> import_id (f r) = import_id r.
Proof. intros []; reflexivity. Qed.

Lemma other_rows_update (b : bool) (iid : Z) (f : import_row -> import_row)
    (d : database) (l : list import_row) :
  row_update b f -> l = imports (update_import iid f d) ->
  filter (fun r => negb (import_id r =? iid)) l = other_rows iid d.
Proof.
  intros Hf ->. unfold other_rows, update_import. simpl.
  induction (imports d) as [|r rest IH]; simpl; [reflexivity|].
  destruct (import_id r =? iid) eqn:Hr; simpl.
  - rewrite (row_update_id b f r Hf), Hr. simpl. exact IH.
  - rewrite Hr. simpl. rewrite IH. reflexivity.
Qed.

(** A record treated under [try: ... except Exception], when the [try]
    block is [atomic]: no exception escapes; the transaction ends
    committed; either the block returned, and the staging table differs by
    one update of the record's row, or it raised [e], and the state is the
    last committed one with the record in ERROR and the note [note e]. *)
Lemma row_isolated (b : bool) (iid : Z) (body : M unit) (note : exn -> string)
    (w : world) :
  atomic b iid body ->
  let handler := fun e =>
    rollback ;; execute (update_import iid (set_status_note ERROR (note e))) ;; commit in
  fst (try_except body handler w) = Ok tt
  /\ committed (snd (try_except body handler w)) = db (snd (try_except body handler w))
  /\ (forall e w1, body w = (Raise e, w1) ->
        committed w1 = committed w
        /\ try_except body handler w
           = (Ok tt, settled (update_import iid (set_status_note ERROR (note e))) w1))
  /\ (imports (db w) = imports (committed w) ->
      other_rows iid (committed (snd (try_except body handler w)))
      = other_rows iid (committed w)).
Proof.
  intros Hat handler. specialize (Hat w). unfold try_except.
  destruct (body w) as [[[]|e] w1].
  - destruct Hat as [Hc (f & Hf & Hi)]. simpl.
    split; [reflexivity|]. split; [exact Hc|]. split; [intros e w2 [=]|].
    intros Hclean. rewrite Hc. unfold other_rows at 1. rewrite Hi.
    rewrite (other_rows_update b iid f (db w) _ Hf eq_refl).
    unfold other_rows. rewrite Hclean. reflexivity.
  - simpl. split; [reflexivity|]. split; [reflexivity|]. split.
    + intros e' w2 [= <- <-]. split; [exact Hat|reflexivity].
    + intros _. rewrite Hat.
      apply (other_rows_update b iid (set_status_note ERROR (note e)) (committed w));
        [constructor; discriminate|reflexivity].
Qed.
Lemma for_each_total (row : import_row -> M unit) (l : list import_row) (w : world) :
  (forall it w', fst (row it w') = Ok tt) -> fst (for_each l row w) = Ok tt.
Proof.
  intros H. revert w. induction l as [|x r IH]; intros w; simpl; [reflexivity|].
  unfold bind. specialize (H x w). destruct (row x w) as [[[]|e] w1]; simpl in H.
  - apply IH.
  - discriminate.
Qed.





(** ** The invariant on the external id *)

(** What a record treated under [try: ... except Exception] leaves in the
    staging table: one update of its row, made on the state of the open
    transaction, or the ERROR update made on the last committed state. *)
Lemma row_outcome (b : bool) (iid : Z) (body : M unit) (note : exn -> string)
    (w : world) :
  atomic b iid body ->
  let handler := fun e =>
    rollback ;; execute (update_import iid (set_status_note ERROR (note e))) ;; commit in
  committed (snd (try_except body handler w)) = db (snd (try_except body handler w))
  /\ ((exists f, row_update b f
                 /\ imports (db (snd (try_except body handler w)))
                    = imports (update_import iid f (db w)))
      \/ (exists e, imports (db (snd (try_except body handler w)))
                    = imports (update_import iid (set_status_note ERROR (note e))
                                 (committed w)))).
Proof.
  intros Hat handler. specialize (Hat w). unfold try_except.
  destruct (body w) as [[[]|e] w1].
  - destruct Hat as [Hc (f & Hf & Hi)]. simpl. split; [exact Hc|]. left. eauto.
  - simpl. split; [reflexivity|]. right. exists e. rewrite Hat. reflexivity.
Qed.

Lemma update_keeps_id_when_matched (b : bool) (iid : Z) (f : import_row -> import_row)
    (d : database) :
  row_update b f ->
  Forall id_when_matched (imports d) ->
  (b = true -> forall r, In r (imports d) -> import_id r = iid -> tmdb_id r <> None) ->
  Forall id_when_matched (imports (update_import iid f d)).
Proof.
  intros Hf Hinv Hpre. unfold update_import. simpl.
  apply Forall_forall. intros r' Hin. apply in_map_iff in Hin as (r & <- & Hr).
  rewrite Forall_forall in Hinv.
  destruct (Z.eqb_spec (import_id r) iid) as [Hid|_]; [|auto].
  destruct Hf as [st note H1 H2|st tid note H1|Hb|Hb]; unfold id_when_matched; simpl.
  - intros [?|?]; contradiction.
  - intros _. discriminate.
  - intros _. apply (Hpre Hb r Hr Hid).
  - intros _. apply (Hpre Hb r Hr Hid).
Qed.

Lemma error_keeps_id_when_matched (iid : Z) (note : string) (d : database) :
  Forall id_when_matched (imports d) ->
  Forall id_when_matched (imports (update_import iid (set_status_note ERROR note) d)).
Proof.
  intros H. apply (update_keeps_id_when_matched false); auto.
  - constructor; discriminate.
  - discriminate.
Qed.

Lemma row_keeps_id_when_matched (b : bool) (iid : Z) (body : M unit)
    (note : exn -> string) (w : world) :
  atomic b iid body ->
  Forall id_when_matched (imports (db w)) ->
  Forall id_when_matched (imports (committed w)) ->
  (b = true -> forall r, In r (imports (db w)) -> import_id r = iid -> tmdb_id r <> None) ->
  let w' := snd (try_except body
                   (fun e => rollback ;;
                             execute (update_import iid (set_status_note ERROR (note e))) ;;
                             commit) w) in
  Forall id_when_matched (imports (db w'))
  /\ Forall id_when_matched (imports (committed w')).
Proof.
  intros Hat Hdb Hco Hpre w'.
  destruct (row_outcome b iid body note w Hat) as [Hc [(f & Hf & Hi)|(e & Hi)]];
    fold w' in Hc, Hi; rewrite Hc, Hi.
  - assert (H : Forall id_when_matched (imports (update_import iid f (db w))))
      by (apply (update_keeps_id_when_matched b); assumption).
    split; exact H.
  - assert (H : Forall id_when_matched
                  (imports (update_import iid (set_status_note ERROR (note e))
                              (committed w))))
      by (apply error_keeps_id_when_matched; assumption).
    split; exact H.
Qed.

(** C6, as the code has it.  A row in MATCHED or APPLIED carries an external
    id, and the operations keep it so: matching and disambiguation (in the
    physical-media, NAS, seen-list and watchlist matchers), the error
    transition, and the apply of a row whose stored external id is set, as
    the appliers select it.  The converse is not kept (an apply failure
    leaves ERROR with the id, the NAS matcher writes AMBIGUOUS without
    one). *)
Theorem id_when_matched_preserved (pause : Q) (source : Z) (it : import_row) (w : world) :
  Forall id_when_matched (imports (db w)) ->
  Forall id_when_matched (imports (committed w)) ->
  (Forall id_when_matched (imports (db (snd (Br.match_row pause it w))))
   /\ Forall id_when_matched (imports (committed (snd (Br.match_row pause it w)))))
  /\ (Forall id_when_matched (imports (db (snd (Nas.match_row pause it w))))
      /\ Forall id_when_matched (imports (committed (snd (Nas.match_row pause it w)))))
  /\ ((forall r, In r (imports (db w)) -> import_id r = import_id it -> tmdb_id r <> None) ->
      Forall id_when_matched (imports (db (snd (BrApply.apply_row pause source it w))))
      /\ Forall id_when_matched
           (imports (committed (snd (BrApply.apply_row pause source it w)))))
  /\ (Forall id_when_matched (imports (db (snd (Seen.match_row pause it w))))
      /\ Forall id_when_matched (imports (committed (snd (Seen.match_row pause it w)))))
  /\ (Forall id_when_matched (imports (db (snd (Watchlist.match_row pause it w))))
      /\ Forall id_when_matched
           (imports (committed (snd (Watchlist.match_row pause it w)))))
  /\ ((forall r, In r (imports (db w)) -> import_id r = import_id it -> tmdb_id r <> None) ->
      Forall id_when_matched (imports (db (snd (SeenApply.apply_row pause it w))))
      /\ Forall id_when_matched
           (imports (committed (snd (SeenApply.apply_row pause it w))))).
Proof.
  intros Hdb Hco. split; [|split; [|split; [|split; [|split]]]].
  - apply (row_keeps_id_when_matched false (import_id it) (Br.match_body pause it)
             (fun e => "match: " ++ Py.slice_to 900 (exn_str e)) w);
      auto using br_match_body_atomic. discriminate.
  - apply (row_keeps_id_when_matched false (import_id it) (Nas.match_body pause it)
             (fun e => Py.slice_to 1000 (exn_str e)) w);
      auto using nas_match_body_atomic. discriminate.
  - intros Hpre.
    apply (row_keeps_id_when_matched true (import_id it)
             (BrApply.apply_body pause source it)
             (fun e => "apply: " ++ Py.slice_to 900 (exn_str e)) w);
      auto using br_apply_body_atomic.
  - apply (row_keeps_id_when_matched false (import_id it) (Seen.match_body pause it)
             (fun e => Py.slice_to 900 (exn_str e)) w);
      auto using seen_match_body_atomic. discriminate.
  - apply (row_keeps_id_when_matched false (import_id it) (Watchlist.match_body pause it)
             (fun e => Py.slice_to 900 (exn_str e)) w);
      auto using watchlist_match_body_atomic. discriminate.
  - intros Hpre.
    apply (row_keeps_id_when_matched true (import_id it)
             (SeenApply.apply_body pause it)
             (fun e => Py.slice_to 900 (exn_str e)) w);
      auto using seen_apply_body_atomic.
Qed.
Lemma id_when_matched_preserved_witness :
  Forall id_when_matched (imports (db (SampleApply.world_with [SampleApply.crime])))
  /\ tmdb_id SampleApply.matched_row <> None
  /\ Forall id_when_matched
       (imports (committed (snd (BrApply.apply_row (1 # 4) 1 SampleApply.matched_row
                                   (SampleApply.world_with [SampleApply.crime]))))).
Proof.
  assert (H : Forall id_when_matched (imports (db (SampleApply.world_with [SampleApply.crime])))).
  { constructor; [|constructor; [|constructor]]; intros _; discriminate. }
  split; [exact H|]. split; [discriminate|].
  refine (proj2 (proj1 (proj2 (proj2
            (id_when_matched_preserved (1 # 4) 1 SampleApply.matched_row
               (SampleApply.world_with [SampleApply.crime]) H H))) _)).
  intros r [<-|[<-|[]]] Hid; [discriminate|discriminate Hid].
Defined.

(** C6, as stated, fails on reachable rows.  After the physical-media
    matcher has matched a row, an apply that fails leaves it in ERROR with
    its external id; and the NAS matcher leaves a row AMBIGUOUS without any
    external id. *)
Lemma id_iff_resolved_broken :
  Forall id_iff_resolved (imports (committed SampleRuns.start))
  /\ Forall id_iff_resolved (imports (committed SampleRuns.matched))
  /\ map (fun r => (match_status r, tmdb_id r)) (imports (committed SampleRuns.failed))
     = [(ERROR, Some 949)]
  /\ ~ Forall id_iff_resolved (imports (committed SampleRuns.failed))
  /\ Forall id_iff_resolved (imports (committed SampleRuns.nas_start))
  /\ map (fun r => (match_status r, tmdb_id r)) (imports (committed SampleRuns.nas_matched))
     = [(AMBIGUOUS, None)]
  /\ ~ Forall id_iff_resolved (imports (committed SampleRuns.nas_matched)).
Proof.
  assert (Hno : forall r, tmdb_id r = None ->
                  match_status r <> MATCHED -> match_status r <> AMBIGUOUS ->
                  match_status r <> APPLIED -> id_iff_resolved r).
  { intros r H1 H2 H3 H4. split; [intros H; contradiction|].
    intros [?|[?|?]]; contradiction. }
  split.
  { constructor; [|constructor]. apply Hno; simpl; congruence. }
  split.
  { constructor; [|constructor].
    split; [intros _; simpl; auto|intros _; discriminate]. }
  split; [reflexivity|].
  split.
  { intros H. inversion H as [|r l Hr _]; subst.
    destruct Hr as [Hr _]. simpl in Hr.
    destruct (Hr ltac:(discriminate)) as [?|[?|?]]; discriminate. }
  split.
  { constructor; [|constructor]. apply Hno; simpl; congruence. }
  split; [reflexivity|].
  intros H. inversion H as [|r l Hr _]; subst.
  destruct Hr as [_ Hr]. simpl in Hr. apply Hr; auto.
Qed.


(** ** Applier *)

Lemma count_map {R} (p : R -> bool) (g : R -> R) (l : list R) :
  (forall r, p (g r) = p r) -> count p (map g l) = count p l.
Proof.
  intros H. unfold count. induction l as [|r rest IH]; simpl; [reflexivity|].
  rewrite H. destruct (p r); simpl; rewrite IH; reflexivity.
Qed.

Lemma count_app {R} (p : R -> bool) (l1 l2 : list R) :
  count p (l1 ++ l2) = (count p l1 + count p l2)%nat.
Proof. unfold count. rewrite filter_app, length_app. reflexivity. Qed.

Lemma count_none {R} (p : R -> bool) (l : list R) :
  (forall r, In r l -> p r = false) -> count p l = 0%nat.
Proof.
  unfold count. induction l as [|r rest IH]; simpl; intros H; [reflexivity|].
  rewrite (H r) by auto. apply IH. intros r' Hr'. apply H. auto.
Qed.

Lemma count_in {R} (p : R -> bool) (l : list R) (r : R) :
  In r l -> p r = true -> (1 <= count p l)%nat.
Proof.
  unfold count. induction l as [|x rest IH]; simpl; intros Hin Hp; [contradiction|].
  destruct Hin as [->|Hin].
  - rewrite Hp. simpl. lia.
  - specialize (IH Hin Hp). destruct (p x); simpl; lia.
Qed.

(** After an upsert the key is held by exactly one row, provided it was
    held by one row at most. *)
Lemma upsert_count {R} (same : R -> bool) (merge : R -> R) (ident : R -> Z)
    (fresh : Z -> R) (rows : list R) :
  (forall r, same r = true -> same (merge r) = true) ->
  (forall i, same (fresh i) = true) ->
  (count same rows <= 1)%nat ->
  count same (fst (upsert same merge ident fresh rows)) = 1%nat.
Proof.
  intros Hmerge Hfresh Hle. unfold upsert.
  destruct (find same rows) as [old|] eqn:Hfind; simpl.
  - apply find_some in Hfind as [Hin Hold].
    pose proof (count_in same rows old Hin Hold).
    rewrite count_map; [lia|].
    intros r. destruct (same r) eqn:Hr; auto.
  - rewrite count_app, (count_none same rows).
    + unfold count. simpl. rewrite Hfresh. reflexivity.
    + intros r Hr. apply (find_none _ _ Hfind r Hr).
Qed.


Lemma find_app_fresh {R} (same : R -> bool) (rows : list R) (x : R) :
  find same rows = None -> same x = true -> find same (rows ++ [x]) = Some x.
Proof.
  intros Hfind Hx. induction rows as [|r rest IH]; simpl in *; [rewrite Hx; reflexivity|].
  destruct (same r); [discriminate|auto].
Qed.




Lemma ensure_source_br (w : world) :
  ensure_source "BR" "Blu-ray / Physique" w
  = (Ok (snd (br_source_upsert (sources (db w)))),
     with_db (with_sources (db w) (fst (br_source_upsert (sources (db w))))) w).
Proof.
  unfold ensure_source, bind, query.
  change (upsert _ _ _ _ (sources (db w))) with (br_source_upsert (sources (db w))).
  destruct (br_source_upsert (sources (db w))) as [rows sid]. reflexivity.
Qed.

Lemma year_of_ok (d : movie) (w : world) :
  release_ok d ->
  exists y,
    year_of (match m_release_date d with
             | Some rd => if Py.truthy rd then Some rd else None
             | None => None
             end) w = (Ok y, w).
Proof.
  unfold release_ok, year_of.
  destruct (m_release_date d) as [rd|]; [|intros _; exists None; reflexivity].
  destruct (Py.truthy rd) eqn:Hrd; [|intros _; exists None; reflexivity].
  intros H. destruct (H eq_refl) as [y Hy]. rewrite Hrd.
  exists (Some y). unfold bind. rewrite Hy. reflexivity.
Qed.











(** ** The simplified query of the watchlist matcher *)

Lemma alnum_not_space (c : ascii) : is_alnum c = true -> Py.isspace c = false.
Proof. each_char c. Qed.

Lemma alnum_alnum_space (c : ascii) : is_alnum c = true -> is_alnum_space c = true.
Proof. each_char c. Qed.

Lemma alnum_not_separator (c : ascii) :
  is_alnum_space c = true -> ((c =? ":")%char || (c =? "-")%char) = false.
Proof. each_char c. Qed.

Lemma alnum_space_cases (c : ascii) :
  is_alnum_space c = true -> is_alnum c = true \/ c = " "%char.
Proof. each_char c. Qed.

(** A word as [re.findall(r"[a-z0-9]+", t)] returns them. *)
Lemma all_chars_app (p : ascii -> bool) (a b : string) :
  Py.all_chars p (a ++ b) = Py.all_chars p a && Py.all_chars p b.
Proof.
  induction a as [|c r IH]; simpl; [reflexivity|].
  rewrite IH, andb_assoc. reflexivity.
Qed.

Lemma truthy_app_char (cur : string) (c : ascii) :
  Py.truthy (cur ++ String c EmptyString) = true.
Proof. destruct cur; reflexivity. Qed.

Lemma findall_words_from_words (t cur : string) :
  Py.all_chars is_alnum cur = true ->
  Forall (fun w => Py.truthy w = true /\ Py.all_chars is_alnum w = true)
         (findall_words_from cur t).
Proof.
  revert cur. induction t as [|c r IH]; intros cur Hcur; simpl.
  - destruct (Py.truthy cur) eqn:E; constructor; auto.
  - destruct (is_alnum c) eqn:Hc.
    + apply IH. rewrite all_chars_app, Hcur. simpl. rewrite Hc. reflexivity.
    + destruct (Py.truthy cur) eqn:E; [constructor; auto|]; apply IH; reflexivity.
Qed.

Lemma append_empty_r (s : string) : s ++ "" = s.
Proof. induction s as [|c r IH]; simpl; congruence. Qed.

Lemma append_assoc (a b c : string) : (a ++ b) ++ c = a ++ (b ++ c).
Proof. induction a as [|x r IH]; simpl; congruence. Qed.

Lemma findall_words_from_word (w rest cur : string) :
  Py.all_chars is_alnum w = true ->
  findall_words_from cur (w ++ rest) = findall_words_from (cur ++ w) rest.
Proof.
  revert cur. induction w as [|c r IH]; intros cur H; simpl in *.
  - rewrite append_empty_r. reflexivity.
  - apply andb_true_iff in H as [Hc Hr]. rewrite Hc, IH by exact Hr.
    rewrite append_assoc. reflexivity.
Qed.

Lemma findall_words_join (ws : list string) :
  Forall (fun w => Py.truthy w = true /\ Py.all_chars is_alnum w = true) ws ->
  findall_words (Py.join " " ws) = ws.
Proof.
  unfold findall_words.
  induction 1 as [|w ws [Hw Ha] Hws IH]; [reflexivity|].
  destruct ws as [|w' ws'].
  - simpl Py.join. rewrite <- (append_empty_r w) at 1.
    rewrite findall_words_from_word by exact Ha. simpl. rewrite Hw. reflexivity.
  - change (Py.join " " (w :: w' :: ws')) with (w ++ String " " (Py.join " " (w' :: ws'))).
    rewrite findall_words_from_word by exact Ha.
    simpl append at 1. cbn [findall_words_from].
    change (is_alnum " ") with false. cbv iota. rewrite Hw, IH. reflexivity.
Qed.

Lemma rstrip_word (w : string) :
  Py.all_chars is_alnum w = true -> Py.rstrip w = w.
Proof.
  induction w as [|c r IH]; simpl; intros H; [reflexivity|].
  apply andb_true_iff in H as [Hc Hr]. rewrite IH by exact Hr.
  destruct r; [rewrite (alnum_not_space c Hc)|]; reflexivity.
Qed.

Lemma rstrip_app_stable (a b : string) :
  Py.rstrip b = b -> Py.truthy b = true -> Py.rstrip (a ++ b) = a ++ b.
Proof.
  intros Hb Ht. induction a as [|c r IH]; simpl; [exact Hb|].
  rewrite IH. destruct (r ++ b) eqn:E; [|reflexivity].
  destruct r; simpl in E; [subst b|]; discriminate.
Qed.

Lemma join_words_truthy (w : string) (ws : list string) :
  Py.truthy w = true -> Py.truthy (Py.join " " (w :: ws)) = true.
Proof. destruct w; [discriminate|]. destruct ws; reflexivity. Qed.

Lemma rstrip_join_words (ws : list string) :
  Forall (fun w => Py.truthy w = true /\ Py.all_chars is_alnum w = true) ws ->
  Py.rstrip (Py.join " " ws) = Py.join " " ws.
Proof.
  induction 1 as [|w ws [Hw Ha] Hws IH]; [reflexivity|].
  destruct ws as [|w' ws']; [apply rstrip_word, Ha|].
  change (Py.join " " (w :: w' :: ws')) with (w ++ String " " (Py.join " " (w' :: ws'))).
  apply rstrip_app_stable.
  - change (String " " (Py.join " " (w' :: ws'))) with (" " ++ Py.join " " (w' :: ws')).
    apply rstrip_app_stable; [exact IH|].
    inversion Hws as [|? ? [Hw' _] _]; subst. apply join_words_truthy, Hw'.
  - reflexivity.
Qed.

Lemma starts_clean_join_words (ws : list string) :
  Forall (fun w => Py.truthy w = true /\ Py.all_chars is_alnum w = true) ws ->
  starts_clean (Py.join " " ws) = true.
Proof.
  intros H. destruct H as [|w ws [Hw Ha] _]; [reflexivity|].
  destruct w as [|c r]; [discriminate|].
  simpl in Ha. apply andb_true_iff in Ha as [Hc _].
  destruct ws; simpl; rewrite (alnum_not_space c Hc); reflexivity.
Qed.

Lemma strip_join_words (ws : list string) :
  Forall (fun w => Py.truthy w = true /\ Py.all_chars is_alnum w = true) ws ->
  Py.strip (Py.join " " ws) = Py.join " " ws.
Proof.
  intros H. unfold Py.strip.
  rewrite lstrip_clean by (apply starts_clean_join_words, H).
  apply rstrip_join_words, H.
Qed.

Lemma all_chars_weaken (p q : ascii -> bool) (s : string) :
  (forall c, p c = true -> q c = true) ->
  Py.all_chars p s = true -> Py.all_chars q s = true.
Proof.
  intros Hpq. induction s as [|c r IH]; simpl; [reflexivity|].
  intros H. apply andb_true_iff in H as [Hc Hr]. rewrite (Hpq c Hc), IH; auto.
Qed.

Lemma all_chars_join_words (ws : list string) :
  Forall (fun w => Py.truthy w = true /\ Py.all_chars is_alnum w = true) ws ->
  Py.all_chars is_alnum_space (Py.join " " ws) = true.
Proof.
  induction 1 as [|w ws [Hw Ha] Hws IH]; [reflexivity|].
  pose proof (all_chars_weaken _ _ w alnum_alnum_space Ha) as Hw'.
  destruct ws as [|w' ws']; [exact Hw'|].
  change (Py.join " " (w :: w' :: ws')) with (w ++ String " " (Py.join " " (w' :: ws'))).
  rewrite all_chars_app, Hw'. simpl Py.all_chars at 1.
  change (is_alnum_space " ") with true. exact IH.
Qed.

Lemma before_separator_alnum_space (s : string) :
  Py.all_chars is_alnum_space s = true -> before_separator s = s.
Proof.
  induction s as [|c r IH]; simpl; intros H; [reflexivity|].
  apply andb_true_iff in H as [Hc Hr].
  rewrite (alnum_not_separator c Hc), IH by exact Hr. reflexivity.
Qed.

Lemma Forall_firstn {A} (P : A -> Prop) (n : nat) (l : list A) :
  Forall P l -> Forall P (firstn n l).
Proof.
  intros H. revert n. induction H; intros [|n]; simpl; constructor; auto.
Qed.

Lemma Forall_filter {A} (P : A -> Prop) (p : A -> bool) (l : list A) :
  Forall P l -> Forall (fun x => P x /\ p x = true) (filter p l).
Proof.
  induction 1 as [|x l Hx Hl IH]; simpl; [constructor|].
  destruct (p x) eqn:E; [constructor|]; auto.
Qed.

Lemma filter_all {A} (p : A -> bool) (l : list A) :
  Forall (fun x => p x = true) l -> filter p l = l.
Proof. induction 1 as [|x l Hx Hl IH]; simpl; [|rewrite Hx, IH]; reflexivity. Qed.

(** The words of the simplified query. *)
Lemma simplify_title_words (title : option string) :
  exists ws,
    simplify_title title = Py.join " " ws
    /\ (length ws <= 5)%nat
    /\ Forall (fun w => (Py.truthy w = true /\ Py.all_chars is_alnum w = true)
                        /\ negb (in_stop w) = true) ws.
Proof.
  unfold simplify_title.
  set (t := before_separator _).
  exists (firstn 5 (filter (fun w => negb (in_stop w)) (findall_words t))).
  assert (H : Forall (fun w => (Py.truthy w = true /\ Py.all_chars is_alnum w = true)
                               /\ negb (in_stop w) = true)
                (firstn 5 (filter (fun w => negb (in_stop w)) (findall_words t)))).
  { apply Forall_firstn, Forall_filter, findall_words_from_words. reflexivity. }
  split; [|split; [apply firstn_le_length|exact H]].
  apply strip_join_words. eapply Forall_impl; [|exact H]. intros w [Hw _]; exact Hw.
Qed.

(** X1.  The simplified query of the watchlist matcher is made of at most
    five words separated by single spaces; each word is a non-empty run of
    [a-z0-9] that is not a stop word.  In particular it carries no bracket,
    no separator, no capital and no surrounding blank. *)
Theorem simplify_title_shape (title : option string) :
  exists ws,
    simplify_title title = Py.join " " ws
    /\ (length ws <= 5)%nat
    /\ Forall (fun w => w <> "" /\ Py.all_chars is_alnum w = true /\ ~ In w STOP) ws.
Proof.
  destruct (simplify_title_words title) as (ws & E & Hl & H).
  exists ws. split; [exact E|split; [exact Hl|]].
  eapply Forall_impl; [|exact H].
  intros w [[Hw Ha] Hs]. split; [|split; [exact Ha|]].
  - intros ->. discriminate.
  - intros Hin. apply negb_true_iff in Hs. unfold in_stop in Hs.
    assert (existsb (String.eqb w) STOP = true); [|congruence].
    apply existsb_exists. exists w. split; [exact Hin|apply String.eqb_refl].
Qed.

(** X2.  Simplifying is idempotent: the simplified query simplifies to
    itself, so the fallback search of a title that is already simplified is
    the search that was just made. *)
Theorem simplify_title_idempotent (title : option string) :
  simplify_title (Some (simplify_title title)) = simplify_title title.
Proof.
  destruct (simplify_title_words title) as (ws & E & Hl & H).
  assert (Hw : Forall (fun w => Py.truthy w = true /\ Py.all_chars is_alnum w = true) ws).
  { eapply Forall_impl; [|exact H]. intros w [Hw _]; exact Hw. }
  rewrite E. unfold simplify_title. simpl Py.or_empty.
  pose proof (all_chars_join_words ws Hw) as Ha.
  rewrite (lower_alnum_space _ Ha).
  unfold Py.sub_brackets. rewrite (sub_brackets_alnum_space _ Ha).
  rewrite (before_separator_alnum_space _ Ha).
  rewrite (findall_words_join ws Hw).
  rewrite filter_all by (eapply Forall_impl; [|exact H]; intros w [_ Hs]; exact Hs).
  rewrite firstn_all2 by exact Hl.
  apply strip_join_words, Hw.
Qed.


(** ** The shape of normalized text *)

(** X3.  A title normalized by the seen-list and watchlist matchers holds
    only [a-z], [0-9] and spaces, never two spaces in a row, and neither
    starts nor ends with a space. *)
Theorem norm_shape (t : option string) :
  Py.all_chars is_alnum_space (norm t) = true
  /\ spaced false (norm t) = true
  /\ Py.strip (norm t) = norm t.
Proof.
  unfold norm. split; [|split].
  - apply all_chars_strip, all_chars_sub_runs; [reflexivity|].
    apply all_chars_sub_runs_class. reflexivity.
  - unfold Py.strip. apply spaced_rstrip, spaced_lstrip with (b := false).
    apply spaced_sub_runs.
  - apply strip_idem.
Qed.

Lemma name_char_lower (c : ascii) :
  is_name_char c = true -> Py.lower_char c = c.
Proof. each_char c. Qed.

Lemma lower_name_chars (s : string) :
  Py.all_chars is_name_char s = true -> Py.lower s = s.
Proof.
  induction s as [|c r IH]; simpl; intros H; [reflexivity|].
  apply andb_true_iff in H as [Hc Hr].
  rewrite (name_char_lower c Hc), IH by exact Hr. reflexivity.
Qed.

Lemma sub_each_name_chars (s : string) :
  Py.all_chars is_name_char s = true ->
  Py.sub_each (fun c => negb (is_name_char c)) s = s.
Proof.
  induction s as [|c r IH]; simpl; intros H; [reflexivity|].
  apply andb_true_iff in H as [Hc Hr]. rewrite Hc, IH by exact Hr. reflexivity.
Qed.

Lemma all_chars_sub_each (good : ascii -> bool) (s : string) :
  good " "%char = true ->
  Py.all_chars good (Py.sub_each (fun c => negb (good c)) s) = true.
Proof.
  intros Hsp. induction s as [|c r IH]; simpl; [reflexivity|].
  destruct (good c) eqn:Hc; simpl; rewrite ?Hc, ?Hsp; exact IH.
Qed.

(** The text that [norm_name] returns for a non-empty name. *)
Lemma norm_name_text (s : string) :
  let u := Py.strip (Py.sub_runs Py.isspace
             (Py.sub_each (fun c => negb (is_name_char c)) (Py.strip (Py.lower s)))) in
  Py.all_chars is_name_char u = true
  /\ spaced false u = true
  /\ Py.strip u = u.
Proof.
  intros u. subst u. split; [|split].
  - apply all_chars_strip, all_chars_sub_runs; [reflexivity|].
    apply all_chars_sub_each. reflexivity.
  - unfold Py.strip at 1. apply spaced_rstrip, spaced_lstrip with (b := false).
    apply spaced_sub_runs.
  - apply strip_idem.
Qed.

(** X4.  The director names of the NAS matcher are normalized
    idempotently, and a normalized name holds only the characters the
    pattern keeps, with single spaces and no surrounding blank. *)
Theorem norm_name_idempotent (s : option string) :
  norm_name (Some (norm_name s)) = norm_name s
  /\ Py.all_chars is_name_char (norm_name s) = true
  /\ spaced false (norm_name s) = true.
Proof.
  destruct s as [s|]; [|repeat split; reflexivity].
  remember (norm_name (Some s)) as v eqn:Ev. unfold norm_name in Ev.
  destruct (Py.truthy s); [|subst v; repeat split; reflexivity].
  destruct (norm_name_text s) as (Ha & Hs & Hst).
  cbv zeta in Ha, Hs, Hst. rewrite <- Ev in Ha, Hs, Hst.
  split; [|split; assumption].
  unfold norm_name. destruct (Py.truthy v) eqn:Et; [|destruct v; [reflexivity|discriminate]].
  rewrite (lower_name_chars v Ha), Hst, (sub_each_name_chars v Ha).
  unfold Py.sub_runs. rewrite (sub_runs_spaced false v Hs). exact Hst.
Qed.


(** ** The format of a physical copy *)






(** ** Upserts keyed by the film *)

Lemma find_none_not_same {R} (same : R -> bool) (rows : list R) :
  find same rows = None -> Forall (fun r => same r = false) rows.
Proof.
  induction rows as [|r l IH]; simpl; [constructor|].
  destruct (same r) eqn:E; [discriminate|]. constructor; auto.
Qed.

Lemma map_not_same {R} (same : R -> bool) (g : R -> R) (rows : list R) :
  Forall (fun r => same r = false) rows ->
  map (fun r => if same r then g r else r) rows = rows.
Proof.
  induction 1 as [|r l Hr Hl IH]; simpl; [reflexivity|]. rewrite Hr, IH. reflexivity.
Qed.

Lemma find_map_const {R} (same : R -> bool) (row : R) (rows : list R) :
  same row = true ->
  find same (map (fun r => if same r then row else r) rows)
  = match find same rows with Some _ => Some row | None => None end.
Proof.
  intros Hrow. induction rows as [|r l IH]; simpl; [reflexivity|].
  destruct (same r) eqn:E; simpl; [rewrite Hrow; reflexivity|].
  rewrite E. exact IH.
Qed.

Lemma map_const_twice {R} (same : R -> bool) (row row' : R) (rows : list R) :
  same row = true ->
  map (fun r => if same r then row' else r) (map (fun r => if same r then row else r) rows)
  = map (fun r => if same r then row' else r) rows.
Proof.
  intros Hrow. rewrite map_map. apply map_ext. intros r.
  destruct (same r) eqn:E; [rewrite Hrow|rewrite E]; reflexivity.
Qed.

(** An upsert that writes the whole row absorbs the one made before it on
    the same key. *)
Lemma upsert_const_absorbs {R} (same : R -> bool) (ident : R -> Z) (row row' : R)
    (rows : list R) :
  same row = true -> same row' = true ->
  fst (upsert same (fun _ => row') ident (fun _ => row')
         (fst (upsert same (fun _ => row) ident (fun _ => row) rows)))
  = fst (upsert same (fun _ => row') ident (fun _ => row') rows).
Proof.
  intros Hrow Hrow'. unfold upsert at 2 3.
  destruct (find same rows) as [old|] eqn:Ef; cbn [fst].
  - unfold upsert. rewrite (find_map_const same row rows Hrow), Ef. cbn [fst].
    apply map_const_twice, Hrow.
  - unfold upsert. rewrite (find_app_fresh same rows row Ef Hrow).
    pose proof (find_none_not_same same rows Ef) as Hn.
    cbn [fst]. rewrite map_app, (map_not_same same _ rows Hn).
    simpl. rewrite Hrow. reflexivity.
Qed.

(** X6.  The physical copy of a film is one row that the last record
    applied for that film rewrites whole: the upsert absorbs the one made
    before it for the same film, it leaves the film with exactly one row
    when it had one at most, and a record without a number of copies
    counts for one copy. *)
Theorem physical_copy_last_wins (film : Z) (p p' : option string) (fs fs' : list string)
    (it it' : import_row) (d : database) :
  BrApply.upsert_physical_copy film p' fs' it'
    (BrApply.upsert_physical_copy film p fs it d)
  = BrApply.upsert_physical_copy film p' fs' it' d
  /\ find (fun r => pc_film_id r =? film)
          (physical_copies (BrApply.upsert_physical_copy film p fs it d))
     = Some {| pc_film_id := film; pc_format := p; pc_formats := fs;
               pc_copies := match copies it with Some n => n | None => 1 end;
               pc_ean_isbn13 := ean_isbn13 it;
               pc_number_of_discs := number_of_discs it;
               pc_notes := notes it |}
  /\ ((count (fun r => (pc_film_id r =? film)%Z) (physical_copies d) <= 1)%nat ->
      count (fun r => pc_film_id r =? film)
            (physical_copies (BrApply.upsert_physical_copy film p fs it d)) = 1%nat).
Proof.
  unfold BrApply.upsert_physical_copy.
  set (row := {| pc_film_id := film; pc_format := p |}).
  set (row' := {| pc_film_id := film; pc_format := p' |}).
  set (same := fun r => pc_film_id r =? film).
  assert (Hrow : same row = true) by apply Z.eqb_refl.
  assert (Hrow' : same row' = true) by apply Z.eqb_refl.
  split; [|split].
  - unfold with_physical_copies; cbn [physical_copies].
    rewrite (upsert_const_absorbs same pc_film_id row row' _ Hrow Hrow').
    reflexivity.
  - cbn [physical_copies with_physical_copies]. unfold upsert.
    destruct (find same (physical_copies d)) eqn:Ef; cbn [fst].
    + rewrite (find_map_const same row _ Hrow), Ef. reflexivity.
    + apply find_app_fresh; [exact Ef|exact Hrow].
  - intros Hle. cbn [physical_copies with_physical_copies].
    pose proof (upsert_count same (fun _ => row) pc_film_id (fun _ => row)
                  (physical_copies d)) as Hc.
    apply Hc; auto.
Qed.


(** ** The status of a film for the user *)

Lemma in_upsert {R} (same : R -> bool) (merge : R -> R) (ident : R -> Z)
    (fresh : Z -> R) (rows : list R) (r : R) :
  In r (fst (upsert same merge ident fresh rows)) ->
  (In r rows /\ same r = false)
  \/ (exists old, In old rows /\ same old = true /\ r = merge old)
  \/ (find same rows = None /\ exists i, r = fresh i).
Proof.
  unfold upsert. destruct (find same rows) as [old|] eqn:Ef; cbn [fst]; intros H.
  - apply in_map_iff in H as (x & E & Hx).
    destruct (same x) eqn:Es; [right; left; eauto|left; subst; auto].
  - apply in_app_or in H as [H|[<-|[]]].
    + left. split; [exact H|]. apply (find_none _ _ Ef r H).
    + right; right. eauto.
Qed.

Lemma upsert_has_key {R} (same : R -> bool) (merge : R -> R) (ident : R -> Z)
    (fresh : Z -> R) (rows : list R) :
  (forall r, same r = true -> same (merge r) = true) ->
  (forall i, same (fresh i) = true) ->
  exists r, In r (fst (upsert same merge ident fresh rows)) /\ same r = true.
Proof.
  intros Hm Hf. unfold upsert. destruct (find same rows) as [old|] eqn:Ef; cbn [fst].
  - apply find_some in Ef as [Hin Hs]. exists (merge old). split; [|auto].
    apply in_map_iff. exists old. rewrite Hs. auto.
  - exists (fresh (next_id (map ident rows))). split; [|auto].
    apply in_or_app. right. left. reflexivity.
Qed.

(** X7.  A film seen stays seen: the seen-list applier writes SEEN over any
    status, and the watchlist applier writes WANT except over SEEN.  So
    whichever of the two runs first for a film, the user's status of the
    film is SEEN after both; and the watchlist applier alone leaves a seen
    film as it is, row for row. *)
Theorem seen_status_wins (defaults : user_film_row) (film : Z) (rating : option Z)
    (watched : option string) (d : database) :
  let seen := SeenApply.upsert_user_film film rating watched in
  let want := WatchlistApply.upsert_user_film defaults film in
  (forall order, order = want (seen d) \/ order = seen (want d) ->
     (exists r, In r (user_films order) /\ is_user_film film r = true)
     /\ forall r, In r (user_films order) -> is_user_film film r = true ->
                  uf_status r = "SEEN")
  /\ ((forall r, In r (user_films d) -> is_user_film film r = true ->
                 uf_status r = "SEEN") ->
      (exists r, In r (user_films d) /\ is_user_film film r = true) ->
      want d = d).
Proof.
  intros seen want.
  assert (Hseen : forall d0 r, In r (user_films (seen d0)) ->
            is_user_film film r = true -> uf_status r = "SEEN").
  { intros d0 r Hin Hr. unfold seen, SeenApply.upsert_user_film in Hin.
    cbn [user_films with_user_films] in Hin.
    apply in_upsert in Hin as [[_ Hn]|[(old & _ & _ & ->)|(_ & i & ->)]];
      [|reflexivity|reflexivity].
    unfold is_user_film in Hr. unfold SeenApply.USER_ID in Hn. congruence. }
  assert (Hwant : forall d0 r,
            (forall x, In x (user_films d0) -> is_user_film film x = true ->
                       uf_status x = "SEEN") ->
            (exists x, In x (user_films d0) /\ is_user_film film x = true) ->
            In r (user_films (want d0)) ->
            is_user_film film r = true -> uf_status r = "SEEN").
  { intros d0 r Hall (x & Hx & Hxs) Hin Hr.
    unfold want, WatchlistApply.upsert_user_film in Hin.
    cbn [user_films with_user_films] in Hin.
    apply in_upsert in Hin as [[_ Hn]|[(old & Ho & Hos & ->)|(Hnone & _)]].
    - unfold is_user_film in Hr. unfold WatchlistApply.USER_ID in Hn. congruence.
    - cbn [uf_status]. rewrite (Hall old Ho Hos). reflexivity.
    - pose proof (find_none _ _ Hnone x Hx) as Hc.
      unfold is_user_film in Hxs. unfold WatchlistApply.USER_ID in Hc. congruence. }
  assert (Hkey_seen : forall d0,
            exists r, In r (user_films (seen d0)) /\ is_user_film film r = true).
  { intros d0. unfold seen, SeenApply.upsert_user_film.
    cbn [user_films with_user_films]. apply upsert_has_key.
    - intros r Hr. exact Hr.
    - intros _. cbn. rewrite Z.eqb_refl. reflexivity. }
  assert (Hkey_want : forall d0,
            exists r, In r (user_films (want d0)) /\ is_user_film film r = true).
  { intros d0. unfold want, WatchlistApply.upsert_user_film.
    cbn [user_films with_user_films]. apply upsert_has_key.
    - intros r Hr. exact Hr.
    - intros _. cbn. rewrite Z.eqb_refl. reflexivity. }
  split.
  - intros order [->| ->].
    + split; [apply Hkey_want|]. intros r. apply Hwant; [apply Hseen|apply Hkey_seen].
    + split; [apply Hkey_seen|]. intros r. apply Hseen.
  - intros Hall (x & Hx & Hxs).
    unfold want, WatchlistApply.upsert_user_film, upsert.
    destruct (find _ (user_films d)) as [old|] eqn:Ef.
    + cbn [fst]. replace (map _ (user_films d)) with (user_films d);
        [destruct d; reflexivity|].
      symmetry. rewrite <- (map_id (user_films d)) at 2. apply map_ext_in.
      intros r Hr. destruct (_ && _) eqn:Es; [|reflexivity].
      pose proof (Hall r Hr Es) as Hst.
      destruct r as [u f st ra fs ls rw]; cbn in *. subst st. reflexivity.
    + pose proof (find_none _ _ Ef x Hx) as Hc.
      unfold is_user_film in Hxs. unfold WatchlistApply.USER_ID in Hc. congruence.
Qed.


(** ** Runs *)

Lemma transaction_raise (P : (import_row -> import_row) -> Prop) (iid : Z) (e : exn) :
  transaction P iid (raise e).
Proof. intros w. reflexivity. Qed.

Lemma transaction_commit (P : (import_row -> import_row) -> Prop) (iid : Z)
    (f : import_row -> import_row) :
  P f -> transaction P iid (execute (update_import iid f) ;; commit).
Proof. intros Hf w. simpl. split; [reflexivity|]. exists f. auto. Qed.

Lemma transaction_commit_sleep (P : (import_row -> import_row) -> Prop) (iid : Z)
    (f : import_row -> import_row) (pause : Q) :
  P f -> transaction P iid (execute (update_import iid f) ;; commit ;; sleep pause).
Proof. intros Hf w. simpl. split; [reflexivity|]. exists f. auto. Qed.

Lemma transaction_bind {A} (P : (import_row -> import_row) -> Prop) (iid : Z)
    (m : M A) (k : A -> M unit) :
  keeps m -> (forall a, transaction P iid (k a)) -> transaction P iid (bind m k).
Proof.
  intros Hm Hk w. unfold bind.
  destruct (Hm w) as [H1 H2].
  destruct (m w) as [[a|e] w1]; simpl in *; [|exact H2].
  specialize (Hk a w1).
  destruct (k a w1) as [[u|e] w2].
  - destruct Hk as [Hc (f & Hf & Hi)]. split; [exact Hc|].
    exists f. split; [exact Hf|]. rewrite Hi. unfold update_import. simpl.
    rewrite H1. reflexivity.
  - congruence.
Qed.

(** The treatment of one record, from a session whose open transaction has
    not written to the staging table. *)
Lemma transaction_row (P : (import_row -> import_row) -> Prop) (iid : Z) (body : M unit)
    (note : exn -> string) (w : world) :
  transaction P iid body ->
  imports (db w) = imports (committed w) ->
  let w' := snd (try_except body
                   (fun e => rollback ;;
                             execute (update_import iid (set_status_note ERROR (note e))) ;;
                             commit) w) in
  fst (try_except body
         (fun e => rollback ;;
                   execute (update_import iid (set_status_note ERROR (note e))) ;;
                   commit) w) = Ok tt
  /\ committed w' = db w'
  /\ exists f, (P f \/ error_update f)
               /\ imports (db w') = imports (update_import iid f (db w)).
Proof.
  intros Ht Hclean. specialize (Ht w). unfold try_except.
  destruct (body w) as [[[]|e] w1]; cbn [fst snd].
  - destruct Ht as [Hc (f & Hf & Hi)]. split; [reflexivity|]. split; [exact Hc|].
    exists f. auto.
  - cbn. split; [reflexivity|]. split; [reflexivity|].
    exists (set_status_note ERROR (note e)). split; [right; eexists; reflexivity|].
    rewrite Ht, Hclean. reflexivity.
Qed.

Lemma Forall2_map_l {A B C} (Q : B -> C -> Prop) (g : A -> B) (l : list A) (l' : list C) :
  Forall2 Q (map g l) l' -> Forall2 (fun a c => Q (g a) c) l l'.
Proof.
  revert l'. induction l as [|a l IH]; intros l' H; inversion H; subst; constructor; auto.
Qed.

Lemma Forall2_refl_touched (P : (import_row -> import_row) -> Prop) (l : list import_row) :
  Forall2 (touched P []) l l.
Proof.
  induction l as [|r l IH]; constructor; [|exact IH].
  split; [reflexivity|]. split; [reflexivity|]. intros [].
Qed.

(** The loop over the selected records. *)
Lemma run_rows (P : (import_row -> import_row) -> Prop)
    (body row : import_row -> M unit) (note : exn -> string) :
  (forall f, P f -> forall r, import_id (f r) = import_id r) ->
  (forall it, transaction P (import_id it) (body it)) ->
  (forall it,
     row it
     = try_except (body it)
         (fun e => rollback ;;
                   execute (update_import (import_id it) (set_status_note ERROR (note e))) ;;
                   commit)) ->
  forall (items : list import_row) (w : world),
    imports (db w) = imports (committed w) ->
    fst (for_each items row w) = Ok tt
    /\ imports (db (snd (for_each items row w)))
       = imports (committed (snd (for_each items row w)))
    /\ Forall2 (touched P (map import_id items))
               (imports (db w)) (imports (db (snd (for_each items row w)))).
Proof.
  intros Hid Hbody Hrow items.
  induction items as [|it rest IH]; intros w Hclean.
  - cbn. split; [reflexivity|]. split; [exact Hclean|]. apply Forall2_refl_touched.
  - cbn [for_each]. unfold bind.
    destruct (transaction_row P (import_id it) (body it) note w (Hbody it) Hclean)
      as (Hok & Hc & f & Hf & Hi).
    rewrite <- Hrow in Hok, Hc, Hi.
    destruct (row it w) as [[[]|e] w1]; cbn [fst snd] in *; [|discriminate].
    assert (Hclean1 : imports (db w1) = imports (committed w1)) by (rewrite Hc; reflexivity).
    destruct (IH w1 Hclean1) as (Hok' & Hc' & Hrest).
    split; [exact Hok'|]. split; [exact Hc'|].
    rewrite Hi in Hrest. unfold update_import in Hrest. cbn [imports with_imports] in Hrest.
    apply Forall2_map_l in Hrest.
    eapply Forall2_impl; [|exact Hrest].
    intros r r' (Hr1 & Hr2 & Hr3). cbn beta in *.
    assert (Hidf : forall x, import_id (f x) = import_id x).
    { destruct Hf as [Hf|(n & ->)]; [apply Hid, Hf|reflexivity]. }
    assert (Hsame : import_id (if import_id r =? import_id it then f r else r)
                    = import_id r).
    { destruct (import_id r =? import_id it); [apply Hidf|reflexivity]. }
    rewrite Hsame in *. split; [exact Hr1|]. split.
    + intros Hn. cbn [map In] in Hn.
      rewrite Hr2 by tauto.
      destruct (Z.eqb_spec (import_id r) (import_id it)) as [E|_]; [|reflexivity].
      exfalso. apply Hn. left. symmetry. exact E.
    + intros Hin.
      destruct (in_dec Z.eq_dec (import_id r) (map import_id rest)) as [Hr|Hr];
        [exact (Hr3 Hr)|].
      rewrite (Hr2 Hr). destruct Hin as [E|Hin]; [|contradiction].
      rewrite <- E, Z.eqb_refl. exists f, r. auto.
Qed.


Lemma br_match_body_transaction (pause : Q) (it : import_row) :
  transaction match_update (import_id it) (Br.match_body pause it).
Proof.
  unfold Br.match_body. cbv zeta.
  apply transaction_bind; [apply keeps_tmdb_get_from|]. intros search.
  destruct (get_results search) as [|c0 results'].
  { apply transaction_commit_sleep. constructor; auto. }
  destruct (sort_desc fst _) as [|[best_score best] others];
    [apply transaction_raise|].
  apply transaction_bind.
  - destruct (_ && _); [|apply keeps_ret].
    apply keeps_bind.
    + apply keeps_first_director_match. apply keeps_br_get_directors.
    + intros [c|]; apply keeps_ret.
  - intros [[chosen ambiguous] note].
    destruct ambiguous; apply transaction_commit_sleep; constructor; auto.
Qed.

Lemma seen_match_body_transaction (pause : Q) (r : import_row) :
  transaction match_update (import_id r) (Seen.match_body pause r).
Proof.
  unfold Seen.match_body. cbv zeta.
  apply transaction_bind; [apply keeps_tmdb_get_from|]. intros search.
  destruct (get_results search) as [|c0 results'].
  { apply transaction_commit. constructor; auto. }
  destruct (sort_desc fst _) as [|[best_score best] others];
    [apply transaction_raise|].
  apply transaction_bind.
  - destruct (match others with [] => false | _ => _ end); [|apply keeps_ret].
    apply keeps_bind.
    + apply keeps_first_director_match. apply keeps_seen_get_directors.
    + intros [c|]; apply keeps_ret.
  - intros [[chosen ambiguous] note].
    destruct ambiguous; apply transaction_commit_sleep; constructor; auto.
Qed.

Lemma watchlist_match_body_transaction (pause : Q) (it : import_row) :
  transaction match_update (import_id it) (Watchlist.match_body pause it).
Proof.
  unfold Watchlist.match_body. cbv zeta.
  apply transaction_bind; [apply keeps_watchlist_do_search|]. intros results.
  apply transaction_bind.
  { destruct results; [|apply keeps_ret].
    destruct (_ && _); [|apply keeps_ret].
    apply keeps_bind; [apply keeps_watchlist_do_search|]. intros r2. apply keeps_ret. }
  intros [results2 used_q].
  destruct results2 as [|c0 rest].
  { apply transaction_commit. constructor; auto. }
  destruct (Watchlist.pick_best _ _ _) as [[best|] best_score]; [|apply transaction_raise].
  apply transaction_bind.
  - destruct (_ && _); [|apply keeps_ret].
    apply keeps_bind.
    + apply keeps_first_director_match. apply keeps_watchlist_fetch.
    + intros [c|]; [destruct (negb _)|]; apply keeps_ret.
  - intros [[chosen_id ambiguous] note].
    apply transaction_commit_sleep. constructor. destruct ambiguous; auto.
Qed.

Lemma nas_match_body_transaction (pause : Q) (it : import_row) :
  transaction match_update (import_id it) (Nas.match_body pause it).
Proof.
  unfold Nas.match_body. cbv zeta.
  apply transaction_bind.
  { unfold Nas.tmdb_search_movie.
    apply keeps_bind; [apply keeps_tmdb_get_from|]. intros j. apply keeps_ret. }
  intros results.
  assert (Hamb : forall cands,
            transaction match_update (import_id it)
              (Nas.mark_ambiguous (import_id it) cands)).
  { intros cands. apply transaction_commit. constructor; auto. }
  destruct results as [|c0 results'].
  { apply transaction_commit. constructor; auto. }
  destruct (firstn 5 (c0 :: results')) as [|only [|second rest]] eqn:Hc.
  - destruct (Py.truthy _); [|apply Hamb].
    apply transaction_bind; [apply keeps_score_by_director|]. intros scored.
    destruct (sort_desc _ scored) as [|[[best_score best_id] best_dirs] others];
      [apply transaction_raise|].
    destruct (best_score =? 1); [|apply Hamb].
    apply transaction_commit. constructor; auto.
  - apply transaction_commit_sleep. constructor; auto.
  - destruct (Py.truthy _); [|apply Hamb].
    apply transaction_bind; [apply keeps_score_by_director|]. intros scored.
    destruct (sort_desc _ scored) as [|[[best_score best_id] best_dirs] others];
      [apply transaction_raise|].
    destruct (best_score =? 1); [|apply Hamb].
    apply transaction_commit. constructor; auto.
Qed.

Lemma br_apply_body_transaction (pause : Q) (source : Z) (it : import_row) :
  transaction (eq BrApply.mark_applied) (import_id it)
    (BrApply.apply_body pause source it).
Proof.
  unfold BrApply.apply_body. cbv zeta.
  apply transaction_bind; [apply keeps_tmdb_get_from|]. intros details.
  apply transaction_bind; [apply keeps_upsert_film|]. intros film.
  apply transaction_bind; [apply keeps_upsert_genres|]. intros _.
  apply transaction_bind; [apply keeps_execute; reflexivity|]. intros _.
  apply transaction_bind; [apply keeps_execute; reflexivity|]. intros _.
  apply transaction_commit_sleep. reflexivity.
Qed.

Lemma keeps_tmdb_get_once (q : request) : keeps (tmdb_get_once q).
Proof.
  unfold tmdb_get_once.
  apply keeps_bind; [apply keeps_http_get|]. intros resp.
  apply keeps_bind; [apply keeps_raise_for_status|]. intros _. apply keeps_ret.
Qed.

Lemma seen_apply_body_transaction (pause : Q) (r : import_row) :
  transaction (eq SeenApply.mark_applied) (import_id r) (SeenApply.apply_body pause r).
Proof.
  unfold SeenApply.apply_body. cbv zeta.
  apply transaction_bind; [apply keeps_tmdb_get_once|]. intros details.
  apply transaction_bind; [apply keeps_seen_upsert_film|]. intros film.
  apply transaction_bind; [apply keeps_execute; reflexivity|]. intros _.
  apply transaction_bind.
  { destruct (SeenApply.normalize_date _);
      [apply keeps_execute; reflexivity|apply keeps_ret]. }
  intros _.
  apply transaction_commit_sleep. reflexivity.
Qed.

Lemma watchlist_apply_body_transaction (defaults : user_film_row) (pause : Q)
    (r : import_row) :
  transaction (eq SeenApply.mark_applied) (import_id r)
    (WatchlistApply.apply_body defaults pause r).
Proof.
  unfold WatchlistApply.apply_body. cbv zeta.
  apply transaction_bind; [apply keeps_tmdb_get_once|]. intros details.
  apply transaction_bind; [apply keeps_seen_upsert_film|]. intros film.
  apply transaction_bind; [apply keeps_execute; reflexivity|]. intros _.
  apply transaction_commit_sleep. reflexivity.
Qed.

Lemma match_update_id (f : import_row -> import_row) :
  match_update f -> forall r, import_id (f r) = import_id r.
Proof. intros [] r; reflexivity. Qed.

Lemma match_update_settles (f : import_row -> import_row) (r : import_row) :
  match_update f \/ error_update f -> settled_status (match_status (f r)).
Proof.
  unfold settled_status. intros [[st tid note [-> | ->]|st note [-> | ->]]|(note & ->)];
    cbn; auto.
Qed.

(** A stable sort by decreasing key keeps the elements. *)
Lemma in_insert_by {A} (key : A -> Z) (x y : A) (l : list A) :
  In y (insert_by key x l) <-> y = x \/ In y l.
Proof.
  induction l as [|z l IH]; simpl; [intuition congruence|].
  destruct (key x <? key z); simpl; rewrite ?IH; intuition congruence.
Qed.

Lemma in_sort_desc {A} (key : A -> Z) (y : A) (l : list A) :
  In y (sort_desc key l) <-> In y l.
Proof.
  induction l as [|x l IH]; simpl; [tauto|].
  rewrite in_insert_by, IH. intuition congruence.
Qed.

Lemma length_insert_by {A} (key : A -> Z) (x : A) (l : list A) :
  length (insert_by key x l) = S (length l).
Proof.
  induction l as [|z l IH]; simpl; [reflexivity|].
  destruct (key x <? key z); simpl; rewrite ?IH; reflexivity.
Qed.

Lemma length_sort_desc {A} (key : A -> Z) (l : list A) :
  length (sort_desc key l) = length l.
Proof. induction l as [|x l IH]; simpl; [|rewrite length_insert_by, IH]; reflexivity. Qed.

Lemma in_firstn {A} (n : nat) (l : list A) (x : A) : In x (firstn n l) -> In x l.
Proof.
  revert n. induction l as [|y l IH]; intros [|n]; simpl; try tauto.
  intros [H|H]; [auto|right; exact (IH n H)].
Qed.

(** The rows a [SELECT ... WHERE p ... LIMIT] returns are rows of the table
    that satisfy [p], and all of them when the limit allows. *)
Lemma select_imports_in (p : import_row -> bool) (limit : nat) (d : database)
    (r : import_row) :
  In r (select_imports p limit d) -> In r (imports d) /\ p r = true.
Proof.
  unfold select_imports, order_by_id. intros H.
  apply in_firstn in H. apply in_sort_desc in H. apply filter_In in H. exact H.
Qed.

Lemma select_imports_all (p : import_row -> bool) (limit : nat) (d : database)
    (r : import_row) :
  (count p (imports d) <= limit)%nat ->
  In r (imports d) -> p r = true -> In r (select_imports p limit d).
Proof.
  unfold select_imports, order_by_id, count. intros Hl Hr Hp.
  rewrite firstn_all2 by (rewrite length_sort_desc; exact Hl).
  apply in_sort_desc, filter_In. auto.
Qed.


(** A run: the selection, the loop, and the commit on leaving the
    [with conn] block. *)
Lemma run_select (P : (import_row -> import_row) -> Prop)
    (body row : import_row -> M unit) (note : exn -> string)
    (p : import_row -> bool) (limit : nat) (w : world) :
  (forall f, P f -> forall r, import_id (f r) = import_id r) ->
  (forall it, transaction P (import_id it) (body it)) ->
  (forall it,
     row it
     = try_except (body it)
         (fun e => rollback ;;
                   execute (update_import (import_id it) (set_status_note ERROR (note e))) ;;
                   commit)) ->
  imports (db w) = imports (committed w) ->
  let run := (items <- query (select_imports p limit) ;; for_each items row ;; commit) in
  fst (run w) = Ok tt
  /\ committed (snd (run w)) = db (snd (run w))
  /\ Forall2 (touched P (selected p limit (db w)))
             (imports (db w)) (imports (db (snd (run w)))).
Proof.
  intros Hid Hbody Hrow Hclean run. subst run. unfold bind at 1, query. cbn iota beta.
  destruct (run_rows P body row note Hid Hbody Hrow (select_imports p limit (db w)) w Hclean)
    as (Hok & _ & Ht).
  unfold bind.
  destruct (for_each (select_imports p limit (db w)) row w) as [[[]|e] w1];
    cbn [fst snd] in *; [|discriminate].
  split; [reflexivity|]. split; [reflexivity|]. exact Ht.
Qed.

Lemma filter_nil_forall {A} (p : A -> bool) (l : list A) :
  (forall x, In x l -> p x = false) -> filter p l = [].
Proof.
  induction l as [|x l IH]; simpl; intros H; [reflexivity|].
  rewrite (H x (or_introl eq_refl)). apply IH. intros y Hy. apply H. right. exact Hy.
Qed.

Lemma Forall2_in_r {A B} (Q : A -> B -> Prop) (l : list A) (l' : list B) (y : B) :
  Forall2 Q l l' -> In y l' -> exists x, In x l /\ Q x y.
Proof.
  induction 1 as [|a b l l' Hab Hl IH]; simpl; [intros []|].
  intros [<-|Hy]; [eauto|]. destruct (IH Hy) as (x & Hx & Hq). eauto.
Qed.

(** After a run that selected every row that satisfies [p], with writes
    that falsify [p], no row satisfies [p]. *)
Lemma run_exhausts (P : (import_row -> import_row) -> Prop) (p : import_row -> bool)
    (ids : list Z) (l l' : list import_row) :
  (forall f r0, P f \/ error_update f -> p (f r0) = false) ->
  (forall r, In r l -> p r = true -> In (import_id r) ids) ->
  Forall2 (touched P ids) l l' ->
  filter p l' = [].
Proof.
  intros Hfalse Hall Ht. apply filter_nil_forall. intros r' Hr'.
  destruct (Forall2_in_r _ _ _ _ Ht Hr') as (r & Hr & _ & Hout & Hin).
  destruct (in_dec Z.eq_dec (import_id r) ids) as [Hi|Hi].
  - destruct (Hin Hi) as (f & r0 & Hf & ->). apply Hfalse, Hf.
  - rewrite (Hout Hi). destruct (p r) eqn:E; [|reflexivity].
    destruct (Hi (Hall r Hr E)).
Qed.

Lemma selected_all (p : import_row -> bool) (limit : nat) (d : database) (r : import_row) :
  (count p (imports d) <= limit)%nat ->
  In r (imports d) -> p r = true -> In (import_id r) (selected p limit d).
Proof.
  intros Hl Hr Hp. unfold selected. apply in_map. apply select_imports_all; assumption.
Qed.

Lemma pending_not_settled (f : import_row -> import_row) (r0 : import_row) :
  match_update f \/ error_update f -> Seen.is_pending (f r0) = false.
Proof.
  intros H. pose proof (match_update_settles f r0 H) as Hs.
  unfold Seen.is_pending. unfold settled_status in Hs.
  destruct (match_status (f r0)); try reflexivity.
  destruct Hs as [Hs|[Hs|[Hs|Hs]]]; discriminate.
Qed.

(** X8.  A run of the seen-list, watchlist or NAS matcher ends normally
    with everything committed, whatever the catalog does.  It keeps the
    rows of the staging table in place, leaves the records it did not
    select as they are, and leaves each record it selected in MATCHED,
    AMBIGUOUS, NOT_FOUND or ERROR; when the limit covers the pending
    records, none is pending afterwards. *)
Theorem matcher_run_settles (limit : nat) (pause : Q) (w : world) :
  imports (db w) = imports (committed w) ->
  forall run,
    In run [Seen.main limit pause; Watchlist.main limit pause; Nas.main limit pause] ->
    fst (run w) = Ok tt
    /\ committed (snd (run w)) = db (snd (run w))
    /\ Forall2
         (fun r r' =>
            import_id r' = import_id r
            /\ (In (import_id r) (selected Seen.is_pending limit (db w)) ->
                settled_status (match_status r'))
            /\ (~ In (import_id r) (selected Seen.is_pending limit (db w)) -> r' = r))
         (imports (db w)) (imports (db (snd (run w))))
    /\ ((count Seen.is_pending (imports (db w)) <= limit)%nat ->
        count Seen.is_pending (imports (db (snd (run w)))) = 0%nat).
Proof.
  intros Hclean run Hrun.
  assert (H : fst (run w) = Ok tt
              /\ committed (snd (run w)) = db (snd (run w))
              /\ Forall2 (touched match_update (selected Seen.is_pending limit (db w)))
                         (imports (db w)) (imports (db (snd (run w))))).
  { destruct Hrun as [<-|[<-|[<-|[]]]].
    - apply (run_select match_update (Seen.match_body pause) (Seen.match_row pause)
               (fun e => Py.slice_to 900 (exn_str e)));
        auto using match_update_id, seen_match_body_transaction.
    - apply (run_select match_update (Watchlist.match_body pause)
               (Watchlist.match_row pause) (fun e => Py.slice_to 900 (exn_str e)));
        auto using match_update_id, watchlist_match_body_transaction.
    - apply (run_select match_update (Nas.match_body pause) (Nas.match_row pause)
               (fun e => Py.slice_to 1000 (exn_str e)));
        auto using match_update_id, nas_match_body_transaction. }
  destruct H as (Hok & Hc & Ht). split; [exact Hok|]. split; [exact Hc|]. split.
  - eapply Forall2_impl; [|exact Ht]. intros r r' (H1 & H2 & H3).
    split; [exact H1|]. split; [|exact H2].
    intros Hin. destruct (H3 Hin) as (f & r0 & Hf & ->).
    apply match_update_settles, Hf.
  - intros Hl. unfold count.
    rewrite (run_exhausts match_update Seen.is_pending _ _ _
               (fun f r0 => pending_not_settled f r0)
               (fun r => selected_all Seen.is_pending limit (db w) r Hl) Ht).
    reflexivity.
Qed.

Lemma matcher_run_settles_witness :
  imports (db SampleAmbiguous.mixed_world) = imports (committed SampleAmbiguous.mixed_world)
  /\ (count Seen.is_pending (imports (db SampleAmbiguous.mixed_world)) <= 100)%nat
  /\ count Seen.is_pending
        (imports (db (snd (Nas.main 100 (1 # 4) SampleAmbiguous.mixed_world)))) = 0%nat.
Proof.
  split; [reflexivity|]. split; [vm_compute; lia|].
  refine (proj2 (proj2 (proj2
            (matcher_run_settles 100 (1 # 4) SampleAmbiguous.mixed_world eq_refl
               (Nas.main 100 (1 # 4)) _))) _).
  - right; right; left; reflexivity.
  - vm_compute. lia.
Defined.


Lemma Forall2_in_l {A B} (Q : A -> B -> Prop) (l : list A) (l' : list B) :
  Forall2 Q l l' -> Forall2 (fun a b => In a l /\ Q a b) l l'.
Proof.
  induction 1 as [|a b l l' Hab Hl IH]; constructor.
  - split; [left; reflexivity|exact Hab].
  - eapply Forall2_impl; [|exact IH]. intros x y [Hx Hq]. split; [right|]; assumption.
Qed.

Lemma NoDup_map_eq {A B} (f : A -> B) (l : list A) (a b : A) :
  NoDup (map f l) -> In a l -> In b l -> f a = f b -> a = b.
Proof.
  induction l as [|x l IH]; simpl; [intros _ []|].
  intros Hn Ha Hb E. inversion Hn as [|? ? Hx Hl]; subst.
  destruct Ha as [->|Ha], Hb as [->|Hb]; [reflexivity| | |auto].
  - destruct Hx. rewrite E. apply in_map, Hb.
  - destruct Hx. rewrite <- E. apply in_map, Ha.
Qed.

(** With the staging key unique, a row outside the [WHERE] clause is not
    among the records selected. *)
Lemma unselected (p : import_row -> bool) (limit : nat) (d : database) (r : import_row) :
  NoDup (map import_id (imports d)) ->
  In r (imports d) -> p r = false -> ~ In (import_id r) (selected p limit d).
Proof.
  intros Hn Hr Hp Hin. unfold selected in Hin.
  apply in_map_iff in Hin as (s & E & Hs).
  apply select_imports_in in Hs as [Hs Hps].
  rewrite (NoDup_map_eq import_id (imports d) s r Hn Hs Hr E) in Hps. congruence.
Qed.

Lemma touched_unselected (P : (import_row -> import_row) -> Prop)
    (p : import_row -> bool) (limit : nat) (d : database) (l' : list import_row) :
  NoDup (map import_id (imports d)) ->
  Forall2 (touched P (selected p limit d)) (imports d) l' ->
  Forall2 (fun r r' => import_id r' = import_id r /\ (p r = false -> r' = r))
          (imports d) l'.
Proof.
  intros Hn Ht. apply Forall2_in_l in Ht.
  eapply Forall2_impl; [|exact Ht]. intros r r' (Hr & H1 & H2 & _).
  split; [exact H1|]. intros Hp. apply H2, unselected; assumption.
Qed.

(** X9.  Every script writes only to the records its [WHERE] clause
    selects.  With the key of the staging table unique, a run of any
    matcher or applier leaves each row outside the clause exactly as it
    was, and keeps the rows of the table in place: an applier never
    touches a record that is not MATCHED with an id and unmarked, the
    physical-media matcher never touches a PENDING record or one that has
    an id, the other matchers never touch a record that is not PENDING. *)
Theorem run_leaves_unselected (defaults : user_film_row) (limit : nat) (pause : Q)
    (w : world) :
  imports (db w) = imports (committed w) ->
  NoDup (map import_id (imports (db w))) ->
  forall run p,
    In (run, p)
       [(Seen.main limit pause, Seen.is_pending);
        (Watchlist.main limit pause, Seen.is_pending);
        (Nas.main limit pause, Seen.is_pending);
        (Br.main limit pause, Br.to_match);
        (BrApply.main limit pause, to_apply);
        (SeenApply.main limit pause, to_apply);
        (WatchlistApply.main defaults limit pause, to_apply)] ->
    Forall2 (fun r r' => import_id r' = import_id r /\ (p r = false -> r' = r))
            (imports (db w)) (imports (db (snd (run w)))).
Proof.
  intros Hclean Hn run p Hin.
  destruct Hin as [[= <- <-]|[[= <- <-]|[[= <- <-]|[[= <- <-]|[[= <- <-]|[[= <- <-]|[[= <- <-]|[]]]]]]]].
  - apply (touched_unselected match_update _ limit); [exact Hn|].
    apply (run_select match_update (Seen.match_body pause) (Seen.match_row pause)
             (fun e => Py.slice_to 900 (exn_str e)));
      auto using match_update_id, seen_match_body_transaction.
  - apply (touched_unselected match_update _ limit); [exact Hn|].
    apply (run_select match_update (Watchlist.match_body pause)
             (Watchlist.match_row pause) (fun e => Py.slice_to 900 (exn_str e)));
      auto using match_update_id, watchlist_match_body_transaction.
  - apply (touched_unselected match_update _ limit); [exact Hn|].
    apply (run_select match_update (Nas.match_body pause) (Nas.match_row pause)
             (fun e => Py.slice_to 1000 (exn_str e)));
      auto using match_update_id, nas_match_body_transaction.
  - apply (touched_unselected match_update _ limit); [exact Hn|].
    apply (run_select match_update (Br.match_body pause) (Br.match_row pause)
             (fun e => "match: " ++ Py.slice_to 900 (exn_str e)));
      auto using match_update_id, br_match_body_transaction.
  - unfold BrApply.main. unfold bind at 1. rewrite ensure_source_br.
    set (w1 := with_db _ w). set (sid := snd (br_source_upsert (sources (db w)))).
    change (imports (db w)) with (imports (db w1)) at 1.
    apply (touched_unselected (eq BrApply.mark_applied) _ limit); [exact Hn|].
    apply (run_select (eq BrApply.mark_applied) (BrApply.apply_body pause sid)
             (BrApply.apply_row pause sid)
             (fun e => "apply: " ++ Py.slice_to 900 (exn_str e)));
      auto using br_apply_body_transaction.
    intros f <- r. reflexivity.
  - apply (touched_unselected (eq SeenApply.mark_applied) _ limit); [exact Hn|].
    apply (run_select (eq SeenApply.mark_applied) (SeenApply.apply_body pause)
             (SeenApply.apply_row pause) (fun e => Py.slice_to 900 (exn_str e)));
      auto using seen_apply_body_transaction.
    intros f <- r. reflexivity.
  - apply (touched_unselected (eq SeenApply.mark_applied) _ limit); [exact Hn|].
    apply (run_select (eq SeenApply.mark_applied) (WatchlistApply.apply_body defaults pause)
             (WatchlistApply.apply_row defaults pause)
             (fun e => Py.slice_to 900 (exn_str e)));
      auto using watchlist_apply_body_transaction.
    intros f <- r. reflexivity.
Qed.
Lemma run_leaves_unselected_witness :
  let w := SampleApply.world_with [SampleApply.crime] in
  imports (db w) = imports (committed w)
  /\ NoDup (map import_id (imports (db w)))
  /\ Forall2 (fun r r' => import_id r' = import_id r
                          /\ (Br.to_match r = false -> r' = r))
             (imports (db w)) (imports (db (snd (Br.main 100 (1 # 4) w)))).
Proof.
  assert (Hn : NoDup (map import_id
                        (imports (db (SampleApply.world_with [SampleApply.crime]))))).
  { repeat constructor; simpl; intuition discriminate. }
  split; [reflexivity|]. split; [exact Hn|].
  apply (run_leaves_unselected
           {| uf_user_id := 1; uf_film_id := 0; uf_status := "WANT";
              uf_rating_10 := None; uf_first_seen_at := None; uf_last_seen_at := None;
              uf_rewatch_count := 0 |}
           100 (1 # 4) (SampleApply.world_with [SampleApply.crime]) eq_refl Hn).
  do 3 right. left. reflexivity.
Defined.


(** ** What a run leaves alone *)

Section Preserves.

Context {V : Type} (view : database -> V).

Lemma preserves_ret {A} (a : A) : preserves view (ret a).
Proof. intros w _. split; reflexivity. Qed.

Lemma preserves_raise {A} (e : exn) : preserves view (@raise A e).
Proof. intros w _. split; reflexivity. Qed.

Lemma preserves_bind {A B} (m : M A) (k : A -> M B) :
  preserves view m -> (forall a, preserves view (k a)) -> preserves view (bind m k).
Proof.
  intros Hm Hk w Hw. unfold bind.
  destruct (Hm w Hw) as [H1 H2].
  destruct (m w) as [[a|e] w1]; cbn [snd] in *; [|auto].
  destruct (Hk a w1) as [H3 H4]; [congruence|]. split; congruence.
Qed.

Lemma preserves_try_except {A} (m : M A) (h : exn -> M A) :
  preserves view m -> (forall e, preserves view (h e)) -> preserves view (try_except m h).
Proof.
  intros Hm Hh w Hw. unfold try_except.
  destruct (Hm w Hw) as [H1 H2].
  destruct (m w) as [[a|e] w1]; cbn [snd] in *; [auto|].
  destruct (Hh e w1) as [H3 H4]; [congruence|]. split; congruence.
Qed.

Lemma preserves_http_get (q : request) : preserves view (http_get q).
Proof.
  intros w _. unfold http_get.
  destruct (server w (length (requested w)) q); split; reflexivity.
Qed.

Lemma preserves_sleep (d : Q) : preserves view (sleep d).
Proof. intros w _. split; reflexivity. Qed.

Lemma preserves_query {A} (f : database -> A) : preserves view (query f).
Proof. intros w _. split; reflexivity. Qed.

Lemma preserves_commit : preserves view commit.
Proof. intros w Hw. split; [reflexivity|]. cbn. exact Hw. Qed.

Lemma preserves_rollback : preserves view rollback.
Proof. intros w Hw. split; [|reflexivity]. cbn. symmetry. exact Hw. Qed.

Lemma preserves_execute (f : database -> database) :
  (forall d, view (f d) = view d) -> preserves view (execute f).
Proof. intros H w _. split; [apply H|reflexivity]. Qed.

Lemma preserves_raise_for_status (r : response) : preserves view (raise_for_status r).
Proof.
  unfold raise_for_status.
  destruct ((400 <=? status_code r) && (status_code r <? 500)); [apply preserves_raise|].
  destruct ((500 <=? status_code r) && (status_code r <? 600));
    [apply preserves_raise|apply preserves_ret].
Qed.

Lemma preserves_tmdb_get_from (msg : string) (q : request) (left i : nat) :
  preserves view (tmdb_get_from msg q i left).
Proof.
  revert i. induction left as [|left IH]; intros i; simpl.
  - apply preserves_raise.
  - apply preserves_bind; [apply preserves_http_get|]. intros r.
    destruct (status_code r =? 429).
    + apply preserves_bind; [apply preserves_sleep|]. intros _. apply IH.
    + apply preserves_bind; [apply preserves_raise_for_status|]. intros _.
      apply preserves_ret.
Qed.

Lemma preserves_map_m {A B} (f : A -> M B) (l : list A) :
  (forall x, preserves view (f x)) -> preserves view (map_m f l).
Proof.
  intros Hf. induction l as [|x r IH]; simpl; [apply preserves_ret|].
  apply preserves_bind; [apply Hf|]. intros y.
  apply preserves_bind; [apply IH|]. intros ys. apply preserves_ret.
Qed.

Lemma preserves_first_director_match (fetch : Z -> M (list string)) (director_q : string)
    (cands : list candidate) :
  (forall id, preserves view (fetch id)) ->
  preserves view (first_director_match fetch director_q cands).
Proof.
  intros Hf. induction cands as [|c rest IH]; simpl; [apply preserves_ret|].
  apply preserves_bind; [apply Hf|]. intros dirs.
  destruct (director_overlap director_q dirs); [apply preserves_ret|apply IH].
Qed.

Lemma preserves_for_each {A} (l : list A) (body : A -> M unit) :
  (forall x, preserves view (body x)) -> preserves view (for_each l body).
Proof.
  intros Hb. induction l as [|x r IH]; simpl; [apply preserves_ret|].
  apply preserves_bind; [apply Hb|]. intros _. apply IH.
Qed.

End Preserves.

(** The steps of a script are sequenced, branched on and looped over. *)
Create HintDb preserves.

#[export] Hint Resolve preserves_ret preserves_raise preserves_sleep preserves_query
  preserves_commit preserves_rollback preserves_http_get preserves_raise_for_status
  preserves_tmdb_get_from preserves_bind preserves_try_except preserves_map_m
  preserves_first_director_match preserves_for_each : preserves.

#[export] Hint Extern 1 (preserves _ (execute _)) =>
  apply preserves_execute; intros ?; reflexivity : preserves.

#[export] Hint Extern 2 (preserves _ (match ?x with _ => _ end)) =>
  destruct x : preserves.

Lemma preserves_score_by_director {V} (view : database -> V) (pause : Q)
    (raw_dir : string) (cands : list candidate) :
  preserves view (Nas.score_by_director pause raw_dir cands).
Proof.
  induction cands as [|c rest IH]; simpl; [apply preserves_ret|].
  unfold Nas.tmdb_directors_for_movie, tmdb_get_path.
  apply preserves_bind; [auto with preserves|]. intros dirs.
  apply preserves_bind; [auto with preserves|]. intros _.
  apply preserves_bind; [apply IH|]. intros others. apply preserves_ret.
Qed.

Lemma seen_match_row_staging (pause : Q) (r : import_row) :
  preserves catalog_tables (Seen.match_row pause r).
Proof.
  unfold Seen.match_row, Seen.match_body, Seen.on_error, Seen.get_directors,
    name_item, tmdb_get.
  cbv zeta. auto 40 with preserves.
Qed.

Lemma br_match_row_staging (pause : Q) (it : import_row) :
  preserves catalog_tables (Br.match_row pause it).
Proof.
  unfold Br.match_row, Br.match_body, Br.on_error, Br.get_directors_for_tmdb_id,
    tmdb_get_path.
  cbv zeta. auto 40 with preserves.
Qed.

Lemma watchlist_match_row_staging (pause : Q) (it : import_row) :
  preserves catalog_tables (Watchlist.match_row pause it).
Proof.
  unfold Watchlist.match_row, Watchlist.match_body, Watchlist.on_error,
    Watchlist.get_directors, Watchlist.do_search, tmdb_get.
  cbv zeta. auto 40 with preserves.
Qed.

Lemma nas_match_row_staging (pause : Q) (it : import_row) :
  preserves catalog_tables (Nas.match_row pause it).
Proof.
  unfold Nas.match_row, Nas.match_body, Nas.on_error, Nas.mark_ambiguous,
    Nas.tmdb_search_movie, tmdb_get_path.
  cbv zeta. auto 40 using preserves_score_by_director with preserves.
Qed.

(** X10.  The matchers write to the staging table and to nothing else: a
    run of any of the four, whatever the catalog answers, leaves every
    other table (sources, films, genres, links, copies, user films, watch
    events) as the session found it, in the committed state as well. *)
Theorem matchers_write_staging_only (limit : nat) (pause : Q) (w : world) :
  catalog_tables (db w) = catalog_tables (committed w) ->
  forall run,
    In run [Seen.main limit pause; Br.main limit pause;
            Watchlist.main limit pause; Nas.main limit pause] ->
    catalog_tables (db (snd (run w))) = catalog_tables (db w)
    /\ catalog_tables (committed (snd (run w))) = catalog_tables (committed w).
Proof.
  intros Hw run Hrun.
  assert (H : preserves catalog_tables run); [|exact (H w Hw)].
  destruct Hrun as [<-|[<-|[<-|[<-|[]]]]];
    unfold Seen.main, Br.main, Watchlist.main, Nas.main;
    (apply preserves_bind; [apply preserves_query|]); intros items;
    (apply preserves_bind; [|intros _; apply preserves_commit]);
    apply preserves_for_each; intros it.
  - apply seen_match_row_staging.
  - apply br_match_row_staging.
  - apply watchlist_match_row_staging.
  - apply nas_match_row_staging.
Qed.

Lemma matchers_write_staging_only_witness :
  let w := SampleAmbiguous.heat_world in
  catalog_tables (db w) = catalog_tables (committed w)
  /\ catalog_tables (db (snd (Br.main 100 (1 # 4) w))) = catalog_tables (db w)
  /\ catalog_tables (committed (snd (Br.main 100 (1 # 4) w)))
     = catalog_tables (committed w).
Proof.
  split; [reflexivity|].
  apply (matchers_write_staging_only 100 (1 # 4) SampleAmbiguous.heat_world eq_refl).
  right. left. reflexivity.
Defined.


(** ** Running an applier again *)

Lemma str_in_prefix (a b : string) : String.prefix a b = true -> Py.str_in a b = true.
Proof. intros H. destruct b; simpl in *; rewrite H; reflexivity. Qed.

Lemma str_in_append (a x b : string) : Py.str_in a b = true -> Py.str_in a (x ++ b) = true.
Proof.
  intros H. induction x as [|c r IH]; simpl; [exact H|].
  rewrite IH. apply orb_true_r.
Qed.

(** The marker makes the [NOT LIKE '%applied%'] test fail. *)
Lemma marked_not_applied (r : import_row) :
  not_applied (SeenApply.mark_applied r) = false
  /\ not_applied (BrApply.mark_applied r) = false.
Proof.
  assert (H : Py.str_in "applied" (Py.or_empty (match_note r) ++ " | applied") = true).
  { apply str_in_append. reflexivity. }
  unfold not_applied, SeenApply.mark_applied, BrApply.mark_applied. cbn.
  rewrite H. split; reflexivity.
Qed.

Lemma applied_not_to_apply (f : import_row -> import_row) (r0 : import_row) :
  (SeenApply.mark_applied = f \/ BrApply.mark_applied = f) \/ error_update f ->
  to_apply (f r0) = false.
Proof.
  unfold to_apply.
  intros [[<-|<-]|(note & ->)]; [| |reflexivity];
    rewrite ?(proj1 (marked_not_applied r0)), ?(proj2 (marked_not_applied r0));
    apply andb_false_r.
Qed.

Lemma run_nothing (p : import_row -> bool) (limit : nat) (row : import_row -> M unit)
    (w : world) :
  filter p (imports (db w)) = [] ->
  (items <- query (select_imports p limit) ;; for_each items row ;; commit) w
  = (Ok tt, {| server := server w; requested := requested w; slept := slept w;
               db := db w; committed := db w |}).
Proof.
  intros H. unfold bind at 1, query, select_imports. rewrite H.
  destruct limit; reflexivity.
Qed.

Lemma br_apply_main_eq (limit : nat) (pause : Q) (w : world) :
  BrApply.main limit pause w
  = (items <- query (select_imports to_apply limit) ;;
     for_each items (BrApply.apply_row pause (snd (br_source_upsert (sources (db w))))) ;;
     commit)
      (with_db (with_sources (db w) (fst (br_source_upsert (sources (db w))))) w).
Proof.
  unfold BrApply.main. unfold bind at 1. rewrite ensure_source_br. reflexivity.
Qed.

(** X11.  An applier run again finds nothing to do.  After a run whose
    limit covers the records to apply, whatever the catalog answered, no
    record satisfies the [WHERE] clause any more: each one selected carries
    the marker in its note or is in ERROR.  The next run of the seen-list
    or the watchlist applier then sends no request and leaves the database
    as it is; the next run of the physical-media applier sends no request
    and leaves the staging table as it is. *)
Theorem applier_rerun_noop (defaults : user_film_row) (limit : nat) (pause : Q)
    (srv : nat -> request -> reply) (w : world) :
  imports (db w) = imports (committed w) ->
  (count to_apply (imports (db w)) <= limit)%nat ->
  (forall run,
     In run [SeenApply.main limit pause; WatchlistApply.main defaults limit pause] ->
     let w1 := next_run srv (snd (run w)) in
     filter to_apply (imports (db w1)) = []
     /\ run w1 = (Ok tt, w1))
  /\ (let w1 := next_run srv (snd (BrApply.main limit pause w)) in
      filter to_apply (imports (db w1)) = []
      /\ fst (BrApply.main limit pause w1) = Ok tt
      /\ requested (snd (BrApply.main limit pause w1)) = []
      /\ imports (db (snd (BrApply.main limit pause w1))) = imports (db w1)).
Proof.
  intros Hclean Hl.
  assert (Hex : forall P l',
            (forall f, P f -> SeenApply.mark_applied = f \/ BrApply.mark_applied = f) ->
            Forall2 (touched P (selected to_apply limit (db w))) (imports (db w)) l' ->
            filter to_apply l' = []).
  { intros P l' HP Ht.
    apply (run_exhausts P to_apply (selected to_apply limit (db w)) (imports (db w)) l');
      [|intros r; apply selected_all, Hl|exact Ht].
    intros f r0 [Hf|He]; apply applied_not_to_apply; auto. }
  split.
  - intros run Hrun w1.
    assert (H : committed (snd (run w)) = db (snd (run w))
                /\ filter to_apply (imports (db (snd (run w)))) = []
                /\ (forall w0, filter to_apply (imports (db w0)) = [] ->
                      run w0 = (Ok tt, {| server := server w0; requested := requested w0;
                                          slept := slept w0;
                                          db := db w0; committed := db w0 |}))).
    { destruct Hrun as [<-|[<-|[]]].
      - destruct (run_select (eq SeenApply.mark_applied) (SeenApply.apply_body pause)
                    (SeenApply.apply_row pause) (fun e => Py.slice_to 900 (exn_str e))
                    to_apply limit w) as (_ & Hc & Ht);
          auto using seen_apply_body_transaction; [intros f <- r; reflexivity|].
        split; [exact Hc|]. split; [|intros w0; apply run_nothing].
        apply (Hex (eq SeenApply.mark_applied)); [auto|exact Ht].
      - destruct (run_select (eq SeenApply.mark_applied)
                    (WatchlistApply.apply_body defaults pause)
                    (WatchlistApply.apply_row defaults pause)
                    (fun e => Py.slice_to 900 (exn_str e))
                    to_apply limit w) as (_ & Hc & Ht);
          auto using watchlist_apply_body_transaction; [intros f <- r; reflexivity|].
        split; [exact Hc|]. split; [|intros w0; apply run_nothing].
        apply (Hex (eq SeenApply.mark_applied)); [auto|exact Ht]. }
    destruct H as (Hc & Hnone & Hrun1).
    assert (Hsel : filter to_apply (imports (db w1)) = []).
    { subst w1. cbn [next_run db]. rewrite Hc. exact Hnone. }
    split; [exact Hsel|]. rewrite (Hrun1 w1 Hsel). reflexivity.
  - intros w1.
    assert (H : committed (snd (BrApply.main limit pause w))
                = db (snd (BrApply.main limit pause w))
                /\ filter to_apply (imports (db (snd (BrApply.main limit pause w)))) = []).
    { rewrite br_apply_main_eq.
      set (w0 := with_db _ w). set (sid := snd (br_source_upsert (sources (db w)))).
      destruct (run_select (eq BrApply.mark_applied) (BrApply.apply_body pause sid)
                  (BrApply.apply_row pause sid)
                  (fun e => "apply: " ++ Py.slice_to 900 (exn_str e))
                  to_apply limit w0) as (_ & Hc & Ht);
        auto using br_apply_body_transaction; [intros f <- r; reflexivity|].
      split; [exact Hc|].
      apply (Hex (eq BrApply.mark_applied)); [auto|exact Ht]. }
    destruct H as (Hc & Hnone).
    assert (Hsel : filter to_apply (imports (db w1)) = []).
    { subst w1. cbn [next_run db]. rewrite Hc. exact Hnone. }
    split; [exact Hsel|].
    rewrite br_apply_main_eq, run_nothing by exact Hsel.
    repeat split; reflexivity.
Qed.
Lemma applier_rerun_noop_witness :
  let w := SampleApply.world_with [SampleApply.crime] in
  let run := SeenApply.main 100 (1 # 4) in
  let w1 := next_run (SampleApply.catalog [SampleApply.crime]) (snd (run w)) in
  imports (db w) = imports (committed w)
  /\ (count to_apply (imports (db w)) <= 100)%nat
  /\ filter to_apply (imports (db w1)) = []
  /\ run w1 = (Ok tt, w1).
Proof.
  assert (Hl : (count to_apply
                  (imports (db (SampleApply.world_with [SampleApply.crime]))) <= 100)%nat).
  { vm_compute. lia. }
  split; [reflexivity|]. split; [exact Hl|].
  apply (proj1 (applier_rerun_noop
                  {| uf_user_id := 1; uf_film_id := 0; uf_status := "WANT";
                     uf_rating_10 := None; uf_first_seen_at := None;
                     uf_last_seen_at := None; uf_rewatch_count := 0 |}
                  100 (1 # 4) (SampleApply.catalog [SampleApply.crime])
                  (SampleApply.world_with [SampleApply.crime]) eq_refl Hl)).
  left. reflexivity.
Defined.


(** ** The source row of the physical-media applier *)

Lemma preserves_upsert_genres {V} (view : database -> V) (film : Z) (gs : list genre_json) :
  (forall d l, view (with_genres d l) = view d) ->
  (forall d l, view (with_film_genres d l) = view d) ->
  preserves view (upsert_genres film gs).
Proof.
  intros Hg Hfg. induction gs as [|g rest IH]; simpl; [apply preserves_ret|].
  unfold genre_items.
  apply preserves_bind; [auto with preserves|]. intros [gid gname].
  apply preserves_bind; [auto with preserves|]. intros db0.
  destruct (upsert _ _ _ _ _) as [rows genre].
  apply preserves_bind; [apply preserves_execute; intros d; apply Hg|]. intros _.
  apply preserves_bind; [apply preserves_execute; intros d; apply Hfg|]. intros _.
  exact IH.
Qed.

Lemma br_apply_row_sources (pause : Q) (sid : Z) (it : import_row) :
  preserves sources (BrApply.apply_row pause sid it).
Proof.
  unfold BrApply.apply_row, BrApply.apply_body, BrApply.on_error, tmdb_get_path,
    upsert_film, details_item, year_of, int_of_str.
  cbv zeta.
  apply preserves_try_except; [|intros e; auto 10 with preserves].
  apply preserves_bind; [auto with preserves|]. intros details.
  apply preserves_bind; [auto 20 with preserves|]. intros film.
  apply preserves_bind; [apply preserves_upsert_genres; reflexivity|]. intros _.
  auto 10 with preserves.
Qed.

Lemma next_id_fresh (used : list Z) : ~ In (next_id used) used.
Proof.
  assert (H : forall x, In x used -> x <= fold_right Z.max 0 used).
  { induction used as [|y l IH]; simpl; [intros x []|].
    intros x [->|Hx]; [lia|]. specialize (IH x Hx). lia. }
  intros Hin. specialize (H _ Hin). unfold next_id in H. lia.
Qed.

(** X12.  The physical-media applier creates its source row inside the
    transaction of the first record.  When the table holds no BR source and
    the first request for details fails, the rollback of that record
    discards the source row: the run ends normally with the source table as
    it found it, so the id that the later records of the run link their
    films to is the id of no source. *)
Theorem br_source_row_lost (limit : nat) (pause : Q) (w : world) (it : import_row)
    (rest : list import_row) (msg : string) :
  committed w = db w ->
  find (fun s => (code s =? "BR")%string) (sources (db w)) = None ->
  select_imports to_apply limit (db w) = it :: rest ->
  server w (length (requested w)) (MovieDetails (tmdb_id it)) = Failure msg ->
  let sid := snd (br_source_upsert (sources (db w))) in
  let w1 := settled (update_import (import_id it)
                       (set_status_note ERROR ("apply: " ++ Py.slice_to 900 msg)))
                    (after [MovieDetails (tmdb_id it)] [] w) in
  let w' := snd (BrApply.main limit pause w) in
  BrApply.main limit pause w
  = (for_each rest (BrApply.apply_row pause sid) ;; commit) w1
  /\ fst (BrApply.main limit pause w) = Ok tt
  /\ sources (db w') = sources (db w)
  /\ sources (committed w') = sources (db w)
  /\ ~ In sid (map source_id (sources (db w'))).
Proof.
  intros Hc Hnone Hsel Hfail sid w1 w'.
  assert (Hsid : sid = next_id (map source_id (sources (db w)))).
  { subst sid. unfold br_source_upsert, upsert. rewrite Hnone. reflexivity. }
  assert (Hmain : BrApply.main limit pause w
                  = (for_each rest (BrApply.apply_row pause sid) ;; commit) w1).
  { rewrite br_apply_main_eq. fold sid.
    unfold bind at 1, query.
    change (select_imports to_apply limit (db (with_db _ w)))
      with (select_imports to_apply limit (db w)).
    rewrite Hsel. cbn [for_each]. unfold bind at 1 2.
    replace (BrApply.apply_row pause sid it (with_db _ w)) with (Ok tt, w1);
      [reflexivity|].
    unfold BrApply.apply_row, try_except, BrApply.apply_body, tmdb_get_path. cbv zeta.
    unfold bind at 1. cbn [tmdb_get_from]. unfold bind at 1, http_get.
    cbn [server requested with_db]. rewrite Hfail. cbv iota beta.
    unfold BrApply.on_error, w1, settled, after. cbn. rewrite Hc. reflexivity. }
  assert (Hp : preserves sources (for_each rest (BrApply.apply_row pause sid) ;; commit)).
  { apply preserves_bind; [|intros _; apply preserves_commit].
    apply preserves_for_each. intros x. apply br_apply_row_sources. }
  destruct (Hp w1 eq_refl) as [H1 H2].
  assert (Hs1 : sources (db w1) = sources (db w)).
  { subst w1. cbn. rewrite Hc. reflexivity. }
  change (sources (committed w1)) with (sources (db w1)) in H2.
  rewrite Hs1 in H1, H2.
  split; [exact Hmain|]. subst w'. rewrite Hmain.
  split; [|split; [exact H1|split; [exact H2|]]].
  - unfold bind.
    pose proof (for_each_total (BrApply.apply_row pause sid) rest w1) as Ht.
    destruct (for_each rest (BrApply.apply_row pause sid) w1) as [[[]|e] w2];
      [reflexivity|].
    cbn [fst] in Ht. apply Ht. intros x wx.
    apply (row_isolated true (import_id x) (BrApply.apply_body pause sid x)
             (fun e => "apply: " ++ Py.slice_to 900 (exn_str e)) wx).
    apply br_apply_body_atomic.
  - rewrite H1, Hsid. apply next_id_fresh.
Qed.
Lemma br_source_row_lost_witness :
  let w := SampleOffline.apply_world in
  let it := SampleApply.matched_row in
  let sid := snd (br_source_upsert (sources (db w))) in
  let w' := snd (BrApply.main 100 (1 # 4) w) in
  committed w = db w
  /\ find (fun s => (code s =? "BR")%string) (sources (db w)) = None
  /\ select_imports to_apply 100 (db w) = [it]
  /\ server w (length (requested w)) (MovieDetails (tmdb_id it))
     = Failure "Connection refused"
  /\ fst (BrApply.main 100 (1 # 4) w) = Ok tt
  /\ sources (db w') = sources (db w)
  /\ sources (committed w') = sources (db w)
  /\ ~ In sid (map source_id (sources (db w'))).
Proof.
  do 4 (split; [reflexivity|]).
  exact (proj2 (br_source_row_lost 100 (1 # 4) SampleOffline.apply_world
                  SampleApply.matched_row [] "Connection refused"
                  eq_refl eq_refl eq_refl eq_refl)).
Defined.


(** ** The watchlist matcher and the credits endpoint *)






(** ** A search with one result *)




(** ** The bounds of a catalog call *)

Lemma repeat_snoc {A} (x : A) (k : nat) : (repeat x k ++ [x])%list = x :: repeat x k.
Proof. induction k as [|k IH]; cbn; [reflexivity|]. rewrite IH. reflexivity. Qed.

Lemma tmdb_get_from_bounded (msg : string) (q : request) (left i : nat) (w : world) :
  exists k j res w',
    tmdb_get_from msg q i left w = (res, w')
    /\ (k <= left)%nat /\ (left = O \/ 1 <= k)%nat /\ (j = k \/ S j = k)
    /\ requested w' = (repeat q k ++ requested w)%list
    /\ slept w' = (rev (map backoff (seq i j)) ++ slept w)%list
    /\ (j = left -> res = Raise (RuntimeError msg)).
Proof.
  revert i w. induction left as [|left IH]; intros i w; cbn [tmdb_get_from].
  - exists O, O. do 2 eexists. split; [reflexivity|]. cbn. repeat split; auto; try lia.
  - unfold bind at 1. unfold http_get.
    destruct (server w (length (requested w)) q) as [r|m].
    + cbv iota beta. destruct (status_code r =? 429).
      * unfold bind at 1. unfold sleep at 1. cbv iota beta.
        match goal with |- context [tmdb_get_from msg q (S i) left ?w0] =>
          remember w0 as w1 eqn:Ew1 end.
        assert (Hr1 : requested w1 = q :: requested w) by (subst w1; reflexivity).
        assert (Hs1 : slept w1 = backoff i :: slept w) by (subst w1; reflexivity).
        clear Ew1.
        destruct (IH (S i) w1) as (k & j & res & w' & E & Hk & Hk1 & Hj & Hr & Hs & He).
        exists (S k), (S j), res, w'. split; [exact E|].
        split; [lia|]. split; [lia|]. split; [lia|]. split.
        { rewrite Hr, Hr1. cbn [repeat].
          change (q :: requested w) with ([q] ++ requested w)%list.
          rewrite app_assoc, repeat_snoc. reflexivity. }
        split.
        { rewrite Hs, Hs1. cbn [seq map rev].
          change (backoff i :: slept w) with ([backoff i] ++ slept w)%list.
          rewrite app_assoc. reflexivity. }
        intros [= E']. apply He, E'.
      * exists 1%nat, O. unfold bind, raise_for_status.
        destruct (_ && _); [|destruct (_ && _)]; do 2 eexists;
          (split; [reflexivity|]); cbn; repeat split; auto; try lia; discriminate.
    + exists 1%nat, O. do 2 eexists. split; [reflexivity|].
      cbn. repeat split; auto; try lia; discriminate.
Qed.

(** X15.  A catalog call of the matchers and of the physical-media applier
    is bounded whatever the catalog does: it sends the same request between
    one and three times, it pauses after each rate-limited answer, 1.5, 2.5
    and 3.5 seconds at most, it leaves the database and the committed state
    alone, and when the three answers were rate-limited it raises the
    rate-limit failure. *)
Theorem tmdb_get_bounded (msg : string) (q : request) (w : world) :
  let w' := snd (tmdb_get_from msg q 0 3 w) in
  (exists k j,
     (1 <= k <= 3)%nat /\ (j = k \/ S j = k)
     /\ requested w' = (repeat q k ++ requested w)%list
     /\ slept w' = (rev (firstn j [backoff 0; backoff 1; backoff 2]) ++ slept w)%list
     /\ (j = 3%nat -> fst (tmdb_get_from msg q 0 3 w) = Raise (RuntimeError msg)))
  /\ db w' = db w
  /\ committed w' = committed w
  /\ tmdb_get q = tmdb_get_from "TMDb rate limit" q 0 3
  /\ tmdb_get_path q
     = tmdb_get_from ("TMDb rate-limited too long on " ++ path_of q) q 0 3.
Proof.
  intros w'. split; [|split; [|split; [|split]]]; try reflexivity.
  - destruct (tmdb_get_from_bounded msg q 3 0 w)
      as (k & j & res & w1 & E & Hk & Hk1 & Hj & Hr & Hs & He).
    subst w'. rewrite E. cbn [fst snd].
    exists k, j. split; [lia|]. split; [exact Hj|]. split; [exact Hr|].
    split; [|exact He].
    rewrite Hs. f_equal. f_equal.
    assert (j <= 3)%nat by lia.
    destruct j as [|[|[|[|j]]]]; try reflexivity. lia.
  - apply tmdb_get_from_frame.
  - apply tmdb_get_from_frame.
Qed.

(** ** The single request of the seen-list and watchlist appliers *)

(** X16.  The seen-list and watchlist appliers do not retry.  A details
    request that the catalog rate-limits (429) is an HTTP error at once:
    after that one request and no pause, the record is in ERROR with the
    message of the error, and what the record had written is rolled back. *)
Theorem applier_no_retry (defaults : user_film_row) (pause : Q) (r : import_row)
    (w : world) (resp : response) :
  server w (length (requested w)) (MovieDetails (tmdb_id r)) = Answer resp ->
  status_code resp = 429 ->
  let failed :=
    settled (update_import (import_id r)
               (set_status_note ERROR
                  (Py.slice_to 900
                     ("429 Client Error: " ++ reason resp ++ " for url: " ++ url resp))))
            (after [MovieDetails (tmdb_id r)] [] w) in
  SeenApply.apply_row pause r w = (Ok tt, failed)
  /\ WatchlistApply.apply_row defaults pause r w = (Ok tt, failed).
Proof.
  intros Ha Hs failed.
  assert (H : tmdb_get_once (MovieDetails (tmdb_id r)) w
              = (Raise (HTTPError ("429 Client Error: " ++ reason resp
                                   ++ " for url: " ++ url resp)),
                 after [MovieDetails (tmdb_id r)] [] w)).
  { unfold tmdb_get_once. unfold bind at 1. unfold http_get. rewrite Ha. cbv iota beta.
    unfold bind, raise_for_status. rewrite Hs. reflexivity. }
  split.
  - unfold SeenApply.apply_row, try_except, SeenApply.apply_body.
    unfold bind at 1. rewrite H. reflexivity.
  - unfold WatchlistApply.apply_row, try_except, WatchlistApply.apply_body.
    unfold bind at 1. rewrite H. reflexivity.
Qed.
Lemma applier_no_retry_witness :
  let w := Sample.world_of (Sample.limited 1 (SampleApply.catalog [SampleApply.crime]))
                           [SampleApply.matched_row] in
  let r := SampleApply.matched_row in
  exists resp,
    server w (length (requested w)) (MovieDetails (tmdb_id r)) = Answer resp
    /\ status_code resp = 429
    /\ SeenApply.apply_row (1 # 4) r w
       = (Ok tt,
          settled (update_import (import_id r)
                     (set_status_note ERROR
                        (Py.slice_to 900
                           ("429 Client Error: " ++ reason resp
                            ++ " for url: " ++ url resp))))
                  (after [MovieDetails (tmdb_id r)] [] w)).
Proof.
  intros w r. eexists. split; [reflexivity|]. split; [reflexivity|].
  exact (proj1 (applier_no_retry
                  {| uf_user_id := 1; uf_film_id := 0; uf_status := "WANT";
                     uf_rating_10 := None; uf_first_seen_at := None;
                     uf_last_seen_at := None; uf_rewatch_count := 0 |}
                  (1 # 4) r w _ eq_refl eq_refl)).
Defined.


(** ** The year of a film *)

Lemma digit_is_alnum (c : ascii) : is_digit c = true -> is_alnum c = true.
Proof. each_char c. Qed.

Lemma int_literal_digit (a : ascii) (r : string) :
  is_digit a = true ->
  match String a r with
  | String "+" r' => digits_value 0 false r'
  | String "-" r' => option_map Z.opp (digits_value 0 false r')
  | _ => digits_value 0 false (String a r)
  end = digits_value 0 false (String a r).
Proof.
  destruct a as [[|] [|] [|] [|] [|] [|] [|] [|]]; intros H;
    try discriminate H; reflexivity.
Qed.

Lemma int_literal_other (a : ascii) (r : string) :
  a <> "+"%char -> a <> "-"%char ->
  match String a r with
  | String "+" r' => digits_value 0 false r'
  | String "-" r' => option_map Z.opp (digits_value 0 false r')
  | _ => digits_value 0 false (String a r)
  end = digits_value 0 false (String a r).
Proof.
  destruct a as [[|] [|] [|] [|] [|] [|] [|] [|]]; intros H1 H2;
    try reflexivity; congruence.
Qed.

Lemma digit_not_int_space (c : ascii) : is_digit c = true -> int_space c = false.
Proof. each_char c. Qed.

Lemma not_space_not_int_space (c : ascii) : Py.isspace c = false -> int_space c = false.
Proof. each_char c. Qed.

Lemma int_strip_digits (a b c d : ascii) :
  is_digit a = true -> is_digit b = true -> is_digit c = true -> is_digit d = true ->
  int_rstrip (int_lstrip (String a (String b (String c (String d "")))))
  = String a (String b (String c (String d ""))).
Proof.
  intros Ha Hb Hc Hd. cbn [int_lstrip]. rewrite (digit_not_int_space a Ha).
  cbn [int_rstrip]. rewrite (digit_not_int_space d Hd). reflexivity.
Qed.

(** X17.  The year stored with a film is the number that the first four
    characters of the release date spell: a date that starts with four
    digits gives that year, a missing or empty date gives no year and no
    error, and a date that starts with anything but a digit, a sign or a
    blank raises [ValueError], for which the record goes to ERROR. *)
Theorem year_of_release_date (w : world) :
  (forall a b c d rest,
     is_digit a = true -> is_digit b = true -> is_digit c = true -> is_digit d = true ->
     year_of (Some (String a (String b (String c (String d rest))))) w
     = (Ok (Some (1000 * digit_value a + 100 * digit_value b
                  + 10 * digit_value c + digit_value d)), w))
  /\ year_of None w = (Ok None, w)
  /\ year_of (Some "") w = (Ok None, w)
  /\ (forall a rest,
        is_digit a = false -> Py.isspace a = false ->
        a <> "+"%char -> a <> "-"%char ->
        exists m, year_of (Some (String a rest)) w = (Raise (ValueError m), w)).
Proof.
  split; [|split; [|split]]; try reflexivity.
  - intros a b c d rest Ha Hb Hc Hd.
    unfold year_of. cbn [Py.truthy Py.slice_to]. unfold bind, int_of_str.
    cbv zeta. rewrite (int_strip_digits a b c d Ha Hb Hc Hd).
    pose proof (int_literal_digit a (String b (String c (String d ""))) Ha) as Hl.
    cbv beta iota in Hl |- *. rewrite Hl.
    cbn [digits_value]. rewrite Ha, Hb, Hc, Hd. cbv beta iota. cbn [ret].
    unfold ret. do 3 f_equal. lia.
  - intros a rest Hd Hsp Hp Hm.
    pose proof (not_space_not_int_space a Hsp) as Hi.
    unfold year_of. cbn [Py.truthy]. unfold bind, int_of_str. cbv zeta.
    destruct (int_rstrip (int_lstrip (Py.slice_to 4 (String a rest)))) as [|a' r'] eqn:Es.
    + cbn. eauto.
    + assert (Ha' : a' = a).
      { change (Py.slice_to 4 (String a rest)) with (String a (Py.slice_to 3 rest)) in Es.
        revert Es. generalize (Py.slice_to 3 rest) as x. intros x.
        cbn [int_lstrip]. rewrite Hi. cbn [int_rstrip].
        destruct (int_rstrip x); rewrite ?Hi; congruence. }
      subst a'. pose proof (int_literal_other a r' Hp Hm) as Hl.
      cbv beta iota in Hl |- *. rewrite Hl.
      cbn [digits_value]. rewrite Hd.
      replace ((a =? "_")%char && false) with false by (destruct (a =? "_")%char; reflexivity).
      cbn. eauto.
Qed.


(** ** The user's row of a film seen *)

Lemma map_merge_twice {R} (same : R -> bool) (merge : R -> R) (rows : list R) :
  (forall r, same r = true -> merge (merge r) = merge r) ->
  (forall r, same r = true -> same (merge r) = true) ->
  map (fun r => if same r then merge r else r)
      (map (fun r => if same r then merge r else r) rows)
  = map (fun r => if same r then merge r else r) rows.
Proof.
  intros Hmm Hsm. rewrite map_map. apply map_ext. intros r.
  destruct (same r) eqn:E; [rewrite (Hsm r E), (Hmm r E)|rewrite E]; reflexivity.
Qed.

Lemma find_map_merge {R} (same : R -> bool) (merge : R -> R) (rows : list R) :
  (forall r, same r = true -> same (merge r) = true) ->
  find same (map (fun r => if same r then merge r else r) rows)
  = option_map merge (find same rows).
Proof.
  intros Hsm. induction rows as [|r l IH]; simpl; [reflexivity|].
  destruct (same r) eqn:E; [rewrite (Hsm r E); reflexivity|rewrite E; exact IH].
Qed.

(** X18.  The seen-list applier's upsert of the user's row is idempotent,
    and on a film that already has a row it rewrites the status, the rating
    and the date last seen only: the date first seen and the rewatch count
    are kept, and a record without rating erases the rating that was
    there. *)
Theorem seen_user_film_upsert (film : Z) (rating : option Z) (watched : option string)
    (d : database) :
  let u := SeenApply.upsert_user_film film rating watched in
  u (u d) = u d
  /\ (forall r, In r (user_films d) -> is_user_film film r = true ->
        In {| uf_user_id := uf_user_id r; uf_film_id := uf_film_id r;
              uf_status := "SEEN"; uf_rating_10 := rating;
              uf_first_seen_at := uf_first_seen_at r; uf_last_seen_at := watched;
              uf_rewatch_count := uf_rewatch_count r |}
           (user_films (u d)))
  /\ ((forall r, In r (user_films d) -> is_user_film film r = false) ->
      user_films (u d)
      = (user_films d
         ++ [{| uf_user_id := 1; uf_film_id := film; uf_status := "SEEN";
                uf_rating_10 := rating; uf_first_seen_at := watched;
                uf_last_seen_at := watched; uf_rewatch_count := 0 |}])%list).
Proof.
  intros u. subst u. unfold SeenApply.upsert_user_film.
  set (same := fun r => (uf_user_id r =? SeenApply.USER_ID) && (uf_film_id r =? film)).
  set (merge := fun r : user_film_row => {| uf_user_id := uf_user_id r |}).
  set (fresh := fun _ : Z => {| uf_user_id := SeenApply.USER_ID |}).
  assert (Hsm : forall r, same r = true -> same (merge r) = true) by (intros r H; exact H).
  assert (Hmm : forall r, same r = true -> merge (merge r) = merge r) by reflexivity.
  assert (Hsf : forall i, same (fresh i) = true).
  { intros i. unfold same, fresh. cbn. rewrite Z.eqb_refl. reflexivity. }
  assert (Hmf : forall i, merge (fresh i) = fresh i) by reflexivity.
  split; [|split].
  - cbn [user_films with_user_films]. unfold with_user_films. cbn. f_equal.
    unfold upsert at 2 3.
    destruct (find same (user_films d)) as [old|] eqn:Ef; cbn [fst].
    + unfold upsert. rewrite (find_map_merge same merge _ Hsm), Ef. cbn [option_map fst].
      apply map_merge_twice; assumption.
    + unfold upsert.
      rewrite (find_app_fresh same (user_films d) (fresh _) Ef (Hsf _)). cbn [fst].
      rewrite map_app, (map_not_same same _ _ (find_none_not_same same _ Ef)).
      cbn [map]. rewrite Hsf, Hmf. reflexivity.
  - intros r Hr Hs. cbn [user_films with_user_films]. unfold upsert.
    destruct (find same (user_films d)) as [old|] eqn:Ef; cbn [fst].
    + apply in_map_iff. exists r. split; [|exact Hr].
      change (is_user_film film r) with (same r) in Hs. rewrite Hs. reflexivity.
    + pose proof (find_none _ _ Ef r Hr) as Hn.
      change (is_user_film film r) with (same r) in Hs. congruence.
  - intros Hnone. cbn [user_films with_user_films]. unfold upsert.
    destruct (find same (user_films d)) as [old|] eqn:Ef; cbn [fst]; [|reflexivity].
    apply find_some in Ef as [Hin Hs]. specialize (Hnone old Hin).
    change (is_user_film film old) with (same old) in Hnone. congruence.
Qed.


(** ** The director in the NAS matcher *)








(** ** A director without a name *)

Lemma map_m_nameless (crew : list crew_member) (c : crew_member) (w : world) :
  In c crew -> cm_name c = None ->
  map_m (fun c => n <- name_item c ;; ret (norm (Some n))) crew w
  = (Raise (KeyError "name"), w).
Proof.
  intros Hin Hc. induction crew as [|x r IH]; [destruct Hin|].
  rewrite map_m_cons.
  assert (Hx : (n <- name_item x ;; ret (norm (Some n))) w
               = match cm_name x with
                 | Some n => (Ok (norm (Some n)), w)
                 | None => (Raise (KeyError "name"), w)
                 end).
  { unfold bind, name_item. destruct (cm_name x); reflexivity. }
  rewrite Hx. destruct (cm_name x) as [n|] eqn:Ex; [|reflexivity].
  destruct Hin as [->|Hin]; [congruence|]. rewrite (IH Hin). reflexivity.
Qed.

Lemma overlap_nameless (hint : string) (dirs : list string) :
  In "" dirs -> director_overlap hint dirs = true.
Proof.
  intros H. unfold director_overlap. apply existsb_exists.
  exists "". split; [exact H|]. rewrite str_in_empty. apply orb_true_r.
Qed.

(** X20.  A director credit that carries no name is read in two ways.  The
    seen-list matcher raises [KeyError] on it, after its one credits
    request.  The physical-media and the watchlist matchers read the name as
    the empty string, which is contained in every hint: the directors they
    return for the film overlap every hint, the empty one included. *)
Theorem nameless_director (crew_of : Z -> list crew_member) (id : Z) (c : crew_member)
    (w : world) :
  In c (crew_of id) -> is_director c = true -> cm_name c = None ->
  (forall n i lang, answers_200 w n (MovieCredits i lang) (JCredits (crew_of i))) ->
  Seen.get_directors id w
  = (Raise (KeyError "name"), after [MovieCredits id None] [] w)
  /\ (exists dirs,
        Br.get_directors_for_tmdb_id id w
        = (Ok dirs, after [MovieCredits id (Some "en-US")] [] w)
        /\ forall hint, director_overlap hint dirs = true)
  /\ (exists dirs,
        Watchlist.get_directors id w = (Ok dirs, after [MovieCredits id None] [] w)
        /\ forall hint, director_overlap hint dirs = true).
Proof.
  intros Hin Hd Hc Hsrv.
  assert (Hf : In c (filter is_director (crew_of id))) by (apply filter_In; auto).
  split; [|split].
  - unfold Seen.get_directors, bind, tmdb_get.
    rewrite (tmdb_get_from_answers _ _ w (JCredits (crew_of id))) by apply Hsrv.
    cbn [get_crew]. apply (map_m_nameless _ c _ Hf Hc).
  - eexists. split.
    + unfold Br.get_directors_for_tmdb_id, bind, tmdb_get_path.
      rewrite (tmdb_get_from_answers _ _ w (JCredits (crew_of id))) by apply Hsrv.
      reflexivity.
    + intros hint. apply overlap_nameless. cbn [get_crew].
      apply in_map_iff. exists c. split; [rewrite Hc; reflexivity|exact Hf].
  - eexists. split.
    + unfold Watchlist.get_directors, bind, tmdb_get.
      rewrite (tmdb_get_from_answers _ _ w (JCredits (crew_of id))) by apply Hsrv.
      reflexivity.
    + intros hint. apply overlap_nameless. cbn [get_crew].
      apply in_map_iff. exists c. split; [rewrite Hc; reflexivity|exact Hf].
Qed.

Lemma nameless_director_witness :
  let crew_of := fun _ : Z => [{| cm_name := None; cm_job := Some "Director" |}] in
  let w := Sample.world_of (Sample.catalog [Sample.heat] crew_of) [] in
  Seen.get_directors 949 w
  = (Raise (KeyError "name"), after [MovieCredits 949 None] [] w)
  /\ exists dirs,
       Br.get_directors_for_tmdb_id 949 w
       = (Ok dirs, after [MovieCredits 949 (Some "en-US")] [] w)
       /\ forall hint, director_overlap hint dirs = true.
Proof.
  intros crew_of w.
  destruct (nameless_director crew_of 949
              {| cm_name := None; cm_job := Some "Director" |} w) as (H1 & H2 & _).
  - left. reflexivity.
  - reflexivity.
  - reflexivity.
  - intros n i lang. eexists. split; [reflexivity|]. split; reflexivity.
  - split; [exact H1|exact H2].
Defined.


(** ** The film row under the two film upserts *)

Lemma seen_year_of_ok (d : movie) (w : world) :
  release_ok d -> exists y, year_of (m_release_date d) w = (Ok y, w).
Proof.
  unfold release_ok, year_of.
  destruct (m_release_date d) as [rd|]; [|intros _; exists None; reflexivity].
  destruct (Py.truthy rd); [|intros _; exists None; reflexivity].
  intros H. destruct (H eq_refl) as (y & Hy).
  exists (Some y). unfold bind. rewrite Hy. reflexivity.
Qed.

Lemma int_of_four_digits (a b c d : ascii) (w : world) :
  is_digit a = true -> is_digit b = true -> is_digit c = true -> is_digit d = true ->
  int_of_str (String a (String b (String c (String d "")))) w
  = (Ok (1000 * digit_value a + 100 * digit_value b
         + 10 * digit_value c + digit_value d), w).
Proof.
  intros Ha Hb Hc Hd. unfold int_of_str.
  cbv zeta. rewrite (int_strip_digits a b c d Ha Hb Hc Hd).
  pose proof (int_literal_digit a (String b (String c (String d ""))) Ha) as Hl.
  cbv beta iota in Hl |- *. rewrite Hl.
  cbn [digits_value]. rewrite Ha, Hb, Hc, Hd. cbv beta iota.
  unfold ret. do 2 f_equal. lia.
Qed.

(** A date of the calendar starts with a year that [int] reads. *)
Lemma release_dated_ok (d : movie) : release_dated d -> release_ok d.
Proof.
  unfold release_dated, release_ok.
  destruct (m_release_date d) as [rd|]; [|trivial].
  intros Hd _.
  destruct rd as [|y1 [|y2 [|y3 [|y4 rest]]]]; try discriminate Hd.
  destruct rest as [|s1 [|m1 [|m2 [|s2 [|d1 [|d2 [|x rest]]]]]]]; try discriminate Hd.
  cbn [is_date forallb] in Hd.
  do 3 (apply andb_true_iff in Hd as [Hd _]).
  apply andb_true_iff in Hd as [H1 Hd]. apply andb_true_iff in Hd as [H2 Hd].
  apply andb_true_iff in Hd as [H3 Hd]. apply andb_true_iff in Hd as [H4 _].
  eexists. intros w. cbn [Py.slice_to].
  apply int_of_four_digits; assumption.
Qed.

(** X21.  The seen-list and watchlist appliers write seven columns of a
    film and leave the others alone.  For a details document whose release
    date is absent or a date of the calendar written [YYYY-MM-DD], and on
    a film that the table already holds, their upsert keeps the row's key
    and what another applier stored in the IMDb id, the language, the
    poster and backdrop paths, the popularity and the votes; it returns the
    key of the row and adds no row.  On the same film the upsert of the
    physical-media applier rewrites every column from the details
    document. *)
Theorem film_upsert_columns (d : movie) (f : film_row) (w : world) :
  release_dated d ->
  In f (films (db w)) -> f_tmdb_id f = m_id d ->
  (forall g, In g (films (db w)) -> f_tmdb_id g = m_id d -> g = f) ->
  (exists y w',
     SeenApply.upsert_film (JMovie d) w = (Ok (film_id f), w')
     /\ WatchlistApply.upsert_film (JMovie d) w = (Ok (film_id f), w')
     /\ length (films (db w')) = length (films (db w))
     /\ In {| film_id := film_id f; f_tmdb_id := f_tmdb_id f; f_imdb_id := f_imdb_id f;
              f_title := m_title d; f_original_title := m_original_title d;
              f_release_date := m_release_date d; f_year := y;
              f_runtime_min := m_runtime d; f_overview := m_overview d;
              f_original_language := f_original_language f;
              f_poster_path := f_poster_path f; f_backdrop_path := f_backdrop_path f;
              f_tmdb_popularity := f_tmdb_popularity f;
              f_tmdb_vote_avg := f_tmdb_vote_avg f;
              f_tmdb_vote_count := f_tmdb_vote_count f |}
           (films (db w')))
  /\ (exists y w',
        upsert_film (JMovie d) w = (Ok (film_id f), w')
        /\ length (films (db w')) = length (films (db w))
        /\ In {| film_id := film_id f; f_tmdb_id := m_id d; f_imdb_id := m_imdb_id d;
                 f_title := m_title d; f_original_title := m_original_title d;
                 f_release_date :=
                   match m_release_date d with
                   | Some rd => if Py.truthy rd then Some rd else None
                   | None => None
                   end;
                 f_year := y;
                 f_runtime_min := m_runtime d; f_overview := m_overview d;
                 f_original_language := m_original_language d;
                 f_poster_path := m_poster_path d;
                 f_backdrop_path := m_backdrop_path d;
                 f_tmdb_popularity := m_popularity d;
                 f_tmdb_vote_avg := m_vote_average d;
                 f_tmdb_vote_count := m_vote_count d |}
              (films (db w'))).
Proof.
  intros Hdated Hin Hid Huniq.
  pose proof (release_dated_ok d Hdated) as Hrel.
  assert (Hfind : find (fun g => f_tmdb_id g =? m_id d) (films (db w)) = Some f).
  { destruct (find (fun g => f_tmdb_id g =? m_id d) (films (db w))) as [g|] eqn:Ef.
    - apply find_some in Ef as [Hg Hs]. apply Z.eqb_eq in Hs.
      rewrite (Huniq g Hg Hs). reflexivity.
    - pose proof (find_none _ _ Ef f Hin) as Hn. cbn beta in Hn.
      rewrite Hid, Z.eqb_refl in Hn. discriminate. }
  split.
  - destruct (seen_year_of_ok d w Hrel) as (y & Hy).
    exists y. eexists. split.
    { unfold SeenApply.upsert_film. unfold bind at 1. cbn [details_item ret].
      unfold bind at 1. rewrite Hy. unfold bind at 1, query.
      unfold upsert. rewrite Hfind. cbv iota beta. reflexivity. }
    split.
    { unfold WatchlistApply.upsert_film, SeenApply.upsert_film.
      unfold bind at 1. cbn [details_item ret].
      unfold bind at 1. rewrite Hy. unfold bind at 1, query.
      unfold upsert. rewrite Hfind. cbv iota beta. reflexivity. }
    cbn [db films with_films]. split; [apply length_map|].
    apply in_map_iff. exists f. split; [|exact Hin].
    rewrite Hid, Z.eqb_refl. reflexivity.
  - destruct (year_of_ok d w Hrel) as (y & Hy).
    exists y. eexists. split.
    { unfold upsert_film. unfold bind at 1. cbn [details_item ret].
      unfold bind at 1. rewrite Hy. unfold bind at 1, query.
      unfold upsert. rewrite Hfind. cbv iota beta. reflexivity. }
    cbn [db films with_films]. split; [apply length_map|].
    apply in_map_iff. exists f. split; [|exact Hin].
    rewrite Hid, Z.eqb_refl. reflexivity.
Qed.
Lemma film_upsert_columns_witness :
  let d := SampleApply.heat_details [] in
  let f := SampleStored.film in
  let w := SampleStored.stored_world in
  release_dated d
  /\ In f (films (db w))
  /\ f_tmdb_id f = m_id d
  /\ exists y w',
       SeenApply.upsert_film (JMovie d) w = (Ok (film_id f), w')
       /\ WatchlistApply.upsert_film (JMovie d) w = (Ok (film_id f), w')
       /\ length (films (db w')) = length (films (db w))
       /\ In {| film_id := 7; f_tmdb_id := 949; f_imdb_id := Some "tt0113277";
                f_title := m_title d; f_original_title := m_original_title d;
                f_release_date := m_release_date d; f_year := y;
                f_runtime_min := m_runtime d; f_overview := m_overview d;
                f_original_language := Some "en";
                f_poster_path := Some "/heat.jpg"; f_backdrop_path := None;
                f_tmdb_popularity := Some (7 # 2);
                f_tmdb_vote_avg := Some (79 # 10);
                f_tmdb_vote_count := Some 7000 |}
             (films (db w')).
Proof.
  intros d f w.
  assert (Hrel : release_dated d) by reflexivity.
  assert (Hin : In f (films (db w))) by (left; reflexivity).
  split; [exact Hrel|]. split; [exact Hin|]. split; [reflexivity|].
  refine (proj1 (film_upsert_columns d f w Hrel Hin eq_refl _)).
  intros g [<-|[]] _. reflexivity.
Defined.


(** ** A record without a usable title *)

Lemma not_alnum_blank (c : ascii) :
  is_alnum c = false -> is_alnum_space c = true -> Py.isspace c = true.
Proof. each_char c. Qed.

Lemma all_chars_lower (p : ascii -> bool) (s : string) :
  Py.all_chars (fun c => p (Py.lower_char c)) s = true ->
  Py.all_chars p (Py.lower s) = true.
Proof.
  induction s as [|c r IH]; simpl; [reflexivity|].
  intros H. apply andb_true_iff in H as [Hc Hr]. rewrite Hc, IH; auto.
Qed.

Lemma all_chars_sub_brackets (p : ascii -> bool) (b : bool) (s : string) :
  Py.all_chars p s = true -> Py.all_chars p (Py.sub_brackets_from b s) = true.
Proof.
  revert b. induction s as [|c r IH]; intros b; simpl; [reflexivity|].
  intros H. apply andb_true_iff in H as [Hc Hr].
  destruct b.
  - destruct (Py.is_close c); apply IH, Hr.
  - destruct (Py.is_open c && Py.has_close r); [apply IH, Hr|].
    simpl. rewrite Hc. apply IH, Hr.
Qed.

Lemma blank_sub_punctuation (b : bool) (s : string) :
  Py.all_chars (fun c => negb (is_alnum c)) s = true ->
  Py.all_chars Py.isspace
    (Py.sub_runs_from (fun c => negb (is_alnum_space c)) b s) = true.
Proof.
  revert b. induction s as [|c r IH]; intros b; simpl; [reflexivity|].
  intros H. apply andb_true_iff in H as [Hc Hr]. apply negb_true_iff in Hc.
  destruct (is_alnum_space c) eqn:Ea; simpl.
  - rewrite (not_alnum_blank c Hc Ea). apply IH, Hr.
  - destruct b; simpl; rewrite ?isspace_space; apply IH, Hr.
Qed.

Lemma lstrip_blank (s : string) : Py.all_chars Py.isspace s = true -> Py.lstrip s = "".
Proof.
  induction s as [|c r IH]; simpl; [reflexivity|].
  intros H. apply andb_true_iff in H as [Hc Hr]. rewrite Hc. apply IH, Hr.
Qed.

(** X22.  A record whose title normalizes to the empty string (no title, or
    punctuation and bracketed annotations only) is scored on the year
    alone, but not in the same way by the scorers.  The seen-list and the
    watchlist scorers give every candidate the containment bonus, since the
    empty string is contained in every title (and the exact bonus to a
    candidate whose own title normalizes to nothing): no candidate scores
    less than 2.  The physical-media scorer guards the containment test and
    gives a candidate with titles nothing for the title. *)
Theorem empty_query_title (year_q : option Z) (dir : string) (c : candidate) :
  let bonus :=
    if int_truthy year_q
       && Py.startswith (Py.or_empty (c_release_date c)) (str_of_opt_int year_q)
    then 3 else 0 in
  score_candidate "" year_q dir c
  = (if (norm (c_title c) =? "")%string || (norm (c_original_title c) =? "")%string
     then 5 else 2) + bonus
  /\ Watchlist.score "" year_q c = score_candidate "" year_q dir c
  /\ Br.score_candidate "" year_q dir c
     = (if (br_norm (Some (Py.or_empty (c_title c))) =? "")%string
           || (br_norm (Some (Py.or_empty (c_original_title c))) =? "")%string
        then 5 else 0) + bonus
  /\ norm None = ""
  /\ (forall t, Py.all_chars (fun ch => negb (is_alnum (Py.lower_char ch))) t = true ->
                norm (Some t) = "").
Proof.
  intros bonus. subst bonus. split; [|split; [|split; [|split]]].
  - unfold score_candidate. rewrite !str_in_empty. cbn [orb].
    destruct (int_truthy year_q); cbn [andb];
      [destruct (Py.startswith _ _)|]; destruct (_ || _); reflexivity.
  - unfold Watchlist.score, score_candidate. rewrite !str_in_empty. cbn [orb].
    destruct (int_truthy year_q); cbn [andb];
      [destruct (Py.startswith _ _)|]; destruct (_ || _); reflexivity.
  - unfold Br.score_candidate. cbn [Py.truthy andb].
    destruct (int_truthy year_q); cbn [andb];
      [destruct (Py.startswith _ _)|]; destruct (_ || _); reflexivity.
  - reflexivity.
  - intros t Ht. unfold norm, Py.strip, Py.sub_runs, Py.sub_brackets. cbn [Py.or_empty].
    rewrite lstrip_blank; [reflexivity|].
    apply all_chars_sub_runs; [reflexivity|].
    apply blank_sub_punctuation, all_chars_sub_brackets, all_chars_lower, Ht.
Qed.


(** ** The formats of a physical copy, from the importer to the applier *)

Lemma code_of_codes (p code : string) :
  ImportBr.code_of p = Some code -> code = "UHD" \/ code = "BR" \/ code = "DVD".
Proof.
  unfold ImportBr.code_of. cbv zeta.
  destruct (Py.truthy _); [|discriminate].
  destruct (ImportBr.one_of _ _); [intros [= <-]; auto|].
  destruct (ImportBr.one_of _ _); [intros [= <-]; auto|].
  destruct (_ =? _)%string; [intros [= <-]; auto|discriminate].
Qed.

Lemma uniq_from_spec (seen out : list string) :
  NoDup (ImportBr.uniq_from seen out)
  /\ forall x, In x (ImportBr.uniq_from seen out) <-> In x out /\ ~ In x seen.
Proof.
  revert seen. induction out as [|y r IH]; intros seen; cbn [ImportBr.uniq_from].
  - split; [constructor|]. intros x. cbn. tauto.
  - destruct (existsb (String.eqb y) seen) eqn:E.
    + destruct (IH seen) as [Hn Hi]. split; [exact Hn|].
      intros x. rewrite Hi. cbn [In]. split; [tauto|].
      intros [[<-|Hx] Hs]; [|tauto]. exfalso. apply Hs.
      apply existsb_exists in E as (z & Hz & Ez). apply String.eqb_eq in Ez.
      subst z. exact Hz.
    + destruct (IH (y :: seen)) as [Hn Hi].
      assert (Hy : ~ In y seen).
      { intros Hy. apply not_true_iff_false in E. apply E.
        apply existsb_exists. exists y. split; [exact Hy|apply String.eqb_refl]. }
      split.
      * constructor; [|exact Hn]. rewrite Hi. cbn [In]. tauto.
      * intros x. cbn [In]. rewrite Hi. cbn [In].
        destruct (string_dec y x) as [<-|Hne]; tauto.
Qed.

Lemma normalize_tokens_in (tokens : list string) (code : string) :
  In code (ImportBr.normalize_tokens tokens) ->
  code = "UHD" \/ code = "BR" \/ code = "DVD".
Proof.
  unfold ImportBr.normalize_tokens. cbv zeta. intros H.
  apply (proj2 (uniq_from_spec [] _)) in H as [H _].
  apply in_flat_map in H as (block & _ & H).
  apply in_flat_map in H as (p & _ & H).
  destruct (ImportBr.code_of p) as [c|] eqn:E; [|destruct H].
  destruct H as [<-|[]]. apply (code_of_codes p c E).
Qed.

Lemma NoDup_three (l : list string) :
  NoDup l -> (forall x, In x l -> x = "UHD" \/ x = "BR" \/ x = "DVD") ->
  (length l <= 3)%nat.
Proof.
  intros Hn Hin.
  apply (NoDup_incl_length Hn (l' := ["UHD"; "BR"; "DVD"])).
  intros x Hx. cbn. destruct (Hin x Hx) as [->|[->| ->]]; auto.
Qed.

(** X23.  The formats that the importer reads off the bracketed blocks of a
    title are codes among UHD, BR and DVD, each at most once (so three at
    most), whatever the blocks hold. *)
Theorem normalize_tokens_codes (tokens : list string) :
  Forall (fun code => code = "UHD" \/ code = "BR" \/ code = "DVD")
         (ImportBr.normalize_tokens tokens)
  /\ NoDup (ImportBr.normalize_tokens tokens)
  /\ (length (ImportBr.normalize_tokens tokens) <= 3)%nat.
Proof.
  assert (Hn : NoDup (ImportBr.normalize_tokens tokens))
    by apply (proj1 (uniq_from_spec [] _)).
  split; [|split; [exact Hn|]].
  - apply Forall_forall. apply normalize_tokens_in.
  - apply (NoDup_three _ Hn). apply normalize_tokens_in.
Qed.

Lemma existsb_code (code : string) (l : list string) :
  existsb (String.eqb code) l = true <-> In code l.
Proof.
  rewrite existsb_exists. split.
  - intros (x & Hx & E). apply String.eqb_eq in E. subst x. exact Hx.
  - intros H. exists code. split; [exact H|apply String.eqb_refl].
Qed.

(** X24.  The importer writes a 4K disc as UHD and the applier looks for
    4K: the primary format of a copy imported by the importer is never UHD.
    It is BLURAY when the title names a Blu-ray, else DVD when it names a
    DVD, and none at all for a disc that is only 4K. *)
Theorem imported_format_never_uhd (tokens : list string) :
  let formats := ImportBr.normalize_tokens tokens in
  BrApply.choose_primary_format formats <> Some "UHD"
  /\ (In "BR" formats -> BrApply.choose_primary_format formats = Some "BLURAY")
  /\ (~ In "BR" formats -> In "DVD" formats ->
      BrApply.choose_primary_format formats = Some "DVD")
  /\ (~ In "BR" formats -> ~ In "DVD" formats ->
      BrApply.choose_primary_format formats = None)
  /\ ImportBr.formats_of "Blade Runner 2049 [4K]" = ["UHD"]
  /\ ImportBr.formats_of "Heat [4K + Blu-ray]" = ["UHD"; "BR"].
Proof.
  intros formats.
  assert (Hup : map upper formats = formats).
  { rewrite <- (map_id formats) at 2. apply map_ext_in. intros x Hx.
    destruct (normalize_tokens_in tokens x Hx) as [->|[->| ->]]; reflexivity. }
  assert (H4 : existsb (String.eqb "4K") formats = false).
  { apply not_true_iff_false. rewrite existsb_code. intros H.
    destruct (normalize_tokens_in tokens _ H) as [E|[E|E]]; discriminate. }
  assert (Hc : BrApply.choose_primary_format formats
               = if existsb (String.eqb "BR") formats then Some "BLURAY"
                 else if existsb (String.eqb "DVD") formats then Some "DVD"
                 else None).
  { unfold BrApply.choose_primary_format. rewrite Hup, H4.
    destruct formats; reflexivity. }
  rewrite Hc. split; [|split; [|split; [|split; [|split]]]]; try reflexivity.
  - intros E. destruct (existsb (String.eqb "BR") formats); [discriminate E|].
    destruct (existsb (String.eqb "DVD") formats); discriminate E.
  - intros H. apply existsb_code in H. rewrite H. reflexivity.
  - intros Hb Hd. apply existsb_code in Hd. rewrite Hd.
    destruct (existsb (String.eqb "BR") formats) eqn:E; [|reflexivity].
    apply existsb_code in E. contradiction.
  - intros Hb Hd.
    destruct (existsb (String.eqb "BR") formats) eqn:E;
      [apply existsb_code in E; contradiction|].
    destruct (existsb (String.eqb "DVD") formats) eqn:E';
      [apply existsb_code in E'; contradiction|reflexivity].
Qed.


(** ** The year of a seen-list record, from the importer to the scorer *)

Lemma digit_value_range (c : ascii) : is_digit c = true -> 0 <= digit_value c <= 9.
Proof.
  destruct c as [[|] [|] [|] [|] [|] [|] [|] [|]]; intros H; try discriminate H;
    cbv; split; intros E; discriminate E.
Qed.

Lemma year_ahead_range (s : string) (y : Z) :
  ImportSeen.year_ahead s = Some y -> 1800 <= y <= 2099.
Proof.
  unfold ImportSeen.year_ahead.
  destruct s as [|a [|b [|c [|d r]]]]; try discriminate.
  destruct (_ && _)%bool eqn:E; [|discriminate]. intros Hy.
  assert (Ey : 1000 * digit_value a + 100 * digit_value b
               + 10 * digit_value c + digit_value d = y) by congruence.
  clear Hy. subst y.
  apply andb_true_iff in E as [E _].
  apply andb_true_iff in E as [E Hd]. apply andb_true_iff in E as [E Hc].
  pose proof (digit_value_range c Hc). pose proof (digit_value_range d Hd).
  apply orb_true_iff in E as [E|E]; apply andb_true_iff in E as [Ha Hb].
  - apply Ascii.eqb_eq in Ha. subst a.
    apply orb_true_iff in Hb as [Hb|Hb]; apply Ascii.eqb_eq in Hb; subst b;
      change (digit_value "1") with 1;
      [change (digit_value "8") with 8|change (digit_value "9") with 9]; lia.
  - apply Ascii.eqb_eq in Ha, Hb. subst a b.
    change (digit_value "2") with 2. change (digit_value "0") with 0. lia.
Qed.

Lemma search_year_ahead (s : string) (b : bool) (y : Z) :
  ImportSeen.search_year b s = Some y ->
  exists s', ImportSeen.year_ahead s' = Some y.
Proof.
  revert b. induction s as [|c r IH]; intros b; cbn [ImportSeen.search_year];
    [discriminate|].
  destruct (if b then None else ImportSeen.year_ahead (String c r)) as [y'|] eqn:E.
  - intros [= <-]. destruct b; [discriminate|]. eauto.
  - apply IH.
Qed.

Lemma years_print_four :
  forallb (fun n => (String.length (Py.str_of_int (1800 + Z.of_nat n)) =? 4)%nat)
          (seq 0 300) = true.
Proof. vm_compute. reflexivity. Qed.

Lemma year_prints_four (y : Z) :
  1800 <= y <= 2099 -> String.length (Py.str_of_int y) = 4%nat.
Proof.
  intros H. pose proof years_print_four as Hall.
  rewrite forallb_forall in Hall.
  specialize (Hall (Z.to_nat (y - 1800))).
  rewrite Z2Nat.id in Hall by lia. replace (1800 + (y - 1800)) with y in Hall by lia.
  apply Nat.eqb_eq, Hall. apply in_seq. lia.
Qed.

(** X25.  The year that the seen-list importer reads off a cell is a year
    between 1800 and 2099, which prints as four characters and is not 0.
    For a record with such a year the test that the scorers make for the
    year bonus, [release_date.startswith(str(year))], compares the first
    four characters of the release date with the year. *)
Theorem parse_year_four_digits (x : option string) (y : Z) :
  ImportSeen.parse_year x = Some y ->
  1800 <= y <= 2099
  /\ String.length (Py.str_of_int y) = 4%nat
  /\ int_truthy (Some y) = true
  /\ forall rd,
       Py.startswith rd (str_of_opt_int (Some y))
       = (Py.slice_to 4 rd =? Py.str_of_int y)%string.
Proof.
  unfold ImportSeen.parse_year. destruct x as [x|]; [|discriminate].
  cbv zeta. destruct (Py.truthy _); [|discriminate]. intros H.
  apply search_year_ahead in H as (s' & H). apply year_ahead_range in H.
  pose proof (year_prints_four y H) as Hl.
  split; [exact H|]. split; [exact Hl|]. split.
  - unfold int_truthy. apply negb_true_iff, Z.eqb_neq. lia.
  - intros rd. unfold Py.startswith, str_of_opt_int.
    rewrite prefix_slice, Hl. reflexivity.
Qed.

Lemma parse_year_four_digits_witness :
  ImportSeen.parse_year (Some " Blade Runner (1982) ") = Some 1982
  /\ String.length (Py.str_of_int 1982) = 4%nat
  /\ forall rd,
       Py.startswith rd (str_of_opt_int (Some 1982))
       = (Py.slice_to 4 rd =? Py.str_of_int 1982)%string.
Proof.
  split; [reflexivity|].
  destruct (parse_year_four_digits (Some " Blade Runner (1982) ") 1982 eq_refl)
    as (_ & Hl & _ & Hs).
  split; [exact Hl|exact Hs].
Defined.


(** ** The title of a watchlist record *)

Lemma space_not_bracket (c : ascii) :
  Py.isspace c = true -> Py.is_open c = false /\ Py.is_close c = false.
Proof. each_char c. Qed.

Lemma has_close_sub_brackets (b : bool) (s : string) :
  Py.has_close s = false -> Py.has_close (Py.sub_brackets_from b s) = false.
Proof.
  revert b. induction s as [|c r IH]; intros b; simpl; [reflexivity|].
  intros H. apply orb_false_iff in H as [Hc Hr].
  destruct b.
  - rewrite Hc. apply IH, Hr.
  - rewrite Hr, andb_false_r. simpl. rewrite Hc. apply IH, Hr.
Qed.

Lemma no_bracket_sub_brackets (b : bool) (s : string) :
  Py.has_bracketed (Py.sub_brackets_from b s) = false.
Proof.
  revert b. induction s as [|c r IH]; intros b; simpl; [reflexivity|].
  destruct b.
  - destruct (Py.is_close c); apply IH.
  - destruct (Py.is_open c && Py.has_close r) eqn:E; [apply IH|].
    simpl. rewrite IH, orb_false_r.
    apply andb_false_iff in E as [E|E]; [rewrite E; reflexivity|].
    rewrite (has_close_sub_brackets false r E). apply andb_false_r.
Qed.

Lemma sub_brackets_none (s : string) :
  Py.has_bracketed s = false -> Py.sub_brackets_from false s = s.
Proof.
  induction s as [|c r IH]; simpl; [reflexivity|].
  intros H. apply orb_false_iff in H as [Hc Hr]. rewrite Hc, IH by exact Hr.
  reflexivity.
Qed.

Lemma has_close_collapse (b : bool) (s : string) :
  Py.has_close (Py.sub_runs_from Py.isspace b s) = Py.has_close s.
Proof.
  revert b. induction s as [|c r IH]; intros b; simpl; [reflexivity|].
  destruct (Py.isspace c) eqn:E.
  - destruct (space_not_bracket c E) as [_ Hc]. rewrite Hc.
    destruct b; simpl; apply IH.
  - simpl. rewrite IH. reflexivity.
Qed.

Lemma has_bracketed_collapse (b : bool) (s : string) :
  Py.has_bracketed (Py.sub_runs_from Py.isspace b s) = Py.has_bracketed s.
Proof.
  revert b. induction s as [|c r IH]; intros b; simpl; [reflexivity|].
  destruct (Py.isspace c) eqn:E.
  - destruct (space_not_bracket c E) as [Ho _]. rewrite Ho.
    destruct b; simpl; apply IH.
  - simpl. rewrite IH, has_close_collapse. reflexivity.
Qed.

Lemma has_bracketed_lstrip (s : string) :
  Py.has_bracketed (Py.lstrip s) = Py.has_bracketed s.
Proof.
  induction s as [|c r IH]; simpl; [reflexivity|].
  destruct (Py.isspace c) eqn:E; [|reflexivity].
  destruct (space_not_bracket c E) as [Ho _]. rewrite Ho. exact IH.
Qed.

Lemma has_close_rstrip (s : string) : Py.has_close (Py.rstrip s) = Py.has_close s.
Proof.
  induction s as [|c r IH]; simpl; [reflexivity|].
  destruct (Py.rstrip r) as [|c' r'] eqn:Er.
  - simpl in IH. rewrite <- IH.
    destruct (Py.isspace c) eqn:E; simpl; [|rewrite orb_false_r; reflexivity].
    destruct (space_not_bracket c E) as [_ Hc]. rewrite Hc. reflexivity.
  - simpl in *. rewrite IH. reflexivity.
Qed.

Lemma has_bracketed_rstrip (s : string) :
  Py.has_bracketed (Py.rstrip s) = Py.has_bracketed s.
Proof.
  induction s as [|c r IH]; [reflexivity|].
  pose proof (has_close_rstrip r) as Hc.
  cbn [Py.rstrip Py.has_bracketed].
  destruct (Py.rstrip r) as [|c' r'] eqn:Er.
  - rewrite <- IH, <- Hc. cbn [Py.has_close Py.has_bracketed].
    destruct (Py.isspace c); cbn [Py.has_close Py.has_bracketed];
      rewrite ?andb_false_r; reflexivity.
  - rewrite <- IH, <- Hc. reflexivity.
Qed.

Lemma has_bracketed_strip (s : string) :
  Py.has_bracketed (Py.strip s) = Py.has_bracketed s.
Proof. unfold Py.strip. rewrite has_bracketed_rstrip. apply has_bracketed_lstrip. Qed.

(** X26.  A title as the watchlist importer stores it carries no bracketed
    annotation, has no surrounding blank and only single spaces; cleaning
    it again changes nothing. *)
Theorem watchlist_clean_title (t : option string) :
  let c := ImportWatchlist.clean_title t in
  Py.has_bracketed c = false
  /\ Py.strip c = c
  /\ spaced false c = true
  /\ ImportWatchlist.clean_title (Some c) = c.
Proof.
  intros c.
  assert (Hb : Py.has_bracketed c = false).
  { subst c. unfold ImportWatchlist.clean_title, Py.sub_runs, Py.sub_brackets.
    rewrite has_bracketed_strip, has_bracketed_collapse. apply no_bracket_sub_brackets. }
  assert (Hs : Py.strip c = c) by apply strip_idem.
  assert (Hp : spaced false c = true).
  { subst c. unfold ImportWatchlist.clean_title, Py.strip at 1.
    apply spaced_rstrip, spaced_lstrip with (b := false). apply spaced_sub_runs. }
  split; [exact Hb|]. split; [exact Hs|]. split; [exact Hp|].
  unfold ImportWatchlist.clean_title. cbn [Py.or_empty]. fold c.
  unfold Py.sub_brackets, Py.sub_runs.
  rewrite Hs, (sub_brackets_none c Hb), (sub_runs_spaced false c Hp). exact Hs.
Qed.
